(** * vaire-cfg: the service management tool [services.py]

    A shallow embedding of [services.py] and the properties of its
    deployment reconciler, its start/stop dispatch, its secret renderer and
    its backup/restore pipeline.

    The script is a sequence of statements that read and change the process
    (the [Service] objects held by [args.services], [os.environ], the
    [_verbose] flag) and the machine around it (files, symbolic links, the
    temporary mount of the bucket, the user's crontab), and that raise Python
    exceptions.  It is embedded in a state-and-exception monad [Py] over a
    record [World]: a statement maps a world to an outcome ([Ok] or [Raise])
    and the world it leaves behind.  An exception keeps the world reached so
    far, as in Python.

    What lives outside the script (the exit status of a child process, the
    YAML reader and writer, the template engine, the KMS envelope
    encryption, glob expansion, the text [str] gives a value that is not a
    string) is the interface [Externals].

    Modelling choices.  A path is identified by its spelling.  The
    attributes of a [Service] have the types the script uses them at.  A
    child process that fails changes nothing; one that succeeds changes the
    tracked world as [command_effect] says.  Log output is not modelled. *)

From Stdlib Require Import ZArith Ascii String List Bool Lia.
From stdpp Require Import base option gmap strings list fin_maps pretty.

Open Scope string_scope.

(** ** Strings and paths ([os.path]) *)

Module Path.

Definition slash : ascii := "/"%char.

Fixpoint has_slash (p : string) : bool :=
  match p with
  | EmptyString => false
  | String c r => Ascii.eqb c slash || has_slash r
  end.

(** [os.path.basename]: what follows the last slash. *)
Fixpoint basename (p : string) : string :=
  match p with
  | EmptyString => EmptyString
  | String c r =>
      if Ascii.eqb c slash then basename r
      else if has_slash r then basename r else p
  end.

Definition startswith (pre s : string) : bool := String.prefix pre s.

Fixpoint endswith_slash (p : string) : bool :=
  match p with
  | EmptyString => false
  | String c EmptyString => Ascii.eqb c slash
  | String _ r => endswith_slash r
  end.

(** [os.path.join] on two components. *)
Definition join (a b : string) : string :=
  if startswith "/" b then b
  else if (String.eqb a "" || endswith_slash a)%bool then a ++ b
  else a ++ "/" ++ b.

(** [s.rstrip("/")]. *)
Fixpoint rstrip_slash (p : string) : string :=
  match p with
  | EmptyString => EmptyString
  | String c r =>
      match rstrip_slash r with
      | EmptyString => if Ascii.eqb c slash then EmptyString else String c EmptyString
      | r' => String c r'
      end
  end.

(** [s.split("/")]. *)
Fixpoint split (p : string) : list string :=
  match p with
  | EmptyString => [EmptyString]
  | String c r =>
      if Ascii.eqb c slash then EmptyString :: split r
      else match split r with
           | [] => [String c EmptyString]
           | x :: xs => String c x :: xs
           end
  end.

(** The component loop of [posixpath.normpath]; [acc] is [new_comps]
    with its last element first. *)
Fixpoint norm_comps (initial : bool) (comps acc : list string) : list string :=
  match comps with
  | [] => rev acc
  | c :: cs =>
      if (String.eqb c "" || String.eqb c ".")%bool then norm_comps initial cs acc
      else if negb (String.eqb c "..") then norm_comps initial cs (c :: acc)
      else match acc with
           | [] => if initial then norm_comps initial cs acc
                   else norm_comps initial cs (c :: acc)
           | top :: acc' =>
               if String.eqb top ".." then norm_comps initial cs (c :: acc)
               else norm_comps initial cs acc'
           end
  end.

(** Number of leading slashes kept by POSIX: two stay two, any other
    positive number is one. *)
Definition initial_slashes (p : string) : string :=
  if startswith "/" p then
    if (startswith "//" p && negb (startswith "///" p))%bool then "//" else "/"
  else "".

Definition normpath (p : string) : string :=
  if String.eqb p "" then "."
  else
    let ini := initial_slashes p in
    let comps := norm_comps (negb (String.eqb ini "")) (split p) [] in
    let q := ini ++ String.concat "/" comps in
    if String.eqb q "" then "." else q.

(** [os.path.abspath] relative to the working directory [cwd]. *)
Definition abspath (cwd p : string) : string := normpath (join cwd p).

(** [strip_prefix pre s] is [Some r] when [s = pre ++ r]. *)
Fixpoint strip_prefix (pre s : string) : option string :=
  match pre, s with
  | EmptyString, _ => Some s
  | String a pre', String b s' =>
      if Ascii.eqb a b then strip_prefix pre' s' else None
  | String _ _, EmptyString => None
  end.

(** [p] lies strictly below the directory [d]. *)
Definition below (d p : string) : bool :=
  match strip_prefix (d ++ "/") p with
  | Some r => negb (String.eqb r "")
  | None => false
  end.

End Path.

(** ** Values read from YAML documents *)

#[warnings="-register-all"]
Inductive yaml : Type :=
| YNull
| YBool (b : bool)
| YInt (z : Z)
| YStr (s : string)
| YSeq (l : list yaml)
| YMap (m : list (string * yaml)).

(** Lookup in a mapping that keeps the order of its keys (a Python [dict]). *)
Fixpoint assoc {A : Type} (k : string) (m : list (string * A)) : option A :=
  match m with
  | [] => None
  | (k', v) :: m' => if String.eqb k k' then Some v else assoc k m'
  end.

(** Python truthiness. *)
Definition truthy (v : yaml) : bool :=
  match v with
  | YNull => false
  | YBool b => b
  | YInt z => negb (Z.eqb z 0)
  | YStr s => negb (String.eqb s "")
  | YSeq l => match l with [] => false | _ => true end
  | YMap m => match m with [] => false | _ => true end
  end.

(** ** Exceptions *)

Inductive exn : Type :=
| NameError (name : string)
| AttributeError (attr : string)
| KeyError (key : string)
| TypeError
| FileNotFoundError (path : string)
| FileExistsError (path : string)
| IsADirectoryError (path : string)
| OSError (path : string)
| CalledProcessError (cmd : list string)
| YAMLError
| TemplateError (name : string)
| CryptoError (path : string)
| SystemExit (code : Z).

Inductive outcome (A : Type) : Type :=
| Ok (a : A)
| Raise (e : exn).
Arguments Ok {A} a.
Arguments Raise {A} e.

(** ** The [Service] class *)

Module Service.

Record t : Type := mk {
  name : string;
  start : list string;
  stop : list string;
  quadlets : list string;
  crontab : string;
  backups : list string;
  secret_files : list string;
  deployed : bool;
  selected : bool
}.

(** [service.deployed = b]. *)
Definition set_deployed (b : bool) (s : t) : t :=
  mk (name s) (start s) (stop s) (quadlets s) (crontab s)
     (backups s) (secret_files s) b (selected s).

(** [service.selected = b]. *)
Definition set_selected (b : bool) (s : t) : t :=
  mk (name s) (start s) (stop s) (quadlets s) (crontab s)
     (backups s) (secret_files s) (deployed s) b.

End Service.

(** ** The world a command runs in *)

(** What can sit at a path. *)
Inductive Node : Type :=
| File (content : string)
| Link (target : string)
| Dir.

(** Operations the script performs on its surroundings, in the order they
    happen: child processes (with the environment they inherit and whether
    they exited with status 0) and changes to links. *)
Inductive Event : Type :=
| Exec (cmd : list string) (env : gmap string string) (ok : bool)
| Symlinked (source destination : string)
| Removed (path : string).

Record World : Type := mkWorld {
  services : list Service.t;        (* args.services *)
  arg_file : string;                (* args.file *)
  verbose : bool;                   (* _verbose *)
  environ : gmap string string;     (* os.environ *)
  pw_dir : string;                  (* home directory of the password database *)
  cwd : string;                     (* os.getcwd() *)
  fs : gmap string Node;            (* local files, links and directories, by path as spelled *)
  mounts : gset string;             (* directories the bucket is mounted on *)
  bucket : gmap string string;      (* objects of the remote bucket, by key *)
  cron_table : string;              (* the user's installed crontab *)
  tmp_next : nat;                   (* next name handed out by tempfile *)
  trace : list Event;
  stdout : list string              (* lines printed *)
}.

Definition set_services (x : list Service.t) (w : World) : World :=
  mkWorld x (arg_file w) (verbose w) (environ w) (pw_dir w) (cwd w) (fs w)
          (mounts w) (bucket w) (cron_table w) (tmp_next w) (trace w) (stdout w).
Definition set_arg_file (x : string) (w : World) : World :=
  mkWorld (services w) x (verbose w) (environ w) (pw_dir w) (cwd w) (fs w)
          (mounts w) (bucket w) (cron_table w) (tmp_next w) (trace w) (stdout w).
Definition set_verbose (x : bool) (w : World) : World :=
  mkWorld (services w) (arg_file w) x (environ w) (pw_dir w) (cwd w) (fs w)
          (mounts w) (bucket w) (cron_table w) (tmp_next w) (trace w) (stdout w).
Definition set_environ (x : gmap string string) (w : World) : World :=
  mkWorld (services w) (arg_file w) (verbose w) x (pw_dir w) (cwd w) (fs w)
          (mounts w) (bucket w) (cron_table w) (tmp_next w) (trace w) (stdout w).
Definition set_fs (x : gmap string Node) (w : World) : World :=
  mkWorld (services w) (arg_file w) (verbose w) (environ w) (pw_dir w) (cwd w) x
          (mounts w) (bucket w) (cron_table w) (tmp_next w) (trace w) (stdout w).
Definition set_mounts (x : gset string) (w : World) : World :=
  mkWorld (services w) (arg_file w) (verbose w) (environ w) (pw_dir w) (cwd w) (fs w)
          x (bucket w) (cron_table w) (tmp_next w) (trace w) (stdout w).
Definition set_cron_table (x : string) (w : World) : World :=
  mkWorld (services w) (arg_file w) (verbose w) (environ w) (pw_dir w) (cwd w) (fs w)
          (mounts w) (bucket w) x (tmp_next w) (trace w) (stdout w).
Definition set_tmp_next (x : nat) (w : World) : World :=
  mkWorld (services w) (arg_file w) (verbose w) (environ w) (pw_dir w) (cwd w) (fs w)
          (mounts w) (bucket w) (cron_table w) x (trace w) (stdout w).
Definition set_trace (x : list Event) (w : World) : World :=
  mkWorld (services w) (arg_file w) (verbose w) (environ w) (pw_dir w) (cwd w) (fs w)
          (mounts w) (bucket w) (cron_table w) (tmp_next w) x (stdout w).
Definition set_stdout (x : list string) (w : World) : World :=
  mkWorld (services w) (arg_file w) (verbose w) (environ w) (pw_dir w) (cwd w) (fs w)
          (mounts w) (bucket w) (cron_table w) (tmp_next w) (trace w) x.

Definition log_event (ev : Event) (w : World) : World :=
  set_trace (trace w ++ [ev]) w.

(** ** The monad of statements *)

Definition Py (A : Type) : Type := World → outcome A * World.

Definition ret {A} (a : A) : Py A := λ w, (Ok a, w).

Definition raise {A} (e : exn) : Py A := λ w, (Raise e, w).

Definition bind {A B} (m : Py A) (k : A → Py B) : Py B :=
  λ w, match m w with
       | (Ok a, w') => k a w'
       | (Raise e, w') => (Raise e, w')
       end.

Declare Scope py_scope.
Delimit Scope py_scope with py.
Notation "x <- m ;; k" := (bind m (λ x, k))
  (at level 100, m at next level, right associativity) : py_scope.
Notation "m ;; k" := (bind m (λ _, k))
  (at level 100, right associativity) : py_scope.
Open Scope py_scope.

Definition get : Py World := λ w, (Ok w, w).
Definition modify (f : World → World) : Py unit := λ w, (Ok tt, f w).

(** A [for] loop over a list. *)
Fixpoint for_each {A} (xs : list A) (body : A → Py unit) : Py unit :=
  match xs with
  | [] => ret tt
  | x :: xs' => body x ;; for_each xs' body
  end.

(** A [for] loop that updates local variables [acc]. *)
Fixpoint fold_each {A B} (xs : list A) (acc : B) (body : B → A → Py B) : Py B :=
  match xs with
  | [] => ret acc
  | x :: xs' => acc' <- body acc x ;; fold_each xs' acc' body
  end.

(** [for service in args.services] where the body changes the object it
    visits: the body receives the position and the object as it is when
    the iteration starts. *)
Definition at_service (body : nat → Service.t → Py unit) (i : nat) : Py unit :=
  w <- get ;;
  match services w !! i with
  | Some s => body i s
  | None => ret tt
  end.

Definition for_services_at (body : nat → Service.t → Py unit) : Py unit :=
  w <- get ;;
  for_each (seq 0 (length (services w))) (at_service body).

(** [for service in args.services] where the body leaves the objects alone. *)
Definition for_services (body : Service.t → Py unit) : Py unit :=
  w <- get ;; for_each (services w) body.

(** Leaving a [with] block: [release] runs on every exit. *)
Definition with_release {A} (body : Py A) (release : World → World) : Py A :=
  λ w, let '(r, w') := body w in (r, release w').

(** ** Files *)

(** The node seen at a path: a local node, or an object of the bucket
    below a directory it is mounted on. *)
Definition mounted_object (w : World) (p : string) : option string :=
  head (omap (λ mp, k ← Path.strip_prefix (mp ++ "/") p; bucket w !! k)
             (elements (mounts w))).

Definition node_at (w : World) (p : string) : option Node :=
  match fs w !! p with
  | Some n => Some n
  | None => File <$> mounted_object w p
  end.

(** [os.path.dirname]. *)
Definition dirname (p : string) : string :=
  let b := Path.basename p in
  let head := String.substring 0 (String.length p - String.length b) p in
  let stripped := Path.rstrip_slash head in
  if String.eqb stripped "" then head else stripped.

(** Following symbolic links, at most [fuel] of them. *)
Fixpoint realpath (fuel : nat) (w : World) (p : string) : outcome string :=
  match node_at w p with
  | Some (Link t) =>
      match fuel with
      | O => Raise (OSError p)
      | S fuel' => realpath fuel' w (Path.join (dirname p) t)
      end
  | _ => Ok p
  end.

Definition max_links : nat := 40.

(** [open(p, "r")] followed by [read()]. *)
Definition read_file (p : string) : Py string :=
  λ w, match realpath max_links w p with
       | Raise e => (Raise e, w)
       | Ok q =>
           match node_at w q with
           | Some (File c) => (Ok c, w)
           | Some Dir => (Raise (IsADirectoryError p), w)
           | _ => (Raise (FileNotFoundError p), w)
           end
       end.

(** [open(p, "w")], a [write] of the whole content, and [close]. *)
Definition write_file (p content : string) : Py unit :=
  λ w, match realpath max_links w p with
       | Raise e => (Raise e, w)
       | Ok q =>
           match node_at w q with
           | Some Dir => (Raise (IsADirectoryError p), w)
           | _ => (Ok tt, set_fs (<[q := File content]> (fs w)) w)
           end
       end.

(** [os.symlink(src, dst)]. *)
Definition os_symlink (src dst : string) : Py unit :=
  λ w, match node_at w dst with
       | Some _ => (Raise (FileExistsError dst), w)
       | None => (Ok tt, log_event (Symlinked src dst) (set_fs (<[dst := Link src]> (fs w)) w))
       end.

(** [os.remove(p)]. *)
Definition os_remove (p : string) : Py unit :=
  λ w, match fs w !! p with
       | Some Dir => (Raise (IsADirectoryError p), w)
       | Some _ => (Ok tt, log_event (Removed p) (set_fs (delete p (fs w)) w))
       | None => (Raise (FileNotFoundError p), w)
       end.

Definition dir_is_empty (w : World) (d : string) : bool :=
  bool_decide (filter (λ kv, Path.below d kv.1 = true) (fs w) = ∅).

(** [os.rmdir(d)]. *)
Definition os_rmdir (d : string) : Py unit :=
  λ w, match fs w !! d with
       | Some Dir =>
           if bool_decide (d ∈ mounts w) then (Raise (OSError d), w)
           else if dir_is_empty w d then (Ok tt, set_fs (delete d (fs w)) w)
           else (Raise (OSError d), w)
       | Some _ => (Raise (OSError d), w)
       | None => (Raise (FileNotFoundError d), w)
       end.

(** *** [tempfile] *)

Definition tmp_name (n : nat) : string := "/tmp/tmp" ++ pretty n.

(** A new node under a name not in use; [tempfile] gives up with
    [FileExistsError] when it finds no usable name. *)
Definition mktemp (n : Node) : Py string :=
  λ w, let p := tmp_name (tmp_next w) in
       match node_at w p with
       | Some _ => (Raise (FileExistsError p), w)
       | None => (Ok p, set_tmp_next (S (tmp_next w)) (set_fs (<[p := n]> (fs w)) w))
       end.

(** [tempfile.mkdtemp()]. *)
Definition mkdtemp : Py string := mktemp Dir.

(** [shutil.rmtree], as [TemporaryDirectory] does on exit. *)
Definition rmtree (d : string) (w : World) : World :=
  set_fs (delete d (filter (λ kv, Path.below d kv.1 = false) (fs w))) w.

(** Closing a [NamedTemporaryFile] deletes it. *)
Definition unlink (p : string) (w : World) : World :=
  set_fs (delete p (fs w)) w.

(** ** What lies outside the script *)

Class Externals : Type := {
  (** [subprocess.run(cmd).returncode == 0], in the world the child starts in *)
  exit_ok : World → list string → bool;
  (** [yaml.safe_load]; [None] stands for [yaml.YAMLError] *)
  yaml_safe_load : string → option yaml;
  (** [yaml.safe_dump] *)
  yaml_safe_dump : yaml → string;
  (** [env.get_template(name)] accepts the source stored under [name] *)
  jinja_compiles : string → string → bool;
  (** [template.stream(secrets=...)] of the template [name] with its source;
      [None] stands for a rendering error *)
  jinja_render : string → string → yaml → option string;
  (** [StrictAwsKmsMasterKeyProvider(key_ids=[arn])] accepts the key id *)
  kms_key_provider : yaml → bool;
  (** envelope encryption and decryption of a stream under the key: all the
      chunks of a stream that completes; [None] stands for a stream that
      raises *)
  kms_encrypt : yaml → string → option string;
  kms_decrypt : yaml → string → option string;
  (** the chunks a stream that raises had yielded before ([true] for
      encryption) *)
  kms_partial : bool → yaml → string → string;
  (** [str(v)] of a value that is not a string, as an f-string formats it *)
  format_value : yaml → string;
  (** [glob.iglob(pattern)] *)
  iglob : World → string → list string
}.

(** External process contracts: what a child process that exits with status
    0 has done to the tracked part of the world.  [crontab FILE] installs the
    content of the file as the whole table ([crontab -n FILE] only checks
    it); [s3fs ... BUCKET DIR] mounts the bucket on the directory;
    [fusermount -u DIR] unmounts it.  What [systemctl] and [rsync] change
    (units, objects of the bucket) is not tracked. *)
Definition command_effect (cmd : list string) (w : World) : World :=
  match cmd with
  | [] => w
  | prog :: args =>
      if String.eqb prog "crontab" then
        match args with
        | [file] =>
            if Path.startswith "-" file then w
            else match read_file file w with
                 | (Ok table, _) => set_cron_table table w
                 | _ => w
                 end
        | _ => w
        end
      else if String.eqb prog "s3fs" then
        match last args with
        | Some mountpoint => set_mounts ({[mountpoint]} ∪ mounts w) w
        | None => w
        end
      else if String.eqb prog "fusermount" then
        match args with
        | [flag; mountpoint] =>
            if String.eqb flag "-u" then set_mounts (mounts w ∖ {[mountpoint]}) w else w
        | _ => w
        end
      else w
  end.

(** *** Python helpers *)

(** [v[k]] on a value read from YAML. *)
Definition getitem (v : yaml) (k : string) : Py yaml :=
  match v with
  | YMap m => match assoc k m with
              | Some x => ret x
              | None => raise (KeyError k)
              end
  | _ => raise TypeError
  end.

(** [v.get(k, default)]. *)
Definition py_get (v : yaml) (k : string) (default : yaml) : Py yaml :=
  match v with
  | YMap m => ret (from_option id default (assoc k m))
  | _ => raise (AttributeError "get")
  end.

(** The value is a [str]; anything else raises [TypeError] where a string
    is required. *)
Definition as_str (v : yaml) : Py string :=
  match v with
  | YStr s => ret s
  | _ => raise TypeError
  end.

(** [d[k] = v] on a [dict]: a key keeps the place of its first insertion. *)
Fixpoint dict_set {A : Type} (k : string) (v : A) (d : list (string * A)) : list (string * A) :=
  match d with
  | [] => [(k, v)]
  | (k', v') :: d' => if String.eqb k k' then (k, v) :: d' else (k', v') :: dict_set k v d'
  end.

Definition nonempty {A : Type} (l : list A) : bool :=
  match l with [] => false | _ => true end.

Definition nonempty_str (s : string) : bool := negb (String.eqb s "").

(** [os.environ[k] = v] and [del os.environ[k]]. *)
Definition setenv (k v : string) : Py unit :=
  modify (λ w, set_environ (<[k := v]> (environ w)) w).

Definition delenv (k : string) : Py unit :=
  λ w, match environ w !! k with
       | Some _ => (Ok tt, set_environ (delete k (environ w)) w)
       | None => (Raise (KeyError k), w)
       end.

(** [os.path.expanduser]: a leading [~] alone or before a slash is the
    home directory, [$HOME] when set and the password database otherwise. *)
Definition expanduser (p : string) : Py string :=
  λ w, match p with
       | String "~" rest =>
           if (String.eqb rest "" || Path.startswith "/" rest)%bool then
             let userhome := from_option id (pw_dir w) (environ w !! "HOME") in
             let q := Path.rstrip_slash userhome ++ rest in
             (Ok (if String.eqb q "" then "/" else q), w)
           else (Ok p, w)
       | _ => (Ok p, w)
       end.

(** [file.write(s)] on a file opened for writing: the text is added at the
    end. *)
Definition append_file (p s : string) : Py unit :=
  modify (λ w, set_fs (<[p := File (match fs w !! p with
                                     | Some (File c) => c ++ s
                                     | _ => s
                                     end)]> (fs w)) w).

(** [print(line)]. *)
Definition print (line : string) : Py unit :=
  modify (λ w, set_stdout (stdout w ++ [line]) w).

(** [f"{s:<{n}}"]: [s] padded with spaces on the right up to width [n]. *)
Definition ljust (s : string) (n : nat) : string :=
  s ++ String.concat "" (replicate (n - String.length s) " ").

(** ** The script *)

Definition _CONTAINER_LINK_DIR : string := "~/.config/containers/systemd".
Definition _SECRET_CFG : string := "secrets.yml".
Definition _SERVICE_CFG : string := "services.yml".
Definition _STATE_CFG : string := ".state.yml".

(** The names bound at module level, with their value when it is a
    string.  A name used in a function without being assigned there is
    looked up here. *)
Definition module_globals : list (string * option string) :=
  [ ("argparse", None); ("glob", None); ("logging", None); ("os", None);
    ("subprocess", None); ("sys", None); ("tempfile", None);
    ("awscrypt", None); ("jinja2", None); ("yaml", None);
    ("_CONTAINER_LINK_DIR", Some _CONTAINER_LINK_DIR);
    ("_SECRET_CFG", Some _SECRET_CFG);
    ("_SERVICE_CFG", Some _SERVICE_CFG);
    ("_STATE_CFG", Some _STATE_CFG);
    ("_verbose", None); ("_logger", None); ("Service", None);
    ("write_state", None); ("run", None); ("systemctl", None);
    ("reload", None); ("start", None); ("stop", None); ("restart", None);
    ("deploy", None); ("undeploy", None); ("status", None);
    ("crontab", None); ("xcrypt", None); ("mount_bucket", None);
    ("unmount_bucket", None); ("backup", None); ("secrets", None);
    ("fetch", None); ("load_templates", None); ("load_secrets", None);
    ("load_services", None); ("make_argparser", None);
    ("parse_arguments", None); ("main", None) ].

(** Reading a global name where a path is expected. *)
Definition load_global (x : string) : Py string :=
  match assoc x module_globals with
  | Some (Some v) => ret v
  | Some None => raise TypeError
  | None => raise (NameError x)
  end.

Section Script.

Context {ext : Externals}.

(** [write_state] *)
Definition state_document (ss : list Service.t) : yaml :=
  YMap [("deployed",
         YMap (foldl (λ d s, dict_set (Service.name s) (YBool (Service.deployed s)) d) [] ss))].

Definition write_state : Py unit :=
  w <- get ;;
  write_file _STATE_CFG (yaml_safe_dump (state_document (services w))).

(** [run]: [env] is the extra environment, empty when none is given.
    [_verbose] only decides whether the child's output is shown. *)
Definition run (cmd : list string) (checked : bool) (env : gmap string string) : Py bool :=
  λ w,
    let fullenv := env ∪ environ w in
    let ok := exit_ok w cmd in
    let w1 := if ok then command_effect cmd w else w in
    let w2 := log_event (Exec cmd fullenv ok) w1 in
    if (checked && negb ok)%bool then (Raise (CalledProcessError cmd), w2)
    else (Ok ok, w2).

(** [systemctl] *)
Definition systemctl (args : list string) (checked : bool) : Py bool :=
  let cmd := (["systemctl"; "--user"] ++ args)%list in
  run cmd checked ∅.

(** [reload] *)
Definition reload : Py unit :=
  systemctl ["daemon-reload"] true ;; ret tt.

(** [start] *)
Definition start : Py unit :=
  for_services (λ service,
    if (Service.selected service && nonempty (Service.start service))%bool then
      systemctl ("start" :: Service.start service) true ;; ret tt
    else ret tt).

(** [stop] *)
Definition stop : Py unit :=
  for_services (λ service,
    if (Service.selected service && nonempty (Service.stop service))%bool then
      systemctl ("stop" :: Service.stop service) true ;; ret tt
    else ret tt).

(** [restart] *)
Definition restart : Py unit :=
  stop ;; start.

(** [crontab] *)
Definition crontab : Py unit :=
  tmpcrontab <- mktemp (File "") ;;
  with_release
    (for_services (λ service,
       if (Service.deployed service && nonempty_str (Service.crontab service))%bool then
         append_file tmpcrontab (Service.crontab service)
       else ret tt) ;;
     run ["crontab"; "-n"; tmpcrontab] true ∅ ;;
     run ["crontab"; tmpcrontab] true ∅ ;;
     ret tt)
    (unlink tmpcrontab).

(** [load_secrets] *)
Definition safe_load (text : string) : Py yaml :=
  match yaml_safe_load text with
  | Some v => ret v
  | None => raise YAMLError
  end.

Definition load_secrets : Py yaml :=
  text <- read_file _SECRET_CFG ;;
  secret_entries <- safe_load text ;;
  getitem secret_entries "secrets".

(** [load_templates]: the sources by path, then [env.get_template] on
    each name.  The result pairs each name with the source its template
    was built from. *)
Definition load_templates : Py (list (string * string)) :=
  w <- get ;;
  templates <-
    fold_each (services w) [] (λ templates service,
      if Service.deployed service then
        fold_each (Service.secret_files service) templates (λ templates path,
          let template_path := path ++ ".jinja" in
          text <- read_file template_path ;;
          ret (dict_set path text templates))
      else ret templates) ;;
  for_each templates (λ '(name, source),
    if jinja_compiles name source then ret tt else raise (TemplateError name)) ;;
  ret templates.

(** [secrets] *)
Definition secrets : Py unit :=
  secrets <- load_secrets ;;
  templates <- load_templates ;;
  for_each templates (λ '(name, template),
    write_file name "" ;;
    match jinja_render name template secrets with
    | Some text => write_file name text
    | None => raise (TemplateError name)
    end).

(** [deploy] *)
Definition mark_deployed (i : nat) (b : bool) : Py unit :=
  modify (λ w, set_services (alter (Service.set_deployed b) i (services w)) w).

Definition deploy : Py unit :=
  linkdir <- expanduser _CONTAINER_LINK_DIR ;;
  for_services_at (λ i service,
    if (Service.selected service && negb (Service.deployed service))%bool then
      for_each (Service.quadlets service) (λ quadlet,
        w <- get ;;
        let source := Path.abspath (cwd w) quadlet in
        let filename := Path.basename quadlet in
        let destination := Path.join linkdir filename in
        fullpath <- load_global "fullpath" ;;
        dst <- load_global "dst" ;;
        os_symlink fullpath dst) ;;
      mark_deployed i true
    else ret tt) ;;
  crontab ;;
  secrets ;;
  write_state ;;
  reload.

(** [undeploy] *)
Definition remove_if_present (destination : string) : Py unit :=
  λ w, match os_remove destination w with
       | (Raise (FileNotFoundError _), w') => (Ok tt, w')
       | r => r
       end.

Definition undeploy : Py unit :=
  stop ;;
  linkdir <- expanduser _CONTAINER_LINK_DIR ;;
  for_services_at (λ i service,
    if (Service.selected service && Service.deployed service)%bool then
      for_each (Service.quadlets service) (λ quadlet,
        let filename := Path.basename quadlet in
        let destination := Path.join linkdir filename in
        remove_if_present destination) ;;
      mark_deployed i false
    else ret tt) ;;
  crontab ;;
  write_state ;;
  reload.

(** [status] *)
Record Row : Type := mkRow {
  row_name : string;
  row_deployed : string;
  row_running : string
}.

(** One turn of the loop of [status]: the row of a service. *)
Definition status_row (service : Service.t) : Py Row :=
  if Service.deployed service then
    if nonempty (Service.start service) then
      active <- systemctl ("is-active" :: Service.start service) false ;;
      ret (mkRow (Service.name service) "yes" (if active then "yes" else "no"))
    else ret (mkRow (Service.name service) "yes" "yes")
  else ret (mkRow (Service.name service) "no" "no").

(** The loop of [status]: [statuses] and [longest]. *)
Definition status_rows : Py (list Row * nat) :=
  w <- get ;;
  fold_each (services w) ([], 0) (λ '(statuses, longest) service,
    row <- status_row service ;;
    ret ((statuses ++ [row])%list,
         if (longest <? String.length (Service.name service))%nat
         then String.length (Service.name service) else longest)).

Definition status : Py unit :=
  result <- status_rows ;;
  let '(statuses, longest) := result in
  print (ljust "SERVICE" longest ++ " DEPLOYED RUNNING") ;;
  for_each statuses (λ row,
    print (ljust (row_name row) longest ++ " "
           ++ ljust (row_deployed row) (String.length "DEPLOYED") ++ " "
           ++ row_running row)).

(** [xcrypt]: both files are opened, then the source is streamed through
    the cipher into the destination, chunk by chunk: a stream that raises
    leaves the chunks written so far. *)
Definition xcrypt (key : yaml) (encrypt : bool) (source dest : string) : Py unit :=
  read_file source ;;
  write_file dest "" ;;
  data <- read_file source ;;
  match (if encrypt then kms_encrypt key data else kms_decrypt key data) with
  | Some out => write_file dest out
  | None => write_file dest (kms_partial encrypt key data) ;;
            raise (CryptoError source)
  end.

(** [f"{v}"] *)
Definition py_str (v : yaml) : string :=
  match v with
  | YStr s => s
  | _ => format_value v
  end.

(** [mount_bucket]: the two arguments are what the caller found in the
    secrets.  The region is formatted into two options; the bucket is an
    element of [cmd] as it is, and [run] joins the elements of [cmd], which
    raises [TypeError] on one that is not a string. *)
Definition mount_bucket (bucket region : yaml) : Py string :=
  mountpoint <- mkdtemp ;;
  w <- get ;;
  let options := (["s3fs"; "-o"; "use_sse"; "-o"; ("endpoint=" ++ py_str region)%string;
                   "-o"; ("url=https://s3." ++ py_str region ++ ".amazonaws.com")%string]
                  ++ (if verbose w then ["-o"; "dbglevel=info"; "-o"; "curldbg"] else []))%list in
  bucket <- as_str bucket ;;
  run (options ++ [bucket; mountpoint])%list true ∅ ;;
  ret mountpoint.

(** [unmount_bucket] *)
Definition unmount_bucket (mountpoint : string) : Py unit :=
  let cmd := ["fusermount"; "-u"; mountpoint] in
  run cmd true ∅ ;;
  os_rmdir mountpoint.

(** [secrets[a][b][c]] *)
Definition subscript (secrets : yaml) (a b c : string) : Py yaml :=
  x <- getitem secrets a ;;
  y <- getitem x b ;;
  getitem y c.

(** [os.environ[k] = secrets[a][b][c]]: the value has to be a string. *)
Definition setting (secrets : yaml) (a b c : string) : Py string :=
  x <- getitem secrets a ;;
  y <- getitem x b ;;
  z <- getitem y c ;;
  as_str z.

Definition key_provider (secrets : yaml) : Py yaml :=
  x <- getitem secrets "services" ;;
  y <- getitem x "backup" ;;
  arn <- getitem y "key_arn" ;;
  if kms_key_provider arn then ret arn else raise (CryptoError "").

(** [backup] *)
Definition backup : Py unit :=
  secrets <- load_secrets ;;
  access_key <- setting secrets "apis" "aws" "key" ;;
  setenv "AWS_ACCESS_KEY_ID" access_key ;;
  secret_key <- setting secrets "apis" "aws" "secret" ;;
  setenv "AWS_SECRET_ACCESS_KEY" secret_key ;;
  key <- key_provider secrets ;;
  bucket <- subscript secrets "services" "backup" "bucket" ;;
  region <- subscript secrets "services" "backup" "region" ;;
  mountpoint <- mount_bucket bucket region ;;
  for_services (λ service,
    if (Service.deployed service && nonempty (Service.backups service))%bool then
      tmpdir <- mkdtemp ;;
      with_release
        (for_each (Service.backups service) (λ pattern,
           w <- get ;;
           for_each (iglob w pattern) (λ source,
             let dest := Path.join tmpdir (Path.basename source) in
             xcrypt key true source dest)) ;;
         w <- get ;;
         let cmd := (["rsync"; "--recursive"; "--delete-during"; "--whole-file"; "--fsync"]
                     ++ (if verbose w then ["--verbose"] else [])
                     ++ [(tmpdir ++ "/")%string; Path.join mountpoint (Service.name service)])%list in
         run cmd true ∅ ;;
         ret tt)
        (rmtree tmpdir)
    else ret tt) ;;
  unmount_bucket mountpoint ;;
  delenv "AWS_ACCESS_KEY_ID" ;;
  delenv "AWS_SECRET_ACCESS_KEY".

(** [fetch] *)
Definition fetch : Py unit :=
  secrets <- load_secrets ;;
  access_key <- setting secrets "apis" "aws" "key" ;;
  setenv "AWS_ACCESS_KEY_ID" access_key ;;
  secret_key <- setting secrets "apis" "aws" "secret" ;;
  setenv "AWS_SECRET_ACCESS_KEY" secret_key ;;
  key <- key_provider secrets ;;
  bucket <- subscript secrets "services" "backup" "bucket" ;;
  region <- subscript secrets "services" "backup" "region" ;;
  mountpoint <- mount_bucket bucket region ;;
  for_services (λ service,
    if Service.selected service then
      w <- get ;;
      let source := Path.join (Path.join mountpoint (Service.name service)) (arg_file w) in
      let dest := arg_file w in
      xcrypt key false source dest
    else ret tt) ;;
  unmount_bucket mountpoint ;;
  delenv "AWS_ACCESS_KEY_ID" ;;
  delenv "AWS_SECRET_ACCESS_KEY".

(** [Service.__init__].  The attributes are read at the types the
    script uses them at: sequences of strings, a string for [crontab], a
    truth value for [deployed]; a value of another shape is read as the
    empty default. *)
Definition str_list (v : yaml) : list string :=
  match v with
  | YSeq l => omap (λ x, match x with YStr s => Some s | _ => None end) l
  | _ => []
  end.

Definition str_value (v : yaml) : string :=
  match v with
  | YStr s => s
  | _ => ""
  end.

Definition Service_init (name : string) (properties deployed : yaml) : Py Service.t :=
  start <- py_get properties "start" (YSeq []) ;;
  stop <- py_get properties "stop" (YSeq []) ;;
  quadlets <- py_get properties "quadlets" (YSeq []) ;;
  crontab <- py_get properties "crontab" (YStr "") ;;
  backups <- py_get properties "backups" (YSeq []) ;;
  secret_files <- py_get properties "secretfiles" (YSeq []) ;;
  ret (Service.mk name (str_list start) (str_list stop) (str_list quadlets)
                  (str_value crontab) (str_list backups) (str_list secret_files)
                  (truthy deployed) false).

(** [for s in services]: the keys of a mapping; an empty sequence or
    string has nothing to visit; any other value ends in an exception
    (at the loop or at [services[s]]). *)
Definition keys (v : yaml) : Py (list string) :=
  match v with
  | YMap m => ret (map fst m)
  | YSeq [] => ret []
  | YStr "" => ret []
  | _ => raise TypeError
  end.

(** [load_services] *)
Definition load_state : Py yaml :=
  λ w, match read_file _STATE_CFG w with
       | (Ok text, w') => safe_load text w'
       | (Raise (FileNotFoundError _), w') => (Ok (YMap []), w')
       | (Raise e, w') => (Raise e, w')
       end.

Definition load_services : Py (list Service.t) :=
  text <- read_file _SERVICE_CFG ;;
  service_entries <- safe_load text ;;
  services <- py_get service_entries "services" (YMap []) ;;
  state <- load_state ;;
  deployed <- py_get state "deployed" (YMap []) ;;
  names <- keys services ;;
  fold_each names [] (λ result s,
    properties <- getitem services s ;;
    flag <- py_get deployed s (YBool false) ;;
    service <- Service_init s properties flag ;;
    ret (result ++ [service])%list).

(** ** The command line *)

Inductive Command : Type :=
| CmdReload | CmdStatus | CmdStart | CmdStop | CmdRestart | CmdDeploy
| CmdUndeploy | CmdCrontab | CmdBackup | CmdSecrets | CmdFetch.

(** What [parser.parse_args()] is given: the verbose flag, the
    subcommand, its [service] arguments and its [file] argument. *)
Record CommandLine : Type := mkCommandLine {
  opt_verbose : bool;
  command : Command;
  service_args : list string;
  file_arg : string
}.

(** [set_defaults(func=...)] of each subparser. *)
Definition func (c : Command) : Py unit :=
  match c with
  | CmdReload => reload
  | CmdStatus => status
  | CmdStart => start
  | CmdStop => stop
  | CmdRestart => restart
  | CmdDeploy => deploy
  | CmdUndeploy => undeploy
  | CmdCrontab => crontab
  | CmdBackup => backup
  | CmdSecrets => secrets
  | CmdFetch => fetch
  end.

Definition is_choice (choices : list string) (x : string) : bool :=
  bool_decide (x ∈ choices).

(** [make_argparser]: which [service] arguments a subcommand accepts
    ([nargs="+"], one, or none), each among the configured names. *)
Definition accepts (c : Command) (choices given : list string) : bool :=
  match c with
  | CmdStart | CmdStop | CmdRestart | CmdDeploy | CmdUndeploy =>
      nonempty given && forallb (is_choice choices) given
  | CmdFetch =>
      bool_decide (length given = 1) && forallb (is_choice choices) given
  | _ => bool_decide (given = [])
  end.

(** [parse_arguments]: argparse exits with status 2 on a rejected
    command line; the services named on it become selected. *)
Definition parse_arguments (cl : CommandLine) (services : list Service.t) : Py unit :=
  if accepts (command cl) (map Service.name services) (service_args cl) then
    modify (set_verbose (opt_verbose cl)) ;;
    modify (set_arg_file (file_arg cl)) ;;
    modify (set_services
              (map (λ service,
                      if is_choice (service_args cl) (Service.name service)
                      then Service.set_selected true service else service)
                   services))
  else raise (SystemExit 2).

(** [main] *)
Definition main (cl : CommandLine) : Py unit :=
  services <- load_services ;;
  parse_arguments cl services ;;
  func (command cl) ;;
  raise (SystemExit 0).

End Script.

(** * Sample installations

    A small installation used to run the script: two services, a secrets
    file, and collaborators that can be told which child processes fail. *)

Module Sample.

Definition secrets_tree : yaml :=
  YMap [("apis", YMap [("aws", YMap [("key", YStr "AKIAEXAMPLE"); ("secret", YStr "hunter2")])]);
        ("services", YMap [("backup", YMap [("key_arn", YStr "arn:aws:kms:eu-west-1:1:key/k");
                                            ("bucket", YStr "vaire-backups");
                                            ("region", YStr "eu-west-1")])])].

Definition configured : list (string * yaml) :=
  [("web", YMap [("start", YSeq [YStr "web.service"]);
                 ("stop", YSeq [YStr "web.service"]);
                 ("quadlets", YSeq [YStr "units/web.container"]);
                 ("crontab", YStr "0 3 * * * web-rotate")]);
   ("batch", YMap [("crontab", YStr "30 4 * * * batch-run")])].

Definition services_entries : list (string * yaml) :=
  [("services", YMap configured)].

Definition services_document : yaml := YMap services_entries.

(** The reader knows three documents, by their text. *)
Definition load (text : string) : option yaml :=
  if String.eqb text "" then Some YNull
  else if String.eqb text "SECRETS" then Some (YMap [("secrets", secrets_tree)])
  else if String.eqb text "SERVICES" then Some services_document
  else None.

Definition dump (v : yaml) : string :=
  match v with
  | YMap [(k, YMap m)] =>
      k ++ ":" ++ String.concat ""
        (map (λ kv, "
  " ++ kv.1 ++ ": " ++ (if truthy kv.2 then "true" else "false")) m)
  | _ => ""
  end.

(** Collaborators whose child processes fail exactly when [fails] says so. *)
Definition collaborators (fails : list string → bool) : Externals :=
  {| exit_ok := λ _ cmd, negb (fails cmd);
     yaml_safe_load := load;
     yaml_safe_dump := dump;
     jinja_compiles := λ _ _, true;
     jinja_render := λ _ source _, Some source;
     kms_key_provider := λ _, true;
     kms_encrypt := λ _ data, Some ("enc:" ++ data);
     kms_decrypt := λ _ data, Path.strip_prefix "enc:" data;
     kms_partial := λ _ _ _, "";
     format_value := λ _, "";
     iglob := λ w pattern, if bool_decide (is_Some (fs w !! pattern)) then [pattern] else [] |}.

Definition all_succeed : Externals := collaborators (λ _, false).

(** The child process whose first word is [prog] fails. *)
Definition program_fails (prog : string) : Externals :=
  collaborators (λ cmd, bool_decide (head cmd = Some prog)).

(** [systemctl --user stop ...] fails. *)
Definition stop_fails : Externals :=
  collaborators (λ cmd, bool_decide (cmd !! 2%nat = Some "stop")).

Definition web : Service.t :=
  Service.mk "web" ["web.service"] ["web.service"] ["units/web.container"]
             "0 3 * * * web-rotate
" ["/srv/web/data.db"] ["web.env"] false false.

Definition batch : Service.t :=
  Service.mk "batch" [] [] [] "30 4 * * * batch-run
" [] [] false false.

Definition select (s : Service.t) : Service.t := Service.set_selected true s.
Definition deployed (s : Service.t) : Service.t := Service.set_deployed true s.

Definition files : gmap string Node :=
  <["secrets.yml" := File "SECRETS"]>
    (<["services.yml" := File "SERVICES"]>
       (<["web.env.jinja" := File "KEY={{ secrets.apis.aws.key }}"]>
          (<["/srv/web/data.db" := File "rows"]> ∅))).

(** The same files without the template of [web.env]. *)
Definition files_without_template : gmap string Node :=
  delete "web.env.jinja" files.

(** A world with the given services and local files. *)
Definition world (ss : list Service.t) (nodes : gmap string Node) : World :=
  mkWorld ss "report.txt" false (<["HOME" := "/home/vaire"]> ∅) "/home/vaire"
          "/srv/vaire-cfg" nodes ∅ (<["web/report.txt" := "enc:quarterly"]> ∅)
          "" 0 [] [].

End Sample.

(** * Vocabulary of the properties *)

Open Scope list_scope.

(** ** Relations between the world before and after a statement *)

(** [steps R m]: every run of [m], whether it returns or raises, takes a
    world to one related to it by [R]. *)
Definition steps {A} (R : relation World) (m : Py A) : Prop :=
  ∀ w r w', m w = (r, w') → R w w'.

(** [keeps proj]: the component [proj] of the world is left as it was. *)
Definition keeps {X} (proj : World → X) : relation World :=
  λ w w', proj w' = proj w.

(** [unchanged]: the world is left as it was. *)
Definition unchanged : relation World := λ w w', w' = w.

(** [emits P]: the trace grows by events that satisfy [P]. *)
Definition emits (P : Event → Prop) : relation World :=
  λ w w', ∃ evs, trace w' = trace w ++ evs ∧ Forall P evs.

(** The child processes of a run all started in the environment [env]. *)
Definition inherits (env : gmap string string) : relation World :=
  λ w w', environ w = env → environ w' = env ∧
          ∃ evs, trace w' = trace w ++ evs ∧
                 Forall (λ ev, ∀ cmd env' ok, ev = Exec cmd env' ok → env' = env) evs.

(** A turn of the loop changes no service object but the one it visits. *)
Definition keeps_services_from (k : nat) : relation World :=
  λ w w', length (services w') = length (services w) ∧
          drop k (services w') = drop k (services w).

(** A service that is already deployed is left alone by [deploy]: its
    object is the same afterwards, however the run ends. *)
Definition leaves_service (i : nat) : relation World :=
  λ w w', ∀ s, services w !! i = Some s → Service.deployed s = true →
               services w' !! i = Some s.

(** ** Events *)

Definition is_exec (ev : Event) : Prop := ∃ cmd env ok, ev = Exec cmd env ok.

Definition is_stop_command (ev : Event) : Prop :=
  ∃ targets env ok, ev = Exec (["systemctl"; "--user"; "stop"] ++ targets) env ok.

Definition is_start_command (ev : Event) : Prop :=
  ∃ targets env ok, ev = Exec (["systemctl"; "--user"; "start"] ++ targets) env ok.

(** A child process that touches the installed table. *)
Definition is_crontab_command (ev : Event) : Prop :=
  ∃ args env ok, ev = Exec ("crontab" :: args) env ok.

(** A child process that unmounts. *)
Definition is_unmount_command (ev : Event) : Prop :=
  ∃ args env ok, ev = Exec ("fusermount" :: args) env ok.

(** ** What [status] prints *)

Definition yes_no (b : bool) : string := if b then "yes" else "no".

(** What [status] prints. *)
Definition header_line (longest : nat) : string :=
  (ljust "SERVICE" longest ++ " DEPLOYED RUNNING")%string.

Definition row_line (longest : nat) (row : Row) : string :=
  (ljust (row_name row) longest ++ " " ++ ljust (row_deployed row) 8 ++ " "
   ++ row_running row)%string.

(** The row of a service agrees with its [deployed] flag; a service that
    is not deployed is not running, one that is deployed and has no start
    target is. *)
Definition reported (s : Service.t) (row : Row) : Prop :=
  row_name row = Service.name s ∧
  row_deployed row = yes_no (Service.deployed s) ∧
  (row_running row = "yes" ∨ row_running row = "no") ∧
  (Service.deployed s = false → row_running row = "no") ∧
  (Service.deployed s = true → Service.start s = [] → row_running row = "yes").

(** The child processes [status] runs for a service and the row it gets:
    none unless the service is deployed and has start targets, and then one
    [is-active] query whose exit status is what the row says. *)
Definition query_events (env : gmap string string) (s : Service.t) (row : Row) : list Event :=
  if (Service.deployed s && nonempty (Service.start s))%bool
  then [Exec (["systemctl"; "--user"; "is-active"] ++ Service.start s) env
             (bool_decide (row_running row = "yes"))]
  else [].

(** ** The loops of [deploy], [backup] and [fetch], by name *)

(** The activation directory [deploy] and [undeploy] compute. *)
Definition link_dir (w : World) : string :=
  (Path.rstrip_slash (from_option id (pw_dir w) (environ w !! "HOME"))
   ++ "/.config/containers/systemd")%string.

(** The inner loop of [deploy], over the quadlets of one service. *)
Definition link_quadlets (linkdir : string) (service : Service.t) : Py unit :=
  for_each (Service.quadlets service) (λ quadlet,
    w <- get ;;
    let source := Path.abspath (cwd w) quadlet in
    let filename := Path.basename quadlet in
    let destination := Path.join linkdir filename in
    fullpath <- load_global "fullpath" ;;
    dst <- load_global "dst" ;;
    os_symlink fullpath dst).

(** One turn of the outer loop of [deploy]. *)
Definition deploy_service (linkdir : string) (i : nat) (service : Service.t) : Py unit :=
  if (Service.selected service && negb (Service.deployed service))%bool then
    link_quadlets linkdir service ;;
    mark_deployed i true
  else ret tt.

(** What [backup] and [fetch] share: everything but the loop over the
    services, [work]. *)
Definition pipeline {ext : Externals} (work : yaml → string → Py unit) : Py unit :=
  secrets <- load_secrets ;;
  access_key <- setting secrets "apis" "aws" "key" ;;
  setenv "AWS_ACCESS_KEY_ID" access_key ;;
  secret_key <- setting secrets "apis" "aws" "secret" ;;
  setenv "AWS_SECRET_ACCESS_KEY" secret_key ;;
  key <- key_provider secrets ;;
  bucket <- subscript secrets "services" "backup" "bucket" ;;
  region <- subscript secrets "services" "backup" "region" ;;
  mountpoint <- mount_bucket bucket region ;;
  work key mountpoint ;;
  unmount_bucket mountpoint ;;
  delenv "AWS_ACCESS_KEY_ID" ;;
  delenv "AWS_SECRET_ACCESS_KEY".

(** What [backup] and [fetch] do up to and including the mount; they go on
    with the key provider and the mount point. *)
Definition mount_stage {ext : Externals} : Py (yaml * string) :=
  secrets <- load_secrets ;;
  access_key <- setting secrets "apis" "aws" "key" ;;
  setenv "AWS_ACCESS_KEY_ID" access_key ;;
  secret_key <- setting secrets "apis" "aws" "secret" ;;
  setenv "AWS_SECRET_ACCESS_KEY" secret_key ;;
  key <- key_provider secrets ;;
  bucket <- subscript secrets "services" "backup" "bucket" ;;
  region <- subscript secrets "services" "backup" "region" ;;
  mountpoint <- mount_bucket bucket region ;;
  ret (key, mountpoint).

(** The loop of [backup]. *)
Definition backup_work {ext : Externals} (key : yaml) (mountpoint : string) : Py unit :=
  for_services (λ service,
    if (Service.deployed service && nonempty (Service.backups service))%bool then
      tmpdir <- mkdtemp ;;
      with_release
        (for_each (Service.backups service) (λ pattern,
           w <- get ;;
           for_each (iglob w pattern) (λ source,
             let dest := Path.join tmpdir (Path.basename source) in
             xcrypt key true source dest)) ;;
         w <- get ;;
         let cmd := ["rsync"; "--recursive"; "--delete-during"; "--whole-file"; "--fsync"]
                    ++ (if verbose w then ["--verbose"] else [])
                    ++ [(tmpdir ++ "/")%string; Path.join mountpoint (Service.name service)] in
         run cmd true ∅ ;;
         ret tt)
        (rmtree tmpdir)
    else ret tt).

(** The loop of [fetch]. *)
Definition fetch_work {ext : Externals} (key : yaml) (mountpoint : string) : Py unit :=
  for_services (λ service,
    if Service.selected service then
      w <- get ;;
      let source := Path.join (Path.join mountpoint (Service.name service)) (arg_file w) in
      let dest := arg_file w in
      xcrypt key false source dest
    else ret tt).

(** ** The table the configuration asks for *)

(** The table the configuration asks for: the [crontab] entries of the
    deployed services that have one, in configuration order. *)
Definition job_table (ss : list Service.t) : string :=
  String.concat ""
    (map Service.crontab
       (List.filter (λ s, Service.deployed s && nonempty_str (Service.crontab s))%bool ss)).

(** ** Start and stop, service by service *)

(** The services [start] (resp. [stop]) has a command for: the selected
    ones with at least one start (resp. stop) target. *)
Definition to_start (ss : list Service.t) : list Service.t :=
  List.filter (λ s, Service.selected s && nonempty (Service.start s))%bool ss.

Definition to_stop (ss : list Service.t) : list Service.t :=
  List.filter (λ s, Service.selected s && nonempty (Service.stop s))%bool ss.

(** The one child process of a service: all its targets in one command. *)
Definition start_command (s : Service.t) : list string :=
  ["systemctl"; "--user"; "start"] ++ Service.start s.

Definition stop_command (s : Service.t) : list string :=
  ["systemctl"; "--user"; "stop"] ++ Service.stop s.

(** ** The flags after [deploy] and [undeploy] *)

Definition after_deploy (s : Service.t) : Service.t :=
  if (Service.selected s && negb (Service.deployed s))%bool
  then Service.set_deployed true s else s.

Definition after_undeploy (s : Service.t) : Service.t :=
  if (Service.selected s && Service.deployed s)%bool
  then Service.set_deployed false s else s.

(** ** The loops of [undeploy], by name *)

(** Where the link of a quadlet lives. *)
Definition link_path (linkdir quadlet : string) : string :=
  Path.join linkdir (Path.basename quadlet).

(** The inner loop of [undeploy], over the quadlets of one service. *)
Definition unlink_quadlets (linkdir : string) (service : Service.t) : Py unit :=
  for_each (Service.quadlets service) (λ quadlet,
    let filename := Path.basename quadlet in
    let destination := Path.join linkdir filename in
    remove_if_present destination).

(** One turn of the outer loop of [undeploy]. *)
Definition undeploy_service (linkdir : string) (i : nat) (service : Service.t) : Py unit :=
  if (Service.selected service && Service.deployed service)%bool then
    unlink_quadlets linkdir service ;;
    mark_deployed i false
  else ret tt.

(** ** Files *)

(** Nothing or a regular file is seen at the path: no link to follow, no
    directory in the way. *)
Definition plain (w : World) (p : string) : Prop :=
  node_at w p = None ∨ ∃ c, node_at w p = Some (File c).

(** Only the node at [p] may differ. *)
Definition same_but (p : string) : relation World :=
  λ w w', delete p (fs w') = delete p (fs w).

(** ** The state document *)

(** The flag [load_services] gives the service [n] from the mapping under
    [deployed]. *)
Definition recorded (d : list (string * yaml)) (n : string) : bool :=
  truthy (from_option id (YBool false) (assoc n d)).

(** The service a name stands for in the state mapping: a later service
    of the same name overwrites the entry of an earlier one. *)
Definition last_named (n : string) (ss : list Service.t) : option Service.t :=
  last (List.filter (λ s, String.eqb (Service.name s) n) ss).

Definition flag_of (n : string) (ss : list Service.t) : bool :=
  from_option Service.deployed false (last_named n ss).

Definition mapping (v : yaml) : bool :=
  match v with YMap _ => true | _ => false end.

(** A YAML library that writes one text, and reads it back as [doc]. *)
Definition reads_back (doc : yaml) : Externals :=
  {| exit_ok := λ _ _, true;
     yaml_safe_load := λ text, if String.eqb text "STATE" then Some doc else Sample.load text;
     yaml_safe_dump := λ _, "STATE";
     jinja_compiles := λ _ _, true;
     jinja_render := λ _ source _, Some source;
     kms_key_provider := λ _, true;
     kms_encrypt := λ _ data, Some data;
     kms_decrypt := λ _ data, Some data;
     kms_partial := λ _ _ _, "";
     format_value := λ _, "";
     iglob := λ _ _, [] |}.

(** A cipher whose streams raise after they yielded [yielded]. *)
Definition stream_breaks (yielded : string) : Externals :=
  {| exit_ok := λ _ _, true;
     yaml_safe_load := Sample.load;
     yaml_safe_dump := Sample.dump;
     jinja_compiles := λ _ _, true;
     jinja_render := λ _ source _, Some source;
     kms_key_provider := λ _, true;
     kms_encrypt := λ _ _, None;
     kms_decrypt := λ _ _, None;
     kms_partial := λ _ _ _, yielded;
     format_value := λ _, "";
     iglob := λ _ _, [] |}.

(** * Properties *)


(** ** Reasoning about statements *)

Lemma bind_inv {A B} (m : Py A) (k : A → Py B) w r w' :
  bind m k w = (r, w') →
  (∃ a w1, m w = (Ok a, w1) ∧ k a w1 = (r, w')) ∨
  (∃ e, m w = (Raise e, w') ∧ r = Raise e).
Proof.
  unfold bind. destruct (m w) as [[a|e] w1]; intros Hk.
  - left. eauto.
  - right. exists e. by simplify_eq.
Qed.

Lemma bind_ok {A B} (m : Py A) (k : A → Py B) w a w1 :
  m w = (Ok a, w1) → bind m k w = k a w1.
Proof. unfold bind. by intros ->. Qed.

Lemma bind_raise {A B} (m : Py A) (k : A → Py B) w e w1 :
  m w = (Raise e, w1) → bind m k w = (Raise e, w1).
Proof. unfold bind. by intros ->. Qed.

Lemma for_each_app {A} (xs ys : list A) body w :
  for_each (xs ++ ys) body w = (for_each xs body ;; for_each ys body) w.
Proof.
  revert w. induction xs as [|x xs IH]; intros w; simpl; [done|].
  unfold bind in *. destruct (body x w) as [[[]|e] w1]; [|done].
  apply IH.
Qed.

Section Steps.

Context (R : relation World) `{!PreOrder R}.

Lemma steps_ret {A} (a : A) : steps R (ret a).
Proof. intros w r w' [= <- <-]. reflexivity. Qed.

Lemma steps_raise {A} e : steps R (raise (A:=A) e).
Proof. intros w r w' [= <- <-]. reflexivity. Qed.

Lemma steps_get : steps R get.
Proof. intros w r w' [= <- <-]. reflexivity. Qed.

Lemma steps_bind {A B} (m : Py A) (k : A → Py B) :
  steps R m → (∀ a, steps R (k a)) → steps R (bind m k).
Proof.
  intros Hm Hk w r w' Hrun.
  apply bind_inv in Hrun as [(a & w1 & H1 & H2)|(e & H1 & _)].
  - transitivity w1; [by eapply Hm | by eapply Hk].
  - by eapply Hm.
Qed.

Lemma steps_for_each {A} (xs : list A) body :
  (∀ x, steps R (body x)) → steps R (for_each xs body).
Proof.
  intros Hbody. induction xs as [|x xs IH]; simpl.
  - apply steps_ret.
  - apply steps_bind; [apply Hbody | by intros _].
Qed.

Lemma steps_fold_each {A B} (xs : list A) (acc : B) body :
  (∀ b x, steps R (body b x)) → steps R (fold_each xs acc body).
Proof.
  intros Hbody. revert acc. induction xs as [|x xs IH]; intros acc; simpl.
  - apply steps_ret.
  - apply steps_bind; [apply Hbody | intros b; apply IH].
Qed.

Lemma steps_for_services body :
  (∀ s, steps R (body s)) → steps R (for_services body).
Proof.
  intros Hbody. apply steps_bind; [apply steps_get|].
  intros w0. by apply steps_for_each.
Qed.

Lemma steps_for_services_at body :
  (∀ i s, steps R (body i s)) → steps R (for_services_at body).
Proof.
  intros Hbody. apply steps_bind; [apply steps_get|].
  intros w0. apply steps_for_each. intros i.
  apply steps_bind; [apply steps_get|]. intros w1.
  destruct (services w1 !! i); [apply Hbody | apply steps_ret].
Qed.

Lemma steps_modify f : (∀ w, R w (f w)) → steps R (modify f).
Proof. intros Hf w r w' [= <- <-]. apply Hf. Qed.

Lemma steps_with_release {A} (m : Py A) release :
  steps R m → (∀ w, R w (release w)) → steps R (with_release m release).
Proof.
  intros Hm Hrel w r w'. unfold with_release.
  destruct (m w) as [r1 w1] eqn:Hrun. intros [= <- <-].
  transitivity w1; [by eapply Hm | apply Hrel].
Qed.

End Steps.

#[global] Instance keeps_preorder {X} (proj : World → X) : PreOrder (keeps proj).
Proof. split; unfold keeps; [by intros w | intros w1 w2 w3; congruence]. Qed.

#[global] Instance emits_preorder P : PreOrder (emits P).
Proof.
  split.
  - intros w. exists []. by rewrite app_nil_r.
  - intros w1 w2 w3 (evs1 & E1 & F1) (evs2 & E2 & F2).
    exists (evs1 ++ evs2). rewrite E2, E1, <- app_assoc.
    split; [done | by apply Forall_app].
Qed.

Lemma steps_mono {A} (R1 R2 : relation World) (m : Py A) :
  (∀ w w', R1 w w' → R2 w w') → steps R1 m → steps R2 m.
Proof. intros HR Hm w r w' Hrun. apply HR. by eapply Hm. Qed.

Lemma keeps_trace_emits {A} P (m : Py A) :
  steps (keeps trace) m → steps (emits P) m.
Proof.
  apply steps_mono. intros w w' E. exists []. by rewrite app_nil_r.
Qed.

#[global] Instance unchanged_preorder : PreOrder unchanged.
Proof. split; unfold unchanged; [by intros w | intros w1 w2 w3; congruence]. Qed.

(** The leaves: statements written with [λ w, ...] over the world. *)
Ltac steps_leaf :=
  let w := fresh "w" in let r := fresh "r" in let w' := fresh "w'" in
  let Hrun := fresh "Hrun" in
  intros w r w' Hrun;
  unfold keeps, unchanged, read_file, write_file, append_file, os_symlink, os_remove,
    os_rmdir, mkdtemp, mktemp, setenv, delenv, expanduser, print, modify,
    getitem, py_get, as_str, load_global, ret, raise, get in *;
  repeat case_match; simplify_eq; done.

(** Along the structure of a statement, down to its leaves; [leaf] closes
    the leaves that are statements of the script. *)
Ltac steps_with leaf :=
  repeat first
    [ apply steps_ret; tc_solve
    | apply steps_raise; tc_solve
    | apply steps_get; tc_solve
    | apply steps_bind; [tc_solve | | intros ?]
    | apply steps_for_each; [tc_solve | intros ?]
    | apply steps_fold_each; [tc_solve | intros ? ?]
    | apply steps_for_services; [tc_solve | intros ?]
    | apply steps_for_services_at; [tc_solve | intros ? ?]
    | apply steps_with_release; [tc_solve | | intros ?]
    | match goal with
      | |- steps _ (if ?b then _ else _) => destruct b
      | |- steps _ (match ?x with _ => _ end) => destruct x
      | |- steps _ (let '(_, _) := ?x in _) => destruct x
      end
    | match goal with |- keeps _ _ _ => reflexivity end
    | solve [steps_leaf]
    | solve [leaf] ].

Ltac steps_go := steps_with fail.

Section Footprints.

Context {ext : Externals}.

Lemma read_file_world p w r w' : read_file p w = (r, w') → w' = w.
Proof. unfold read_file. intros Hrun. repeat case_match; by simplify_eq. Qed.

Lemma read_file_missing p w :
  node_at w p = None → read_file p w = (Raise (FileNotFoundError p), w).
Proof.
  intros Hnone. unfold read_file, max_links. simpl. by rewrite !Hnone.
Qed.

Lemma steps_safe_load R `{!PreOrder R} text : steps R (safe_load text).
Proof. unfold safe_load. steps_go. Qed.

Lemma command_effect_keeps {X} (proj : World → X) cmd w :
  (∀ w x, proj (set_cron_table x w) = proj w) →
  (∀ w x, proj (set_mounts x w) = proj w) →
  proj (command_effect cmd w) = proj w.
Proof.
  intros Hc Hm. unfold command_effect. repeat case_match; rewrite ?Hc, ?Hm; done.
Qed.

Lemma steps_run_keeps {X} (proj : World → X) cmd checked env :
  (∀ w x, proj (set_trace x w) = proj w) →
  (∀ w x, proj (set_cron_table x w) = proj w) →
  (∀ w x, proj (set_mounts x w) = proj w) →
  steps (keeps proj) (run cmd checked env).
Proof.
  intros Ht Hc Hm w r w' Hrun. unfold run, keeps in *.
  pose proof (command_effect_keeps proj cmd w Hc Hm) as Heff.
  unfold log_event in Hrun.
  repeat case_match; simplify_eq; rewrite Ht; done.
Qed.

End Footprints.

(** ** Status *)

Section Status.

Context {ext : Externals}.

Lemma systemctl_effect args w : command_effect (["systemctl"; "--user"] ++ args) w = w.
Proof. reflexivity. Qed.

Lemma status_row_spec s w :
  ∃ row w',
    status_row s w = (Ok row, w') ∧ reported s row ∧
    trace w' = trace w ++ query_events (environ w) s row ∧
    environ w' = environ w ∧ stdout w' = stdout w.
Proof.
  unfold status_row, reported, query_events.
  destruct (Service.deployed s) eqn:Hd; simpl.
  - destruct (Service.start s) as [|t ts] eqn:Hs; simpl.
    + eexists _, w. unfold ret. split; [done|]. simpl.
      rewrite app_nil_r. naive_solver.
    + unfold systemctl, bind, run.
      destruct (exit_ok w _) eqn:Hok; simpl.
      * eexists _, _. split; [done|]. simpl.
        rewrite (left_id_L ∅ (∪)). naive_solver.
      * eexists _, _. split; [done|]. simpl.
        rewrite (left_id_L ∅ (∪)). naive_solver.
  - eexists _, w. unfold ret. split; [done|]. simpl.
    rewrite app_nil_r. naive_solver.
Qed.

Lemma status_loop_spec ss statuses longest w :
  ∃ rows longest' w',
    fold_each ss (statuses, longest)
      (λ '(statuses, longest) service,
         row <- status_row service ;;
         ret (statuses ++ [row],
              if (longest <? String.length (Service.name service))%nat
              then String.length (Service.name service) else longest)) w
    = (Ok (statuses ++ rows, longest'), w') ∧
    Forall2 reported ss rows ∧
    trace w' = trace w ++ concat (zip_with (query_events (environ w)) ss rows) ∧
    environ w' = environ w ∧ stdout w' = stdout w.
Proof.
  revert statuses longest w.
  induction ss as [|s ss IH]; intros statuses longest w; simpl.
  - exists [], longest, w. unfold ret. rewrite !app_nil_r. auto.
  - destruct (status_row_spec s w) as (row & w1 & Hrow & Hrep & Ht & He & Ho).
    destruct (IH (statuses ++ [row])
                 (if (longest <? String.length (Service.name s))%nat
                  then String.length (Service.name s) else longest) w1)
      as (rows & longest' & w' & Hrun & Hall & Ht' & He' & Ho').
    exists (row :: rows), longest', w'.
    rewrite <- app_assoc in Hrun.
    split.
    { erewrite bind_ok; [exact Hrun|].
      erewrite bind_ok; [reflexivity | exact Hrow]. }
    split; [by constructor|].
    simpl. rewrite Ht', Ht, He, <- app_assoc. split; [done|]. split; congruence.
Qed.

Lemma print_rows_spec longest rows w :
  ∃ w',
    for_each rows (λ row,
      print (ljust (row_name row) longest ++ " "
             ++ ljust (row_deployed row) (String.length "DEPLOYED") ++ " "
             ++ row_running row)%string) w = (Ok tt, w') ∧
    stdout w' = stdout w ++ map (row_line longest) rows ∧
    trace w' = trace w.
Proof.
  revert w. induction rows as [|row rows IH]; intros w; simpl.
  - exists w. unfold ret. by rewrite app_nil_r.
  - unfold bind at 1. unfold print at 1, modify.
    destruct (IH (set_stdout (stdout w ++ [row_line longest row]) w))
      as (w' & Hrun & Ho & Ht).
    exists w'. split; [exact Hrun|]. rewrite Ho, Ht. simpl.
    by rewrite <- app_assoc.
Qed.

(** C9. [status] never raises and prints one row for every configured
    service, selected or not: a service that is not deployed is shown as
    deployed "no", running "no", and no child process is run for it; a
    deployed service with start targets is shown as running exactly when its
    unchecked [systemctl --user is-active] query exits with status 0; a
    deployed service without start targets is shown as running. *)
Theorem status_reports_every_service w :
  ∃ rows longest w',
    status w = (Ok tt, w') ∧
    stdout w' = stdout w ++ header_line longest :: map (row_line longest) rows ∧
    Forall2 reported (services w) rows ∧
    trace w' = trace w ++ concat (zip_with (query_events (environ w)) (services w) rows).
Proof.
  destruct (status_loop_spec (services w) [] 0 w)
    as (rows & longest & w1 & Hloop & Hall & Ht & He & Ho).
  simpl in Hloop.
  destruct (print_rows_spec longest rows
              (set_stdout (stdout w1 ++ [header_line longest]) w1))
    as (w' & Hprint & Ho' & Ht').
  exists rows, longest, w'. split.
  - unfold status, status_rows.
    erewrite bind_ok; [|erewrite bind_ok; [exact Hloop | reflexivity]].
    exact Hprint.
  - rewrite Ho', Ht'. simpl. rewrite Ho, Ht, <- app_assoc. auto.
Qed.

End Status.

(** ** Loading the configuration and the state *)

Section Loading.

Context {ext : Externals}.

Lemma assoc_keys {A} (P : A → Prop) (doc : list (string * A)) :
  Forall (λ kv, P kv.2) doc →
  Forall (λ k, ∃ v, assoc k doc = Some v ∧ P v) (map fst doc).
Proof.
  induction doc as [|[k v] doc IH]; intros Hall; simpl; [constructor|].
  apply Forall_cons in Hall as [Hv Hall]. constructor.
  - exists v. by rewrite String.eqb_refl.
  - eapply Forall_impl; [by apply IH|]. intros k' (v' & Hk' & Hv'). simpl in *.
    destruct (String.eqb k' k); eauto.
Qed.

Lemma Service_init_mapping name props flag w :
  ∃ s, Service_init name (YMap props) flag w = (Ok s, w) ∧
       Service.name s = name ∧ Service.deployed s = truthy flag ∧
       Service.selected s = false.
Proof. eexists. split; [reflexivity|]. done. Qed.

Lemma load_loop_no_state (doc : list (string * yaml)) names result w :
  Forall (λ k, ∃ v, assoc k doc = Some v ∧ ∃ props, v = YMap props) names →
  ∃ ss,
    fold_each names result (λ result s,
      properties <- getitem (YMap doc) s ;;
      flag <- py_get (YMap []) s (YBool false) ;;
      service <- Service_init s properties flag ;;
      ret (result ++ [service])) w = (Ok (result ++ ss), w) ∧
    map Service.name ss = names ∧
    Forall (λ s, Service.deployed s = false) ss.
Proof.
  revert result. induction names as [|n names IH]; intros result Hall; simpl.
  - exists []. by rewrite app_nil_r.
  - apply Forall_cons in Hall as [(v & Hv & props & ->) Hall].
    destruct (Service_init_mapping n props (YBool false) w) as (s & Hs & Hn & Hd & _).
    destruct (IH (result ++ [s]) Hall) as (ss & Hrun & Hnames & Hdep).
    exists (s :: ss). rewrite <- app_assoc in Hrun. split.
    + erewrite bind_ok; [exact Hrun|].
      unfold getitem. rewrite Hv.
      erewrite bind_ok; [|reflexivity].
      erewrite bind_ok; [|reflexivity].
      erewrite bind_ok; [|exact Hs]. reflexivity.
    + simpl. rewrite Hn, Hnames. split; [done|]. by constructor.
Qed.

(** C10. When [.state.yml] does not exist, loading takes the empty
    deployment map and every configured service comes out with
    [deployed] false.  When the file exists and parses to the empty
    document, [load_services] raises (the [.get] on the null result, once
    [services.yml] itself has loaded), and [main] ends with that exception
    in the world it started in: nothing has been parsed from the command
    line and no command has run. *)
Theorem load_services_state_file w :
  (∀ text entries doc,
     read_file _SERVICE_CFG w = (Ok text, w) →
     yaml_safe_load text = Some (YMap entries) →
     assoc "services" entries = Some (YMap doc) →
     Forall (λ kv, ∃ props, kv.2 = YMap props) doc →
     node_at w _STATE_CFG = None →
     ∃ ss, load_services w = (Ok ss, w) ∧
           map Service.name ss = map fst doc ∧
           Forall (λ s, Service.deployed s = false) ss) ∧
  (∀ text cl,
     read_file _STATE_CFG w = (Ok text, w) →
     yaml_safe_load text = Some YNull →
     ∃ e, load_services w = (Raise e, w) ∧
          main cl w = (Raise e, w) ∧
          (∀ stext entries,
             read_file _SERVICE_CFG w = (Ok stext, w) →
             yaml_safe_load stext = Some (YMap entries) →
             e = AttributeError "get")).
Proof.
  split.
  - intros text entries doc Hread Hparse Hdoc Hprops Hmissing.
    destruct (load_loop_no_state doc (map fst doc) [] w) as (ss & Hrun & Hn & Hd).
    { by apply assoc_keys. }
    exists ss. split; [|done]. unfold load_services.
    erewrite bind_ok; [|exact Hread].
    unfold safe_load at 1. rewrite Hparse.
    erewrite bind_ok; [|reflexivity].
    erewrite bind_ok; [|unfold py_get; rewrite Hdoc; reflexivity].
    erewrite bind_ok;
      [|unfold load_state; rewrite (read_file_missing _ _ Hmissing); reflexivity].
    erewrite bind_ok; [|reflexivity].
    erewrite bind_ok; [|reflexivity].
    exact Hrun.
  - intros text cl Hread Hparse.
    assert (∃ e, load_services w = (Raise e, w) ∧
                 ∀ stext entries,
                   read_file _SERVICE_CFG w = (Ok stext, w) →
                   yaml_safe_load stext = Some (YMap entries) →
                   e = AttributeError "get") as (e & Hload & He).
    { unfold load_services.
      destruct (read_file _SERVICE_CFG w) as [[stext|e0] w0] eqn:Hs.
      2:{ apply read_file_world in Hs as Hw. subst w0.
          exists e0. split; [by erewrite bind_raise|]. intros ??; congruence. }
      apply read_file_world in Hs as Hw. subst w0.
      erewrite bind_ok; [|exact Hs].
      unfold safe_load at 1.
      destruct (yaml_safe_load stext) as [entries|] eqn:Hp.
      2:{ exists YAMLError. split; [reflexivity|]. intros ?? [= <-]; congruence. }
      erewrite bind_ok; [|reflexivity].
      assert (load_state w = (Ok YNull, w)) as Hstate.
      { unfold load_state. rewrite Hread. unfold safe_load. by rewrite Hparse. }
      destruct entries as [| | | | |m];
        try (exists (AttributeError "get"); split; [reflexivity | done]).
      erewrite bind_ok; [|reflexivity].
      erewrite bind_ok; [|exact Hstate].
      exists (AttributeError "get"). split; [reflexivity | done]. }
    exists e. split; [done|]. split; [|done].
    unfold main. by erewrite bind_raise.
Qed.

End Loading.

(** ** Rendering the secret files *)

Section Secrets.

Context {ext : Externals}.

Lemma load_secrets_unchanged : steps unchanged load_secrets.
Proof. unfold load_secrets, safe_load. steps_go. Qed.

Lemma read_templates_unchanged templates paths :
  steps unchanged
    (fold_each paths templates (λ templates path,
       let template_path := (path ++ ".jinja")%string in
       text <- read_file template_path ;;
       ret (dict_set path text templates))).
Proof. steps_go. Qed.

Lemma load_templates_unchanged : steps unchanged load_templates.
Proof. unfold load_templates. steps_go. Qed.

Lemma read_templates_missing paths path templates w :
  path ∈ paths → node_at w (path ++ ".jinja")%string = None →
  ∃ e,
    fold_each paths templates (λ templates path,
      let template_path := (path ++ ".jinja")%string in
      text <- read_file template_path ;;
      ret (dict_set path text templates)) w = (Raise e, w).
Proof.
  intros Hin Hmissing. revert templates.
  induction paths as [|p paths IH]; intros templates; [by apply elem_of_nil in Hin|].
  simpl. destruct (read_file (p ++ ".jinja")%string w) as [[text|e] w1] eqn:Hread.
  - apply read_file_world in Hread as Hw. subst w1.
    apply elem_of_cons in Hin as [->|Hin].
    { rewrite (read_file_missing _ _ Hmissing) in Hread. done. }
    destruct (IH Hin (dict_set p text templates)) as (e & He).
    exists e. erewrite bind_ok; [exact He|].
    erewrite bind_ok; [reflexivity | exact Hread].
  - apply read_file_world in Hread as Hw. subst w1.
    exists e. erewrite bind_raise; [done|]. by erewrite bind_raise.
Qed.

Lemma load_templates_missing w s path :
  s ∈ services w → Service.deployed s = true →
  path ∈ Service.secret_files s →
  node_at w (path ++ ".jinja")%string = None →
  ∃ e, load_templates w = (Raise e, w).
Proof.
  intros Hs Hd Hpath Hmissing. unfold load_templates.
  erewrite bind_ok; [|reflexivity].
  enough (∀ templates, ∃ e,
    fold_each (services w) templates (λ templates service,
      if Service.deployed service then
        fold_each (Service.secret_files service) templates (λ templates path,
          let template_path := (path ++ ".jinja")%string in
          text <- read_file template_path ;;
          ret (dict_set path text templates))
      else ret templates) w = (Raise e, w)) as Hloop.
  { destruct (Hloop []) as (e & He). exists e. by erewrite bind_raise. }
  induction (services w) as [|s0 ss IH]; intros templates;
    [by apply elem_of_nil in Hs|].
  simpl. apply elem_of_cons in Hs as [<-|Hs].
  - rewrite Hd.
    destruct (read_templates_missing _ _ templates w Hpath Hmissing) as (e & He).
    exists e. by erewrite bind_raise.
  - destruct (Service.deployed s0).
    + match goal with
      | |- ∃ e, bind ?m _ w = _ => destruct (m w) as [[templates'|e] w1] eqn:Hinner
      end.
      * apply read_templates_unchanged in Hinner as Hw. unfold unchanged in Hw. subst w1.
        destruct (IH Hs templates') as (e & He).
        exists e. erewrite bind_ok; [exact He | exact Hinner].
      * apply read_templates_unchanged in Hinner as Hw. unfold unchanged in Hw. subst w1.
        exists e. by erewrite bind_raise.
    + destruct (IH Hs templates) as (e & He).
      exists e. erewrite bind_ok; [exact He | reflexivity].
Qed.

(** C8. When a deployed service lists a secret file whose template
    (the path followed by [.jinja]) does not exist, [secrets] raises and
    leaves the world as it found it: no secret file has been written, for
    that service or any other.  When the secrets themselves load, the
    exception is the one [load_templates] raises. *)
Theorem secrets_missing_template_writes_nothing w s path :
  s ∈ services w → Service.deployed s = true →
  path ∈ Service.secret_files s →
  node_at w (path ++ ".jinja")%string = None →
  ∃ e, secrets w = (Raise e, w) ∧
       (∀ tree, load_secrets w = (Ok tree, w) → load_templates w = (Raise e, w)).
Proof.
  intros Hs Hd Hpath Hmissing.
  destruct (load_templates_missing w s path Hs Hd Hpath Hmissing) as (e & He).
  unfold secrets.
  destruct (load_secrets w) as [[tree|e0] w1] eqn:Hload.
  - apply load_secrets_unchanged in Hload as Hw. unfold unchanged in Hw. subst w1.
    exists e. split; [|done].
    erewrite bind_ok; [|exact Hload]. by erewrite bind_raise.
  - apply load_secrets_unchanged in Hload as Hw. unfold unchanged in Hw. subst w1.
    exists e0. split; [|done]. by erewrite bind_raise.
Qed.

End Secrets.

(** ** Start, stop, restart *)

Section Restart.

Context {ext : Externals}.

Lemma run_emits (P : Event → Prop) cmd checked env :
  (∀ env' ok, P (Exec cmd env' ok)) → steps (emits P) (run cmd checked env).
Proof.
  intros HP w r w' Hrun. unfold run, log_event in Hrun.
  exists [Exec cmd (env ∪ environ w) (exit_ok w cmd)]. split.
  - repeat case_match; simplify_eq; simpl; try done;
      unfold command_effect; repeat case_match; done.
  - by constructor.
Qed.

Lemma stop_emits : steps (emits is_stop_command) stop.
Proof.
  unfold stop. apply steps_for_services; [tc_solve|]. intros s.
  destruct (_ && _)%bool; [|steps_go].
  apply steps_bind; [tc_solve | | intros ?; steps_go].
  apply run_emits. intros env ok. by exists (Service.stop s), env, ok.
Qed.

Lemma stop_is_not_start ev : is_stop_command ev → ¬ is_start_command ev.
Proof. intros (t1 & e1 & o1 & ->) (t2 & e2 & o2 & [=]). Qed.

Lemma stop_loop_raises ss w e w1 :
  for_each ss (λ service,
    if (Service.selected service && nonempty (Service.stop service))%bool then
      systemctl ("stop" :: Service.stop service) true ;; ret tt
    else ret tt) w = (Raise e, w1) →
  ∃ s, s ∈ ss ∧ Service.selected s = true ∧ Service.stop s ≠ [] ∧
       e = CalledProcessError (["systemctl"; "--user"; "stop"] ++ Service.stop s).
Proof.
  revert w. induction ss as [|s ss IH]; intros w Hrun; simpl in Hrun; [done|].
  apply bind_inv in Hrun as [(a & w2 & Hbody & Hrest)|(e' & Hbody & [= <-])].
  - destruct (IH _ Hrest) as (s' & Hin & Hrest'). exists s'. split; [|done].
    by apply elem_of_cons; right.
  - exists s. split; [by apply elem_of_cons; left|].
    destruct (Service.selected s) eqn:Hsel; [|done].
    destruct (Service.stop s) as [|t ts] eqn:Hstop; [done|]. simpl in Hbody.
    apply bind_inv in Hbody as [(a & w2 & _ & [=])|(e' & Hbody & [= <-])].
    unfold systemctl, run in Hbody. repeat case_match; by simplify_eq.
Qed.

(** C6 (amended). [restart] is [stop] followed by [start] over the same
    selection: when [stop] returns, [restart] goes on with [start] in the
    world [stop] left.  It is not best-effort: the stop commands are checked,
    so when one of them fails [restart] raises that [CalledProcessError] in
    the world reached at the failure; the child processes run so far are
    all [systemctl --user stop] commands and no start command is attempted. *)
Theorem restart_stops_then_starts w :
  (∀ w1, stop w = (Ok tt, w1) → restart w = start w1) ∧
  (∀ e w1, stop w = (Raise e, w1) →
     restart w = (Raise e, w1) ∧
     (∃ s, s ∈ services w ∧ Service.selected s = true ∧
           e = CalledProcessError (["systemctl"; "--user"; "stop"] ++ Service.stop s)) ∧
     ∃ evs, trace w1 = trace w ++ evs ∧
            Forall (λ ev, is_stop_command ev ∧ ¬ is_start_command ev) evs).
Proof.
  split.
  - intros w1 Hstop. unfold restart. by erewrite bind_ok.
  - intros e w1 Hstop. split; [unfold restart; by erewrite bind_raise|]. split.
    + unfold stop, for_services in Hstop.
      apply bind_inv in Hstop as [(w0 & w2 & [= <- <-] & Hloop)|(e' & [=] & _)].
      destruct (stop_loop_raises _ _ _ _ Hloop) as (s & Hin & Hsel & _ & He). eauto.
    + destruct (stop_emits _ _ _ Hstop) as (evs & Ht & Hall).
      exists evs. split; [done|].
      eapply Forall_impl; [exact Hall|]. intros ev Hev. split; [done|].
      by apply stop_is_not_start.
Qed.

End Restart.

(** Counterexample to C6 as the specification states it: the stop
    command of [web] fails, [restart] raises, and the only child process is
    the failed stop; [start] is never attempted, for [web] or for [batch]. *)
Lemma restart_aborts_when_stop_fails :
  let w := Sample.world [Sample.select Sample.web; Sample.select Sample.batch] Sample.files in
  let '(r, w') := restart (ext := Sample.stop_fails) w in
  r = Raise (CalledProcessError ["systemctl"; "--user"; "stop"; "web.service"]) ∧
  trace w' = [Exec ["systemctl"; "--user"; "stop"; "web.service"] (environ w) false].
Proof. vm_compute. done. Qed.

Lemma restart_stops_then_starts_witness :
  let w := Sample.world [Sample.select Sample.web] Sample.files in
  let w1 := (stop (ext := Sample.all_succeed) w).2 in
  let w2 := (stop (ext := Sample.stop_fails) w).2 in
  let e := CalledProcessError ["systemctl"; "--user"; "stop"; "web.service"] in
  restart (ext := Sample.all_succeed) w = start (ext := Sample.all_succeed) w1 ∧
  restart (ext := Sample.stop_fails) w = (Raise e, w2).
Proof.
  intros w w1 w2 e. split.
  - apply (proj1 (restart_stops_then_starts (ext := Sample.all_succeed) w) w1).
    vm_compute. reflexivity.
  - apply (proj2 (restart_stops_then_starts (ext := Sample.stop_fails) w) e w2).
    vm_compute. reflexivity.
Defined.

(** ** Deploy *)

Section Deploy.

Context {ext : Externals}.

Lemma expanduser_link_dir w :
  expanduser _CONTAINER_LINK_DIR w = (Ok (link_dir w), w).
Proof.
  unfold expanduser, link_dir. simpl.
  destruct (Path.rstrip_slash _); reflexivity.
Qed.

Lemma deploy_unfold w :
  deploy w =
  (for_services_at (deploy_service (link_dir w)) ;;
   crontab ;; secrets ;; write_state ;; reload) w.
Proof. unfold deploy. erewrite bind_ok; [reflexivity | apply expanduser_link_dir]. Qed.

Lemma os_symlink_emits (P : Event → Prop) src dst :
  P (Symlinked src dst) → steps (emits P) (os_symlink src dst).
Proof.
  intros HP w r w' Hrun. unfold os_symlink, log_event in Hrun.
  destruct (node_at w dst); simplify_eq.
  - exists []. by rewrite app_nil_r.
  - exists [Symlinked src dst]. split; [done | by constructor].
Qed.

Lemma link_quadlets_emits linkdir s :
  steps (emits (λ ev, ¬ is_exec ev)) (link_quadlets linkdir s).
Proof.
  unfold link_quadlets. apply steps_for_each; [tc_solve|]. intros quadlet.
  apply steps_bind; [tc_solve | steps_go | intros w0].
  apply steps_bind; [tc_solve | apply keeps_trace_emits; steps_go | intros fullpath].
  apply steps_bind; [tc_solve | apply keeps_trace_emits; steps_go | intros dst].
  apply os_symlink_emits. by intros (? & ? & ? & [=]).
Qed.

Lemma link_quadlets_keeps_services linkdir s :
  steps (keeps services) (link_quadlets linkdir s).
Proof. unfold link_quadlets. steps_go. Qed.

Lemma link_quadlets_keeps_cron_table linkdir s :
  steps (keeps cron_table) (link_quadlets linkdir s).
Proof. unfold link_quadlets. steps_go. Qed.

Lemma deploy_service_emits linkdir i s :
  steps (emits (λ ev, ¬ is_exec ev)) (deploy_service linkdir i s).
Proof.
  unfold deploy_service, mark_deployed. destruct (_ && _)%bool; [|steps_go].
  apply steps_bind; [tc_solve | apply link_quadlets_emits | intros _].
  apply keeps_trace_emits. steps_go.
Qed.

Lemma deploy_service_keeps_cron_table linkdir i s :
  steps (keeps cron_table) (deploy_service linkdir i s).
Proof. unfold deploy_service, link_quadlets, mark_deployed. steps_go. Qed.

#[local] Instance keeps_services_from_preorder k : PreOrder (keeps_services_from k).
Proof.
  split; unfold keeps_services_from; [by intros w|].
  intros w1 w2 w3 [? ?] [? ?]. split; congruence.
Qed.

Lemma keeps_services_keeps_from {A} k (m : Py A) :
  steps (keeps services) m → steps (keeps_services_from k) m.
Proof. apply steps_mono. unfold keeps, keeps_services_from. by intros w w' ->. Qed.

Lemma mark_deployed_keeps_from i k b :
  i < k → steps (keeps_services_from k) (mark_deployed i b).
Proof.
  intros Hik w r w' [= <- <-]. unfold keeps_services_from. simpl.
  split; [by rewrite length_alter|].
  apply list_eq. intros j. rewrite !lookup_drop.
  apply list_lookup_alter_ne. lia.
Qed.

Lemma deploy_prefix_keeps_from linkdir k :
  steps (keeps_services_from k)
        (for_each (seq 0 k) (at_service (deploy_service linkdir))).
Proof.
  assert (∀ xs, Forall (λ i, i < k) xs →
                steps (keeps_services_from k)
                      (for_each xs (at_service (deploy_service linkdir)))) as Hgen.
  { induction xs as [|i xs IH]; intros Hall; simpl; [steps_go|].
    apply Forall_cons in Hall as [Hi Hall].
    apply steps_bind; [tc_solve | | intros _; by apply IH].
    unfold at_service. apply steps_bind; [tc_solve | steps_go | intros w0].
    destruct (services w0 !! i) as [s|]; [|steps_go].
    unfold deploy_service. destruct (_ && _)%bool; [|steps_go].
    apply steps_bind; [tc_solve | | intros _; by apply mark_deployed_keeps_from].
    apply keeps_services_keeps_from, link_quadlets_keeps_services. }
  apply Hgen. apply Forall_forall. intros i Hi%elem_of_seq. lia.
Qed.

(** C5 (amended). A failure while linking the artifacts of a selected,
    not yet deployed service is not isolated.  When the loop of [deploy]
    has handled the first [k] services and linking the artifacts of the
    next one raises, [deploy] ends there with that exception: the service
    and all that follow it in configuration order are left as they were, no
    child process has run (the crontab is not regenerated, the daemon not
    reloaded) and the installed table is the one [deploy] found. *)
Theorem deploy_link_failure_aborts w k s e w1 w2 :
  for_each (seq 0 k) (at_service (deploy_service (link_dir w))) w = (Ok tt, w1) →
  services w1 !! k = Some s →
  Service.selected s = true → Service.deployed s = false →
  link_quadlets (link_dir w) s w1 = (Raise e, w2) →
  deploy w = (Raise e, w2) ∧
  drop k (services w2) = drop k (services w) ∧
  cron_table w2 = cron_table w ∧
  ∃ evs, trace w2 = trace w ++ evs ∧ Forall (λ ev, ¬ is_exec ev) evs.
Proof.
  intros Hprefix Hk Hsel Hdep Hlink.
  apply deploy_prefix_keeps_from in Hprefix as Hfrom. destruct Hfrom as [Hlen Hdrop].
  apply link_quadlets_keeps_services in Hlink as Hsame. unfold keeps in Hsame.
  assert (k < length (services w)) as Hlt.
  { rewrite <- Hlen. by eapply lookup_lt_Some. }
  split; [|split; [congruence|split]].
  - rewrite deploy_unfold. apply bind_raise.
    unfold for_services_at. erewrite bind_ok; [|reflexivity].
    replace (length (services w)) with (k + S (length (services w) - S k)) by lia.
    rewrite seq_app, for_each_app. erewrite bind_ok; [|exact Hprefix].
    simpl. apply bind_raise. unfold at_service.
    erewrite bind_ok; [|reflexivity]. rewrite Hk.
    unfold deploy_service. rewrite Hsel, Hdep. simpl.
    by apply bind_raise.
  - apply link_quadlets_keeps_cron_table in Hlink. unfold keeps in Hlink.
    rewrite Hlink.
    assert (steps (keeps cron_table)
              (for_each (seq 0 k) (at_service (deploy_service (link_dir w))))) as Hkeep.
    { apply steps_for_each; [tc_solve|]. intros i. unfold at_service.
      apply steps_bind; [tc_solve | steps_go | intros w0].
      destruct (services w0 !! i); [apply deploy_service_keeps_cron_table | steps_go]. }
    by eapply Hkeep.
  - assert (emits (λ ev, ¬ is_exec ev) w w1) as Hpre.
    { eapply (steps_for_each (emits (λ ev, ¬ is_exec ev))); [|exact Hprefix].
      intros i. unfold at_service.
      apply steps_bind; [tc_solve | steps_go | intros w0].
      destruct (services w0 !! i); [apply deploy_service_emits | steps_go]. }
    change (emits (λ ev, ¬ is_exec ev) w w2).
    transitivity w1; [exact Hpre | by eapply link_quadlets_emits].
Qed.

End Deploy.

(** ** The scheduler's job table *)

Section Schedule.

Context {ext : Externals}.

Lemma append_empty_r (s : string) : (s ++ "")%string = s.
Proof.
  induction s as [|c s IH]; [done|].
  change (String c (s ++ "")%string = String c s). by rewrite IH.
Qed.

Lemma append_assoc (a b c : string) : ((a ++ b) ++ c)%string = (a ++ (b ++ c))%string.
Proof.
  induction a as [|x a IH]; [done|].
  change (String x ((a ++ b) ++ c)%string = String x (a ++ (b ++ c))%string).
  by rewrite IH.
Qed.

Lemma concat_cons (x : string) xs :
  String.concat "" (x :: xs) = (x ++ String.concat "" xs)%string.
Proof. destruct xs; simpl; [by rewrite append_empty_r | done]. Qed.

Lemma job_table_cons s ss :
  job_table (s :: ss) =
  if (Service.deployed s && nonempty_str (Service.crontab s))%bool
  then (Service.crontab s ++ job_table ss)%string else job_table ss.
Proof.
  unfold job_table. simpl. destruct (_ && _)%bool; [|done].
  simpl map. by rewrite concat_cons.
Qed.

Lemma crontab_loop ss tmp c w :
  fs w !! tmp = Some (File c) →
  ∃ w',
    for_each ss (λ service,
      if (Service.deployed service && nonempty_str (Service.crontab service))%bool then
        append_file tmp (Service.crontab service)
      else ret tt) w = (Ok tt, w') ∧
    fs w' !! tmp = Some (File (c ++ job_table ss)) ∧
    services w' = services w ∧ trace w' = trace w ∧ environ w' = environ w ∧
    cron_table w' = cron_table w.
Proof.
  revert c w. induction ss as [|s ss IH]; intros c w Htmp; simpl.
  - exists w. unfold job_table. simpl. by rewrite append_empty_r.
  - rewrite job_table_cons. destruct (_ && _)%bool.
    + destruct (IH (c ++ Service.crontab s)%string
                   (set_fs (<[tmp := File (c ++ Service.crontab s)]> (fs w)) w))
        as (w' & Hrun & Hfs & Hrest).
      { simpl. by rewrite lookup_insert_eq. }
      exists w'. split.
      * erewrite bind_ok; [exact Hrun|].
        unfold append_file, modify. by rewrite Htmp.
      * rewrite Hfs, append_assoc. done.
    + destruct (IH c w Htmp) as (w' & Hrun & Hrest).
      exists w'. split; [|done]. erewrite bind_ok; [exact Hrun | reflexivity].
Qed.

Lemma tmp_name_not_option n : Path.startswith "-" (tmp_name n) = false.
Proof. reflexivity. Qed.

(** [crontab], when it returns: the table installed is the one the
    configuration asks for, and it got there by one check and one install
    of the temporary file. *)
Lemma crontab_spec w w' :
  crontab w = (Ok tt, w') →
  cron_table w' = job_table (services w) ∧
  services w' = services w ∧
  trace w' = trace w ++
    [Exec ["crontab"; "-n"; tmp_name (tmp_next w)] (environ w) true;
     Exec ["crontab"; tmp_name (tmp_next w)] (environ w) true].
Proof.
  unfold crontab. intros Hrun.
  apply bind_inv in Hrun as [(tmp & w1 & Htmp & Hrun)|(e & _ & [=])].
  unfold mktemp in Htmp. destruct (node_at w _) eqn:Hfree; [done|].
  injection Htmp as <- <-.
  unfold with_release in Hrun.
  match type of Hrun with (let '(_, _) := ?body ?w1 in _) = _ =>
    destruct (body w1) as [r w2] eqn:Hbody end.
  injection Hrun as -> <-.
  apply bind_inv in Hbody as [([] & w3 & Hloop & Hbody)|(e & _ & [=])].
  unfold for_services in Hloop. erewrite bind_ok in Hloop; [|reflexivity].
  edestruct (crontab_loop (services w) (tmp_name (tmp_next w)) "")
    as (w3' & Hloop' & Hfs & Hs & Ht & He & Hc);
    [|simpl in Hloop; rewrite Hloop' in Hloop; injection Hloop as ->].
  { simpl. apply lookup_insert_eq. }
  simpl in Hfs, Hs, Ht, He, Hc.
  apply bind_inv in Hbody as [(ok1 & w4 & Hcheck & Hbody)|(e & _ & [=])].
  apply bind_inv in Hbody as [(ok2 & w5 & Hinstall & [= <-])|(e & _ & [=])].
  unfold run in Hcheck, Hinstall. simpl in Hcheck, Hinstall.
  destruct (exit_ok w3 _) eqn:Hok1; simpl in Hcheck; [|done].
  injection Hcheck as _ <-.
  destruct (exit_ok _ _) eqn:Hok2 in Hinstall; simpl in Hinstall; [|done].
  injection Hinstall as _ <-.
  unfold read_file, max_links, realpath, node_at. simpl.
  repeat (rewrite Hfs; simpl).
  rewrite Hs, Ht, He, !(left_id_L ∅ (∪)), <- app_assoc. done.
Qed.

Lemma systemctl_keeps {X} (proj : World → X) args checked :
  (∀ w x, proj (set_trace x w) = proj w) →
  steps (keeps proj) (systemctl args checked).
Proof.
  intros Ht w r w' Hrun. unfold systemctl, run, log_event in Hrun.
  rewrite systemctl_effect in Hrun. unfold keeps.
  repeat case_match; simplify_eq; apply Ht.
Qed.

Lemma systemctl_emits (P : Event → Prop) args checked :
  (∀ env ok, P (Exec (["systemctl"; "--user"] ++ args) env ok)) →
  steps (emits P) (systemctl args checked).
Proof. intros HP. unfold systemctl. by apply run_emits. Qed.

Lemma not_crontab_systemctl args env ok :
  ¬ is_crontab_command (Exec (["systemctl"; "--user"] ++ args) env ok).
Proof. by intros (? & ? & ? & [=]). Qed.

Lemma reload_emits : steps (emits (λ ev, ¬ is_crontab_command ev)) reload.
Proof.
  unfold reload. apply steps_bind; [tc_solve | | intros ?; steps_go].
  apply systemctl_emits. intros. apply not_crontab_systemctl.
Qed.

Lemma reload_keeps {X} (proj : World → X) :
  (∀ w x, proj (set_trace x w) = proj w) → steps (keeps proj) reload.
Proof.
  intros Ht. unfold reload.
  apply steps_bind; [tc_solve | by apply systemctl_keeps | intros ?; steps_go].
Qed.

Lemma stop_keeps {X} (proj : World → X) :
  (∀ w x, proj (set_trace x w) = proj w) → steps (keeps proj) stop.
Proof.
  intros Ht. unfold stop. apply steps_for_services; [tc_solve|]. intros s.
  destruct (_ && _)%bool; [|steps_go].
  apply steps_bind; [tc_solve | by apply systemctl_keeps | intros ?; steps_go].
Qed.

Lemma stop_emits_not_crontab : steps (emits (λ ev, ¬ is_crontab_command ev)) stop.
Proof.
  eapply steps_mono; [|apply stop_emits].
  intros w w' (evs & Ht & Hall). exists evs. split; [done|].
  eapply Forall_impl; [exact Hall|].
  intros ev (t & e & o & ->). apply not_crontab_systemctl.
Qed.

Lemma secrets_keeps_services : steps (keeps services) secrets.
Proof. unfold secrets, load_secrets, load_templates, safe_load. steps_go. Qed.

Lemma secrets_keeps_cron_table : steps (keeps cron_table) secrets.
Proof. unfold secrets, load_secrets, load_templates, safe_load. steps_go. Qed.

Lemma secrets_keeps_trace : steps (keeps trace) secrets.
Proof. unfold secrets, load_secrets, load_templates, safe_load. steps_go. Qed.

Lemma write_state_keeps_services : steps (keeps services) write_state.
Proof. unfold write_state. steps_go. Qed.

Lemma write_state_keeps_cron_table : steps (keeps cron_table) write_state.
Proof. unfold write_state. steps_go. Qed.

Lemma write_state_keeps_trace : steps (keeps trace) write_state.
Proof. unfold write_state. steps_go. Qed.

Lemma deploy_loop_emits linkdir :
  steps (emits (λ ev, ¬ is_crontab_command ev))
        (for_services_at (deploy_service linkdir)).
Proof.
  apply steps_for_services_at; [tc_solve|]. intros i s.
  eapply steps_mono; [|apply deploy_service_emits].
  intros w w' (evs & Ht & Hall). exists evs. split; [done|].
  eapply Forall_impl; [exact Hall|].
  intros ev Hev (args & env & ok & ->). apply Hev. by eexists _, _, _.
Qed.

Lemma os_remove_emits (P : Event → Prop) p :
  P (Removed p) → steps (emits P) (os_remove p).
Proof.
  intros HP w r w' Hrun. unfold os_remove, log_event in Hrun.
  repeat case_match; simplify_eq;
    try (exists []; by rewrite app_nil_r).
  all: exists [Removed p]; split; [done | by constructor].
Qed.

Lemma remove_if_present_emits (P : Event → Prop) p :
  P (Removed p) → steps (emits P) (remove_if_present p).
Proof.
  intros HP w r w' Hrun. unfold remove_if_present in Hrun.
  destruct (os_remove p w) as [r0 w0] eqn:Hrem.
  apply (os_remove_emits P p HP) in Hrem.
  repeat case_match; by simplify_eq.
Qed.

Lemma remove_if_present_keeps {X} (proj : World → X) p :
  (∀ w x, proj (set_trace x w) = proj w) →
  (∀ w x, proj (set_fs x w) = proj w) →
  steps (keeps proj) (remove_if_present p).
Proof.
  intros Ht Hf w r w' Hrun. unfold remove_if_present, os_remove, log_event, keeps in *.
  repeat case_match; simplify_eq; rewrite ?Ht, ?Hf; done.
Qed.

(** C4. Whenever [deploy] or [undeploy] returns, whatever the selection,
    the installed table is the concatenation, in configuration order, of
    the [crontab] entries of exactly the services that are now deployed and
    have a non-empty entry.  It got there in one piece: among the child
    processes of the run, the only ones that touch the table are one check
    ([crontab -n]) and one install ([crontab]) of the same temporary file. *)
Theorem schedule_matches_deployed_services w w' :
  deploy w = (Ok tt, w') ∨ undeploy w = (Ok tt, w') →
  cron_table w' = job_table (services w') ∧
  ∃ before tmp env after,
    trace w' = trace w ++ before
               ++ [Exec ["crontab"; "-n"; tmp] env true; Exec ["crontab"; tmp] env true]
               ++ after ∧
    Forall (λ ev, ¬ is_crontab_command ev) before ∧
    Forall (λ ev, ¬ is_crontab_command ev) after.
Proof.
  intros [Hrun|Hrun].
  - rewrite deploy_unfold in Hrun.
    apply bind_inv in Hrun as [([] & w1 & Hloop & Hrun)|(e & _ & [=])].
    apply bind_inv in Hrun as [([] & w2 & Hcron & Hrun)|(e & _ & [=])].
    apply bind_inv in Hrun as [([] & w3 & Hsec & Hrun)|(e & _ & [=])].
    apply bind_inv in Hrun as [([] & w4 & Hstate & Hreload)|(e & _ & [=])].
    apply crontab_spec in Hcron as (Htable & Hserv & Htrace).
    apply deploy_loop_emits in Hloop as (before & Hbefore & Hnc1).
    apply reload_emits in Hreload as Hafter. destruct Hafter as (after & Hafter & Hnc2).
    apply (reload_keeps services) in Hreload as Hs4; [|done].
    apply (reload_keeps cron_table) in Hreload as Hc4; [|done].
    apply secrets_keeps_services in Hsec as Hs3.
    apply secrets_keeps_cron_table in Hsec as Hc3.
    apply secrets_keeps_trace in Hsec as Ht3.
    apply write_state_keeps_services in Hstate as Hs5.
    apply write_state_keeps_cron_table in Hstate as Hc5.
    apply write_state_keeps_trace in Hstate as Ht5.
    unfold keeps in *. split; [congruence|].
    exists before, (tmp_name (tmp_next w1)), (environ w1), after.
    split; [|done].
    rewrite Hafter, Ht5, Ht3, Htrace, Hbefore, <- !app_assoc. done.
  - unfold undeploy in Hrun.
    apply bind_inv in Hrun as [([] & w0 & Hstop & Hrun)|(e & _ & [=])].
    apply bind_inv in Hrun as [(linkdir & w0' & Hdir & Hrun)|(e & _ & [=])].
    rewrite expanduser_link_dir in Hdir. injection Hdir as <- <-.
    apply bind_inv in Hrun as [([] & w1 & Hloop & Hrun)|(e & _ & [=])].
    apply bind_inv in Hrun as [([] & w2 & Hcron & Hrun)|(e & _ & [=])].
    apply bind_inv in Hrun as [([] & w4 & Hstate & Hreload)|(e & _ & [=])].
    apply crontab_spec in Hcron as (Htable & Hserv & Htrace).
    apply stop_emits_not_crontab in Hstop as (evs0 & Hevs0 & Hnc0).
    assert (emits (λ ev, ¬ is_crontab_command ev) w0 w1) as (evs1 & Hevs1 & Hnc1).
    { eapply (steps_for_services_at (emits (λ ev, ¬ is_crontab_command ev)));
        [|exact Hloop].
      intros i s. unfold mark_deployed. destruct (_ && _)%bool; [|steps_go].
      apply steps_bind; [tc_solve | | intros ?; apply keeps_trace_emits; steps_go].
      apply steps_for_each; [tc_solve|]. intros quadlet.
      apply remove_if_present_emits. by intros (? & ? & ? & [=]). }
    apply reload_emits in Hreload as Hafter. destruct Hafter as (after & Hafter & Hnc2).
    apply (reload_keeps services) in Hreload as Hs4; [|done].
    apply (reload_keeps cron_table) in Hreload as Hc4; [|done].
    apply write_state_keeps_services in Hstate as Hs5.
    apply write_state_keeps_cron_table in Hstate as Hc5.
    apply write_state_keeps_trace in Hstate as Ht5.
    unfold keeps in *. split; [congruence|].
    exists (evs0 ++ evs1), (tmp_name (tmp_next w1)), (environ w1), after.
    split; [|split; [by apply Forall_app | done]].
    rewrite Hafter, Ht5, Htrace, Hevs1, Hevs0, <- !app_assoc. done.
Qed.

End Schedule.

(** ** The backup and restore pipeline *)

#[global] Instance inherits_preorder env : PreOrder (inherits env).
Proof.
  split.
  - intros w Hw. split; [done|]. exists []. by rewrite app_nil_r.
  - intros w1 w2 w3 H12 H23 Hw.
    destruct (H12 Hw) as (Hw2 & evs1 & E1 & F1).
    destruct (H23 Hw2) as (Hw3 & evs2 & E2 & F2).
    split; [done|]. exists (evs1 ++ evs2).
    rewrite E2, E1, <- app_assoc. split; [done | by apply Forall_app].
Qed.

Section Pipeline.

Context {ext : Externals}.

Lemma backup_is_pipeline : backup = pipeline backup_work.
Proof. reflexivity. Qed.

Lemma fetch_is_pipeline : fetch = pipeline fetch_work.
Proof. reflexivity. Qed.

(** Statements that leave the trace and the environment alone run no
    child process. *)
Lemma quiet_inherits {A} env (m : Py A) :
  steps (keeps trace) m → steps (keeps environ) m → steps (inherits env) m.
Proof.
  intros Ht He w r w' Hrun Hw. unfold keeps in *.
  split; [rewrite <- Hw; by eapply He|].
  exists []. rewrite app_nil_r. split; [by eapply Ht | constructor].
Qed.

Lemma run_inherits env cmd checked : steps (inherits env) (run cmd checked ∅).
Proof.
  intros w r w' Hrun Hw. unfold run, log_event in Hrun.
  pose proof (command_effect_keeps environ cmd w) as He.
  pose proof (command_effect_keeps trace cmd w) as Ht.
  rewrite (left_id_L ∅ (∪)) in Hrun.
  assert (environ w' = environ w ∧
          trace w' = trace w ++ [Exec cmd (environ w) (exit_ok w cmd)]) as [E T].
  { repeat case_match; simplify_eq; simpl; rewrite ?He, ?Ht; done. }
  split; [congruence|]. eexists. split; [exact T|].
  constructor; [|constructor]. intros cmd' env' ok [= _ <- _]. done.
Qed.

Lemma run_other_keeps_mounts prog args checked env :
  prog ≠ "s3fs" → prog ≠ "fusermount" →
  steps (keeps mounts) (run (prog :: args) checked env).
Proof.
  intros H1%String.eqb_neq H2%String.eqb_neq w r w' Hrun.
  unfold run, log_event, command_effect, keeps in *. rewrite H1, H2 in Hrun.
  repeat case_match; by simplify_eq.
Qed.

Lemma xcrypt_keeps {X} (proj : World → X) key encrypt source dest :
  (∀ w x, proj (set_fs x w) = proj w) →
  steps (keeps proj) (xcrypt key encrypt source dest).
Proof.
  intros Hfs. unfold xcrypt.
  assert (∀ p c, steps (keeps proj) (write_file p c)) as Hwrite.
  { intros p c w r w' Hrun. unfold write_file, keeps in *.
    repeat case_match; simplify_eq; rewrite ?Hfs; done. }
  assert (∀ p, steps (keeps proj) (read_file p)) as Hread.
  { intros p w r w' Hrun. apply read_file_world in Hrun. by subst. }
  steps_with ltac:(first [apply Hwrite | apply Hread]).
Qed.

Lemma mkdtemp_keeps {X} (proj : World → X) :
  (∀ w x, proj (set_fs x w) = proj w) →
  (∀ w x, proj (set_tmp_next x w) = proj w) →
  steps (keeps proj) mkdtemp.
Proof.
  intros Hfs Htmp w r w' Hrun. unfold mkdtemp, mktemp, keeps in *.
  repeat case_match; simplify_eq; rewrite ?Htmp, ?Hfs; done.
Qed.

Lemma backup_work_keeps_mounts key mountpoint :
  steps (keeps mounts) (backup_work key mountpoint).
Proof.
  unfold backup_work.
  steps_with ltac:(first
    [ by apply xcrypt_keeps
    | by apply mkdtemp_keeps
    | by apply run_other_keeps_mounts ]).
Qed.

Lemma fetch_work_keeps_mounts key mountpoint :
  steps (keeps mounts) (fetch_work key mountpoint).
Proof. unfold fetch_work. steps_with ltac:(by apply xcrypt_keeps). Qed.

Lemma inherits_quiet_step env w w' :
  environ w' = environ w → trace w' = trace w → inherits env w w'.
Proof.
  intros He Ht Hw. split; [congruence|]. exists []. by rewrite app_nil_r.
Qed.

Lemma backup_work_inherits env key mountpoint :
  steps (inherits env) (backup_work key mountpoint).
Proof.
  unfold backup_work.
  steps_with ltac:(first
    [ apply run_inherits
    | apply quiet_inherits; first [by apply xcrypt_keeps | by apply mkdtemp_keeps]
    | apply quiet_inherits; steps_go
    | by apply inherits_quiet_step ]).
Qed.

Lemma fetch_work_inherits env key mountpoint :
  steps (inherits env) (fetch_work key mountpoint).
Proof.
  unfold fetch_work.
  steps_with ltac:(first
    [ apply quiet_inherits; by apply xcrypt_keeps
    | apply quiet_inherits; steps_go ]).
Qed.

Lemma getitem_pure v k w r w' :
  getitem v k w = (r, w') → w' = w ∧ ∀ w0, getitem v k w0 = (r, w0).
Proof.
  unfold getitem, ret, raise. intros Hrun.
  repeat case_match; simplify_eq; done.
Qed.

Lemma setting_pure tree a b c w r w' :
  setting tree a b c w = (r, w') → w' = w ∧ ∀ w0, setting tree a b c w0 = (r, w0).
Proof.
  unfold setting. intros Hrun.
  apply bind_inv in Hrun as [(x & w1 & [-> Hx]%getitem_pure & Hrun)
                            |(e & [-> Hx]%getitem_pure & ->)];
    [|split; [done|]; intros w0; by erewrite bind_raise].
  apply bind_inv in Hrun as [(y & w1 & [-> Hy]%getitem_pure & Hrun)
                            |(e & [-> Hy]%getitem_pure & ->)];
    [|split; [done|]; intros w0; erewrite bind_ok; [|apply Hx]; by erewrite bind_raise].
  apply bind_inv in Hrun as [(z & w1 & [-> Hz]%getitem_pure & Hrun)
                            |(e & [-> Hz]%getitem_pure & ->)];
    [|split; [done|]; intros w0; erewrite bind_ok; [|apply Hx];
      erewrite bind_ok; [|apply Hy]; by erewrite bind_raise].
  assert (w' = w ∧ ∀ w0, as_str z w0 = (r, w0)) as [-> Hs].
  { unfold as_str, ret, raise in *. repeat case_match; by simplify_eq. }
  split; [done|]. intros w0.
  erewrite bind_ok; [|apply Hx]. erewrite bind_ok; [|apply Hy].
  erewrite bind_ok; [|apply Hz]. apply Hs.
Qed.

Lemma key_provider_unchanged tree : steps unchanged (key_provider tree).
Proof. unfold key_provider. steps_go. Qed.

Lemma subscript_unchanged tree a b c : steps unchanged (subscript tree a b c).
Proof. unfold subscript. steps_go. Qed.

Lemma mount_bucket_spec bucket region w r w1 :
  mount_bucket bucket region w = (r, w1) →
  let mountpoint := tmp_name (tmp_next w) in
  environ w1 = environ w ∧
  ((r = Ok mountpoint ∧ mounts w1 = {[mountpoint]} ∪ mounts w ∧
    ∃ args, trace w1 = trace w ++ [Exec ("s3fs" :: args) (environ w) true]) ∨
   (∃ e, r = Raise e ∧ mounts w1 = mounts w ∧
         (trace w1 = trace w ∨
          ∃ args, trace w1 = trace w ++ [Exec ("s3fs" :: args) (environ w) false]))).
Proof.
  unfold mount_bucket, mkdtemp, mktemp. intros Hrun. cbv zeta.
  apply bind_inv in Hrun as [(mp & w0 & Hmk & Hrun)|(e & Hmk & ->)].
  2:{ destruct (node_at w _); simplify_eq. split; [done|]. right. eauto. }
  destruct (node_at w _); simplify_eq.
  apply bind_inv in Hrun as [(w0 & ? & [= <- <-] & Hrun)|(e & [=] & _)].
  apply bind_inv in Hrun as [(b & w2 & Hb & Hrun)|(e & Hb & ->)].
  2:{ unfold as_str, ret, raise in Hb.
      destruct bucket; simplify_eq; (split; [done|]); right; eauto. }
  unfold as_str, ret, raise in Hb. destruct bucket; simplify_eq.
  apply bind_inv in Hrun as [(ok & w2 & Hcmd & [= <- <-])|(e & Hcmd & ->)].
  - unfold run, log_event in Hcmd. rewrite (left_id_L ∅ (∪)) in Hcmd.
    simpl in Hcmd.
    destruct (verbose w); simpl in Hcmd;
      (destruct (exit_ok _ _); simpl in Hcmd; [|done]);
      injection Hcmd as _ <-; simpl;
      (split; [done|]; left; split; [done|]; split; [done | by eexists]).
  - unfold run, log_event in Hcmd. rewrite (left_id_L ∅ (∪)) in Hcmd.
    simpl in Hcmd.
    destruct (verbose w); simpl in Hcmd;
      (destruct (exit_ok _ _); simpl in Hcmd; [done|]);
      injection Hcmd as <- <-; simpl;
      (split; [done|]; right; eexists; split; [done|]; split; [done|];
       right; by eexists).
Qed.

Lemma unmount_bucket_spec mountpoint w r w1 :
  unmount_bucket mountpoint w = (r, w1) →
  environ w1 = environ w ∧
  ∃ ok, trace w1 = trace w ++ [Exec ["fusermount"; "-u"; mountpoint] (environ w) ok] ∧
        (r = Ok tt → ok = true ∧ (mountpoint ∉ mounts w1) ∧ fs w1 !! mountpoint = None).
Proof.
  unfold unmount_bucket. intros Hrun.
  apply bind_inv in Hrun as [(ok & w0 & Hcmd & Hrm)|(e & Hcmd & ->)].
  - unfold run, log_event in Hcmd. rewrite (left_id_L ∅ (∪)) in Hcmd.
    destruct (exit_ok _ _); simpl in Hcmd; [|done]. injection Hcmd as _ <-.
    unfold os_rmdir in Hrm. simpl in Hrm.
    destruct (fs w !! mountpoint) as [[| |]|]; try (injection Hrm as <- <-);
      try (split; [done|]; exists true; split; [done|]; done).
    destruct (bool_decide _); [injection Hrm as <- <-|];
      [split; [done|]; exists true; split; [done|]; done|].
    destruct (dir_is_empty _ _); injection Hrm as <- <-;
      (split; [done|]; exists true; split; [done|]; try done).
    intros _. simpl. split; [done|]. split; [|apply lookup_delete_eq].
    intros [_ Hn]%elem_of_difference. by apply Hn, elem_of_singleton.
  - unfold run, log_event in Hcmd. rewrite (left_id_L ∅ (∪)) in Hcmd.
    destruct (exit_ok _ _); simpl in Hcmd; [done|]. injection Hcmd as <- <-.
    simpl. split; [done|]. exists false. split; [done | done].
Qed.

Lemma delenv_present k v w :
  environ w !! k = Some v →
  delenv k w = (Ok tt, set_environ (delete k (environ w)) w).
Proof. unfold delenv. by intros ->. Qed.

(** How a run of the pipeline ends once the credentials could be read, with
    [env] the environment after they were put there and [mountpoint] the
    directory made for the mount: (1) before the bucket is mounted; (2)
    in the loop over the services; (3) in [unmount_bucket]; (4) normally. *)
Lemma pipeline_inv work tree k s w r w' :
  (∀ key mp, steps (keeps mounts) (work key mp)) →
  (∀ env key mp, steps (inherits env) (work key mp)) →
  load_secrets w = (Ok tree, w) →
  setting tree "apis" "aws" "key" w = (Ok k, w) →
  setting tree "apis" "aws" "secret" w = (Ok s, w) →
  pipeline work w = (r, w') →
  let env := <["AWS_SECRET_ACCESS_KEY" := s]> (<["AWS_ACCESS_KEY_ID" := k]> (environ w)) in
  let mountpoint := tmp_name (tmp_next w) in
  let inherited evs :=
    Forall (λ ev, ∀ cmd env' ok, ev = Exec cmd env' ok → env' = env) evs in
  (∃ e, r = Raise e ∧ environ w' = env ∧
        (trace w' = trace w ∨
         ∃ args, trace w' = trace w ++ [Exec ("s3fs" :: args) env false])) ∨
  (∃ e args evs, r = Raise e ∧ environ w' = env ∧ mountpoint ∈ mounts w' ∧
        trace w' = trace w ++ Exec ("s3fs" :: args) env true :: evs ∧
        inherited evs) ∨
  (∃ e args evs ok, r = Raise e ∧ environ w' = env ∧
        trace w' = trace w ++ Exec ("s3fs" :: args) env true :: evs
                   ++ [Exec ["fusermount"; "-u"; mountpoint] env ok] ∧
        inherited evs) ∨
  (∃ args evs, r = Ok tt ∧
        environ w' = delete "AWS_SECRET_ACCESS_KEY" (delete "AWS_ACCESS_KEY_ID" env) ∧
        (mountpoint ∉ mounts w') ∧ fs w' !! mountpoint = None ∧
        trace w' = trace w ++ Exec ("s3fs" :: args) env true :: evs
                   ++ [Exec ["fusermount"; "-u"; mountpoint] env true] ∧
        inherited evs).
Proof.
  intros Hmounts Hinherits Hload Hkey Hsecret Hrun. cbv zeta.
  set (env := <["AWS_SECRET_ACCESS_KEY" := s]> (<["AWS_ACCESS_KEY_ID" := k]> (environ w))).
  unfold pipeline in Hrun.
  erewrite bind_ok in Hrun; [|exact Hload].
  erewrite bind_ok in Hrun; [|exact Hkey].
  erewrite bind_ok in Hrun; [|reflexivity].
  erewrite bind_ok in Hrun; [|apply (setting_pure _ _ _ _ _ _ _ Hsecret)].
  erewrite bind_ok in Hrun; [|reflexivity].
  set (w0 := set_environ env w) in Hrun.
  apply bind_inv in Hrun as [(key & w1 & Hk & Hrun)|(e & Hk & ->)].
  2:{ apply key_provider_unchanged in Hk. unfold unchanged in Hk. subst w'.
      left. exists e. auto. }
  apply key_provider_unchanged in Hk. unfold unchanged in Hk. subst w1.
  apply bind_inv in Hrun as [(bucket & w1 & Hb & Hrun)|(e & Hb & ->)].
  2:{ apply subscript_unchanged in Hb. unfold unchanged in Hb. subst w'.
      left. exists e. auto. }
  apply subscript_unchanged in Hb. unfold unchanged in Hb. subst w1.
  apply bind_inv in Hrun as [(region & w1 & Hr & Hrun)|(e & Hr & ->)].
  2:{ apply subscript_unchanged in Hr. unfold unchanged in Hr. subst w'.
      left. exists e. auto. }
  apply subscript_unchanged in Hr. unfold unchanged in Hr. subst w1.
  apply bind_inv in Hrun as [(mp & w1 & Hmount & Hrun)|(e & Hmount & ->)].
  2:{ apply mount_bucket_spec in Hmount as (He & [([=] & _)|(e' & [= <-] & _ & Ht)]).
      left. exists e. split; [done|]. split; [exact He|]. exact Ht. }
  apply mount_bucket_spec in Hmount as (He1 & [([= ->] & Hm1 & args & Ht1)|(e' & [=] & _)]).
  simpl in He1, Hm1, Ht1, Hrun.
  apply bind_inv in Hrun as [([] & w2 & Hwork & Hrun)|(e & Hwork & ->)].
  2:{ apply Hmounts in Hwork as Hm2. unfold keeps in Hm2.
      apply (Hinherits env) in Hwork as (He2 & evs & Ht2 & Hall); [exact He1|].
      right. left. exists e, args, evs. split; [done|]. split; [exact He2|].
      split; [rewrite Hm2, Hm1; by apply elem_of_union_l, elem_of_singleton|].
      split; [|exact Hall]. rewrite Ht2, Ht1, <- app_assoc. done. }
  apply (Hinherits env) in Hwork as (He2 & evs & Ht2 & Hall); [exact He1|].
  apply bind_inv in Hrun as [([] & w3 & Hun & Hrun)|(e & Hun & ->)].
  2:{ apply unmount_bucket_spec in Hun as (He3 & ok & Ht3 & _).
      right. right. left. exists e, args, evs, ok.
      split; [done|]. split; [congruence|]. split; [|done].
      rewrite Ht3, Ht2, Ht1, He2, <- !app_assoc. done. }
  apply unmount_bucket_spec in Hun as (He3 & ok & Ht3 & Hgone).
  destruct (Hgone eq_refl) as (-> & Hmp & Hdir).
  assert (environ w3 = env) as He4 by congruence.
  erewrite bind_ok in Hrun;
    [|apply (delenv_present _ k); rewrite He4; unfold env;
      rewrite lookup_insert_ne by done; apply lookup_insert_eq].
  rewrite (delenv_present _ s) in Hrun;
    [|simpl; rewrite He4, lookup_delete_ne by done; apply lookup_insert_eq].
  injection Hrun as <- <-. simpl.
  right. right. right. exists args, evs.
  split; [done|]. split; [by rewrite He4|]. split; [done|]. split; [done|].
  split; [|done]. rewrite Ht3, Ht2, Ht1, He2, <- !app_assoc. done.
Qed.

(** A run of the pipeline that could not read the credentials ends
    before any child process. *)
Lemma pipeline_early work w r w' :
  pipeline work w = (r, w') →
  (∃ tree k s,
     load_secrets w = (Ok tree, w) ∧
     setting tree "apis" "aws" "key" w = (Ok k, w) ∧
     setting tree "apis" "aws" "secret" w = (Ok s, w)) ∨
  (∃ e, r = Raise e ∧ trace w' = trace w).
Proof.
  unfold pipeline. intros Hrun.
  apply bind_inv in Hrun as [(tree & w1 & Hload & Hrun)|(e & Hload & ->)].
  2:{ apply load_secrets_unchanged in Hload. unfold unchanged in Hload. subst.
      right. eauto. }
  apply load_secrets_unchanged in Hload as Hw. unfold unchanged in Hw. subst w1.
  apply bind_inv in Hrun as [(k & w1 & Hkey & Hrun)|(e & Hkey & ->)].
  2:{ apply setting_pure in Hkey as [-> _]. right. eauto. }
  apply setting_pure in Hkey as [-> Hkey].
  erewrite bind_ok in Hrun; [|reflexivity].
  apply bind_inv in Hrun as [(s & w1 & Hsec & Hrun)|(e & Hsec & ->)].
  2:{ apply setting_pure in Hsec as [-> _]. right. eauto. }
  apply setting_pure in Hsec as [-> Hsec].
  left. exists tree, k, s. auto.
Qed.

Lemma pipeline_work op :
  op = backup ∨ op = fetch →
  ∃ work, op = pipeline work ∧
          (∀ key mp, steps (keeps mounts) (work key mp)) ∧
          (∀ env key mp, steps (inherits env) (work key mp)).
Proof.
  intros [->| ->].
  - exists backup_work. split; [reflexivity|].
    split; [apply backup_work_keeps_mounts | apply backup_work_inherits].
  - exists fetch_work. split; [reflexivity|].
    split; [apply fetch_work_keeps_mounts | apply fetch_work_inherits].
Qed.

(** After the mount stage, [backup] and [fetch] are the loop, the unmount
    and the removal of the credentials, in that order. *)
Lemma pipeline_after_mount work w key mountpoint w1 :
  mount_stage w = (Ok (key, mountpoint), w1) →
  pipeline work w =
  (work key mountpoint ;;
   unmount_bucket mountpoint ;;
   delenv "AWS_ACCESS_KEY_ID" ;;
   delenv "AWS_SECRET_ACCESS_KEY") w1.
Proof.
  unfold mount_stage, pipeline. intros Hrun.
  apply bind_inv in Hrun as [(tree & wa & H1 & Hrun)|(e & _ & [=])].
  erewrite bind_ok; [|exact H1].
  apply bind_inv in Hrun as [(k & wb & H2 & Hrun)|(e & _ & [=])].
  erewrite bind_ok; [|exact H2].
  apply bind_inv in Hrun as [([] & wc & H3 & Hrun)|(e & _ & [=])].
  erewrite bind_ok; [|exact H3].
  apply bind_inv in Hrun as [(s & wd & H4 & Hrun)|(e & _ & [=])].
  erewrite bind_ok; [|exact H4].
  apply bind_inv in Hrun as [([] & we & H5 & Hrun)|(e & _ & [=])].
  erewrite bind_ok; [|exact H5].
  apply bind_inv in Hrun as [(key' & wf & H6 & Hrun)|(e & _ & [=])].
  erewrite bind_ok; [|exact H6].
  apply bind_inv in Hrun as [(bucket & wg & H7 & Hrun)|(e & _ & [=])].
  erewrite bind_ok; [|exact H7].
  apply bind_inv in Hrun as [(region & wh & H8 & Hrun)|(e & _ & [=])].
  erewrite bind_ok; [|exact H8].
  apply bind_inv in Hrun as [(mp & wi & H9 & Hrun)|(e & _ & [=])].
  erewrite bind_ok; [|exact H9].
  by injection Hrun as <- <- <-.
Qed.

(** The mount stage ends with the bucket mounted on the directory it hands
    on, and its one child process is [s3fs]. *)
Lemma mount_stage_mounts w key mountpoint w1 :
  mount_stage w = (Ok (key, mountpoint), w1) →
  mountpoint ∈ mounts w1 ∧
  ∃ args env, trace w1 = trace w ++ [Exec ("s3fs" :: args) env true].
Proof.
  unfold mount_stage. intros Hrun.
  apply bind_inv in Hrun as [(tree & wa & H1 & Hrun)|(e & _ & [=])].
  apply load_secrets_unchanged in H1. unfold unchanged in H1. subst wa.
  apply bind_inv in Hrun as [(k & wb & H2 & Hrun)|(e & _ & [=])].
  apply setting_pure in H2 as [-> _].
  apply bind_inv in Hrun as [([] & wc & [= <-] & Hrun)|(e & _ & [=])].
  apply bind_inv in Hrun as [(s & wd & H4 & Hrun)|(e & _ & [=])].
  apply setting_pure in H4 as [-> _].
  apply bind_inv in Hrun as [([] & we & [= <-] & Hrun)|(e & _ & [=])].
  apply bind_inv in Hrun as [(key' & wf & H6 & Hrun)|(e & _ & [=])].
  apply key_provider_unchanged in H6. unfold unchanged in H6. subst wf.
  apply bind_inv in Hrun as [(bucket & wg & H7 & Hrun)|(e & _ & [=])].
  apply subscript_unchanged in H7. unfold unchanged in H7. subst wg.
  apply bind_inv in Hrun as [(region & wh & H8 & Hrun)|(e & _ & [=])].
  apply subscript_unchanged in H8. unfold unchanged in H8. subst wh.
  apply bind_inv in Hrun as [(mp & wi & H9 & Hrun)|(e & _ & [=])].
  injection Hrun as <- <- <-.
  apply mount_bucket_spec in H9 as (_ & [([= ->] & Hm & args & Ht)|(e' & [=] & _)]).
  split; [rewrite Hm; by apply elem_of_union_l, elem_of_singleton|].
  eexists _, _. exact Ht.
Qed.

Lemma emits_quiet_step P w w' : trace w' = trace w → emits P w w'.
Proof. intros Ht. exists []. by rewrite app_nil_r. Qed.

Lemma backup_work_never_unmounts key mountpoint :
  steps (emits (λ ev, ¬ is_unmount_command ev)) (backup_work key mountpoint).
Proof.
  unfold backup_work.
  steps_with ltac:(first
    [ apply run_emits; intros ? ? (? & ? & ? & [= Hcmd _ _]); simpl in Hcmd;
      discriminate Hcmd
    | apply keeps_trace_emits; first [by apply xcrypt_keeps | by apply mkdtemp_keeps]
    | apply keeps_trace_emits; steps_go
    | by apply emits_quiet_step ]).
Qed.

Lemma fetch_work_never_unmounts key mountpoint :
  steps (emits (λ ev, ¬ is_unmount_command ev)) (fetch_work key mountpoint).
Proof.
  unfold fetch_work.
  steps_with ltac:(first
    [ apply keeps_trace_emits; by apply xcrypt_keeps
    | apply keeps_trace_emits; steps_go ]).
Qed.

(** C1 (amended). [backup] and [fetch] unmount the bucket and remove the
    temporary directory only on the way to a normal return: when either
    returns, the directory it made for the mount is no longer mounted and no
    longer exists.  An exception does not pass through the teardown: when
    the mount stage has succeeded and the loop over the services then raises
    (a failed encryption, sync or decryption), the operation ends there with
    that exception, in the world the loop left: the bucket is still mounted
    on the temporary directory and, of all the child processes of the run,
    none is a [fusermount]. *)
Theorem unmount_only_on_normal_return op work :
  (op = backup ∧ work = backup_work) ∨ (op = fetch ∧ work = fetch_work) →
  (∀ w w',
     op w = (Ok tt, w') →
     (tmp_name (tmp_next w) ∉ mounts w') ∧ fs w' !! tmp_name (tmp_next w) = None) ∧
  (∀ w key mountpoint w1 e w2,
     mount_stage w = (Ok (key, mountpoint), w1) →
     work key mountpoint w1 = (Raise e, w2) →
     op w = (Raise e, w2) ∧
     mountpoint ∈ mounts w2 ∧
     ∃ evs, trace w2 = trace w ++ evs ∧
            Forall (λ ev, ¬ is_unmount_command ev) evs).
Proof.
  intros Hop.
  assert (op = pipeline work ∧
          (∀ key mp, steps (keeps mounts) (work key mp)) ∧
          (∀ env key mp, steps (inherits env) (work key mp)) ∧
          (∀ key mp, steps (emits (λ ev, ¬ is_unmount_command ev)) (work key mp)))
    as (-> & Hmounts & Hinherits & Hnever).
  { destruct Hop as [[-> ->]|[-> ->]].
    - split; [reflexivity|].
      split; [apply backup_work_keeps_mounts|].
      split; [apply backup_work_inherits | apply backup_work_never_unmounts].
    - split; [reflexivity|].
      split; [apply fetch_work_keeps_mounts|].
      split; [apply fetch_work_inherits | apply fetch_work_never_unmounts]. }
  split.
  - intros w w' Hrun.
    destruct (pipeline_early work w _ w' Hrun)
      as [(tree & k & s & Hload & Hkey & Hsec)|(e & [=] & _)].
    destruct (pipeline_inv work tree k s w _ w' Hmounts Hinherits Hload Hkey Hsec Hrun)
      as [(e & [=] & _)
         |[(e & args & evs0 & [=] & _)
          |[(e & args & evs0 & ok & [=] & _)
           |(args & evs0 & _ & _ & Hmp & Hdir & _)]]].
    done.
  - intros w key mountpoint w1 e w2 Hstage Hwork.
    split.
    { rewrite (pipeline_after_mount work w key mountpoint w1 Hstage).
      by erewrite bind_raise. }
    apply mount_stage_mounts in Hstage as (Hin & args & env & Ht1).
    apply Hmounts in Hwork as Hm. unfold keeps in Hm.
    apply Hnever in Hwork as (evs & Ht2 & Hall).
    split; [by rewrite Hm|].
    exists (Exec ("s3fs" :: args) env true :: evs).
    split; [rewrite Ht2, Ht1, <- app_assoc; done|].
    constructor; [|exact Hall]. by intros (? & ? & ? & [=]).
Qed.

(** C7 (amended). Once the credentials could be read, [backup] and
    [fetch] put the access key and the secret in [os.environ] before the
    mount, and every child process of the run inherits them.  They are
    removed only on the way to a normal return: when the run returns, both
    variables are gone; when any step from the key provider to the unmount
    raises, the exception leaves both in the environment. *)
Theorem credentials_removed_only_on_normal_return op w r w' tree k s :
  op = backup ∨ op = fetch →
  load_secrets w = (Ok tree, w) →
  setting tree "apis" "aws" "key" w = (Ok k, w) →
  setting tree "apis" "aws" "secret" w = (Ok s, w) →
  op w = (r, w') →
  (r = Ok tt →
     environ w' !! "AWS_ACCESS_KEY_ID" = None ∧
     environ w' !! "AWS_SECRET_ACCESS_KEY" = None) ∧
  (∀ e, r = Raise e →
     environ w' !! "AWS_ACCESS_KEY_ID" = Some k ∧
     environ w' !! "AWS_SECRET_ACCESS_KEY" = Some s) ∧
  ∃ evs, trace w' = trace w ++ evs ∧
         Forall (λ ev, ∀ cmd env ok, ev = Exec cmd env ok →
                   env !! "AWS_ACCESS_KEY_ID" = Some k ∧
                   env !! "AWS_SECRET_ACCESS_KEY" = Some s) evs.
Proof.
  intros Hop Hload Hkey Hsec Hrun.
  destruct (pipeline_work op Hop) as (work & -> & Hmounts & Hinherits).
  set (env := <["AWS_SECRET_ACCESS_KEY" := s]> (<["AWS_ACCESS_KEY_ID" := k]> (environ w))).
  assert (env !! "AWS_ACCESS_KEY_ID" = Some k ∧
          env !! "AWS_SECRET_ACCESS_KEY" = Some s) as Henv.
  { unfold env. rewrite lookup_insert_ne by done. by rewrite !lookup_insert_eq. }
  assert (∀ evs,
    Forall (λ ev, ∀ cmd env' ok, ev = Exec cmd env' ok → env' = env) evs →
    Forall (λ ev, ∀ cmd env' ok, ev = Exec cmd env' ok →
              env' !! "AWS_ACCESS_KEY_ID" = Some k ∧
              env' !! "AWS_SECRET_ACCESS_KEY" = Some s) evs) as Hinh.
  { intros evs Hall. eapply Forall_impl; [exact Hall|].
    intros ev Hev cmd env' ok ->. by rewrite (Hev _ _ _ eq_refl). }
  assert (∀ cmd ok,
    (λ ev, ∀ cmd env' ok, ev = Exec cmd env' ok →
       env' !! "AWS_ACCESS_KEY_ID" = Some k ∧
       env' !! "AWS_SECRET_ACCESS_KEY" = Some s) (Exec cmd env ok)) as Hone.
  { by intros cmd ok cmd' env' ok' [= _ <- _]. }
  destruct (pipeline_inv work tree k s w r w' Hmounts Hinherits Hload Hkey Hsec Hrun)
    as [(e & -> & He & Ht)
       |[(e & args & evs0 & -> & He & _ & Ht & Hall)
        |[(e & args & evs0 & ok & -> & He & Ht & Hall)
         |(args & evs0 & -> & He & _ & _ & Ht & Hall)]]];
    fold env in He, Ht.
  - split; [done|]. split; [intros e' _; by rewrite He|].
    destruct Ht as [Ht|(args & Ht)].
    + exists []. by rewrite app_nil_r.
    + eexists. split; [exact Ht|]. constructor; [apply Hone | constructor].
  - split; [done|]. split; [intros e' _; by rewrite He|].
    eexists. split; [exact Ht|]. constructor; [apply Hone | by apply Hinh].
  - split; [done|]. split; [intros e' _; by rewrite He|].
    eexists. split; [exact Ht|]. constructor; [apply Hone|].
    apply Forall_app. split; [by apply Hinh|].
    constructor; [apply Hone | constructor].
  - split.
    { intros _. rewrite He. split.
      - rewrite lookup_delete_ne by done. apply lookup_delete_eq.
      - apply lookup_delete_eq. }
    split; [done|].
    eexists. split; [exact Ht|]. constructor; [apply Hone|].
    apply Forall_app. split; [by apply Hinh|].
    constructor; [apply Hone | constructor].
Qed.

End Pipeline.

(** ** What [deploy] does to a service that needs links *)

Section DeployLinks.

Context {ext : Externals}.

Lemma link_quadlets_name_error linkdir s w :
  Service.quadlets s ≠ [] →
  link_quadlets linkdir s w = (Raise (NameError "fullpath"), w).
Proof.
  unfold link_quadlets. destruct (Service.quadlets s) as [|q qs]; [done|].
  intros _. reflexivity.
Qed.

Lemma link_quadlets_nothing linkdir s w :
  Service.quadlets s = [] → link_quadlets linkdir s w = (Ok tt, w).
Proof. unfold link_quadlets. by intros ->. Qed.

Lemma at_service_run body j w :
  at_service body j w =
  match services w !! j with
  | Some s => body j s w
  | None => (Ok tt, w)
  end.
Proof. unfold at_service, bind, get. by destruct (services w !! j). Qed.

Lemma deploy_loop_name_error linkdir xs w i s :
  i ∈ xs → services w !! i = Some s →
  Service.selected s = true → Service.deployed s = false →
  Service.quadlets s ≠ [] →
  ∃ w', for_each xs (at_service (deploy_service linkdir)) w
        = (Raise (NameError "fullpath"), w') ∧
        services w' !! i = Some s ∧
        fs w' = fs w ∧ trace w' = trace w ∧ cron_table w' = cron_table w.
Proof.
  intros Hin Hs Hsel Hdep Hq. revert w Hs.
  induction xs as [|j xs IH]; intros w Hs; [by apply elem_of_nil in Hin|].
  simpl. pose proof (at_service_run (deploy_service linkdir) j w) as Hat.
  destruct (services w !! j) as [sj|] eqn:Hj.
  2:{ apply elem_of_cons in Hin as [->|Hin]; [congruence|].
      destruct (IH Hin w Hs) as (w' & Hrun & Hrest).
      exists w'. split; [|done]. erewrite bind_ok; [exact Hrun | exact Hat]. }
  unfold deploy_service in Hat.
  destruct (Service.selected sj && negb (Service.deployed sj))%bool eqn:Hcond.
  2:{ apply elem_of_cons in Hin as [->|Hin].
      { rewrite Hs in Hj. injection Hj as <-. by rewrite Hsel, Hdep in Hcond. }
      destruct (IH Hin w Hs) as (w' & Hrun & Hrest).
      exists w'. split; [|done]. erewrite bind_ok; [exact Hrun | exact Hat]. }
  destruct (Service.quadlets sj) as [|q qs] eqn:Hqj.
  - apply elem_of_cons in Hin as [->|Hin]; [congruence|].
    destruct (decide (i = j)) as [->|Hne]; [congruence|].
    destruct (IH Hin (set_services (alter (Service.set_deployed true) j (services w)) w))
      as (w' & Hrun & Hrest).
    { simpl. by rewrite list_lookup_alter_ne. }
    exists w'. split; [|exact Hrest].
    erewrite bind_ok; [exact Hrun|]. etrans; [exact Hat|].
    erewrite bind_ok; [reflexivity | by apply link_quadlets_nothing].
  - exists w. split; [|done]. apply bind_raise. etrans; [exact Hat|].
    apply bind_raise, link_quadlets_name_error. by rewrite Hqj.
Qed.

Lemma deploy_name_error w i s :
  services w !! i = Some s →
  Service.selected s = true → Service.deployed s = false →
  Service.quadlets s ≠ [] →
  ∃ w', deploy w = (Raise (NameError "fullpath"), w') ∧
        services w' !! i = Some s ∧
        fs w' = fs w ∧ trace w' = trace w ∧ cron_table w' = cron_table w.
Proof.
  intros Hi Hsel Hdep Hq.
  destruct (deploy_loop_name_error (link_dir w) (seq 0 (length (services w))) w i s)
    as (w' & Hrun & Hrest); try done.
  { apply elem_of_seq. apply lookup_lt_Some in Hi. lia. }
  exists w'. split; [|done].
  rewrite deploy_unfold. apply bind_raise.
  unfold for_services_at. by erewrite bind_ok.
Qed.

(** C2 (the code departs from the specification). For a selected, not yet deployed
    service with at least one quadlet, [deploy] creates no link: the call
    [os.symlink(fullpath, dst)] reads two names that are bound nowhere, so
    [deploy] raises [NameError] before any link exists; the file system and
    the trace are as they were. *)
Theorem deploy_creates_no_link w s :
  s ∈ services w →
  Service.selected s = true → Service.deployed s = false →
  Service.quadlets s ≠ [] →
  ∃ w', deploy w = (Raise (NameError "fullpath"), w') ∧
        fs w' = fs w ∧ trace w' = trace w.
Proof.
  intros [i Hi]%list_elem_of_lookup Hsel Hdep Hq.
  destruct (deploy_name_error w i s Hi Hsel Hdep Hq) as (w' & Hrun & _ & Hfs & Ht & _).
  by exists w'.
Qed.

#[local] Instance leaves_service_preorder i : PreOrder (leaves_service i).
Proof.
  split; unfold leaves_service; [by intros w|].
  intros w1 w2 w3 H12 H23 s Hs Hd. eauto.
Qed.

Lemma keeps_services_leaves {A} i (m : Py A) :
  steps (keeps services) m → steps (leaves_service i) m.
Proof. apply steps_mono. unfold keeps, leaves_service. by intros w w' ->. Qed.

Lemma mktemp_keeps {X} (proj : World → X) n :
  (∀ w x, proj (set_fs x w) = proj w) →
  (∀ w x, proj (set_tmp_next x w) = proj w) →
  steps (keeps proj) (mktemp n).
Proof.
  intros Hfs Htmp w r w' Hrun. unfold mktemp, keeps in *.
  destruct (node_at w _); simplify_eq; rewrite ?Htmp, ?Hfs; done.
Qed.

Lemma crontab_keeps_services : steps (keeps services) crontab.
Proof.
  unfold crontab.
  steps_with ltac:(first [by apply mktemp_keeps | by apply steps_run_keeps]).
Qed.

Lemma deploy_leaves_deployed_service i : steps (leaves_service i) deploy.
Proof.
  unfold deploy.
  apply steps_bind; [tc_solve | apply keeps_services_leaves; steps_go | intros linkdir].
  apply steps_bind; [tc_solve | | intros _].
  - apply steps_for_services_at; [tc_solve|]. intros j sj.
    destruct (Service.selected sj && negb (Service.deployed sj))%bool eqn:Hcond;
      [|steps_go].
    apply steps_bind; [tc_solve | | intros _].
    + apply keeps_services_leaves. apply (link_quadlets_keeps_services linkdir sj).
    + intros w r w' [= <- <-] s Hs Hd. simpl.
      destruct (decide (i = j)) as [->|Hne]; [|by rewrite list_lookup_alter_ne].
      rewrite list_lookup_alter_eq, Hs. simpl. f_equal.
      destruct s. simpl in Hd. by subst.
  - apply keeps_services_leaves.
    apply steps_bind; [tc_solve | apply crontab_keeps_services | intros _].
    apply steps_bind; [tc_solve | apply secrets_keeps_services | intros _].
    apply steps_bind; [tc_solve | apply write_state_keeps_services | intros _].
    by apply reload_keeps.
Qed.

(** C3 (the code departs from the specification). For a selected service
    that is already deployed, [deploy] does what the specification says:
    however the run ends, the service object is the one it was, so the
    loop made no link and changed no flag for it.  For a selected service
    that is not yet deployed and has a quadlet it does not: instead of the
    installation sequence the run ends with [NameError] at the first
    quadlet; the service is still not deployed, no link exists, no child
    process has run (no crontab, no reload) and the files, the state file
    among them, are as they were. *)
Theorem deploy_skips_deployed_but_installs_nothing w i s :
  services w !! i = Some s →
  Service.selected s = true →
  (Service.deployed s = true →
     ∀ r w', deploy w = (r, w') → services w' !! i = Some s) ∧
  (Service.deployed s = false → Service.quadlets s ≠ [] →
     ∃ w', deploy w = (Raise (NameError "fullpath"), w') ∧
           services w' !! i = Some s ∧
           fs w' = fs w ∧ trace w' = trace w ∧ cron_table w' = cron_table w).
Proof.
  intros Hi Hsel. split.
  - intros Hdep r w' Hrun.
    by apply (deploy_leaves_deployed_service i w r w' Hrun s).
  - intros Hdep Hq. by apply deploy_name_error.
Qed.

End DeployLinks.

(** ** Runs of the sample installation *)

(** [deploy] over an already deployed [batch] and a not yet deployed [web],
    both selected: [batch] is skipped, [web] is not installed. *)
Lemma sample_deploy_fresh_service :
  let w := Sample.world [Sample.select (Sample.deployed Sample.batch);
                         Sample.select Sample.web] Sample.files in
  let '(r, w') := deploy (ext := Sample.all_succeed) w in
  r = Raise (NameError "fullpath") ∧
  map Service.deployed (services w') = [true; false] ∧
  fs w' = fs w ∧ trace w' = [] ∧ cron_table w' = "" ∧
  fs w' !! _STATE_CFG = None.
Proof. vm_compute. done. Qed.

Lemma deploy_skips_deployed_but_installs_nothing_witness :
  let w := Sample.world [Sample.select (Sample.deployed Sample.batch);
                         Sample.select Sample.web] Sample.files in
  let w' := (deploy (ext := Sample.all_succeed) w).2 in
  services w' !! 0 = Some (Sample.select (Sample.deployed Sample.batch)) ∧
  ∃ w'', deploy (ext := Sample.all_succeed) w = (Raise (NameError "fullpath"), w'') ∧
         services w'' !! 1 = Some (Sample.select Sample.web) ∧
         fs w'' = fs w ∧ trace w'' = trace w ∧ cron_table w'' = cron_table w.
Proof.
  intros w w'. split.
  - apply (proj1 (deploy_skips_deployed_but_installs_nothing
             (ext := Sample.all_succeed) w 0
             (Sample.select (Sample.deployed Sample.batch)) eq_refl eq_refl)
           eq_refl (Raise (NameError "fullpath")) w').
    vm_compute. reflexivity.
  - apply (proj2 (deploy_skips_deployed_but_installs_nothing
             (ext := Sample.all_succeed) w 1
             (Sample.select Sample.web) eq_refl eq_refl)
           eq_refl).
    discriminate.
Defined.

Lemma deploy_creates_no_link_witness :
  let w := Sample.world [Sample.select Sample.web] Sample.files in
  ∃ w', deploy (ext := Sample.all_succeed) w = (Raise (NameError "fullpath"), w') ∧
        fs w' = fs w ∧ trace w' = trace w.
Proof.
  intros w.
  apply (deploy_creates_no_link (ext := Sample.all_succeed) w (Sample.select Sample.web)).
  - apply list_elem_of_here.
  - reflexivity.
  - reflexivity.
  - discriminate.
Defined.

(** Counterexample to C5 as the specification states it: a file already
    sits where the link of [web] should go, linking fails for [web], which
    comes first, and [deploy] does not go on with [batch]; [batch] stays not
    deployed, its crontab entry is not installed and no child process has
    run. *)
Lemma deploy_link_failure_is_not_isolated :
  let w := Sample.world [Sample.select Sample.web; Sample.select Sample.batch]
             (<["/home/vaire/.config/containers/systemd/web.container" := File "stale"]>
                Sample.files) in
  let '(r, w') := deploy (ext := Sample.all_succeed) w in
  r = Raise (NameError "fullpath") ∧
  map Service.deployed (services w') = [false; false] ∧
  cron_table w' = "" ∧ trace w' = [].
Proof. vm_compute. done. Qed.

Lemma deploy_link_failure_aborts_witness :
  let w := Sample.world [Sample.select Sample.batch; Sample.select Sample.web;
                         Sample.select Sample.batch] Sample.files in
  let w1 := Sample.world [Sample.select (Sample.deployed Sample.batch);
                          Sample.select Sample.web; Sample.select Sample.batch]
              Sample.files in
  deploy (ext := Sample.all_succeed) w = (Raise (NameError "fullpath"), w1) ∧
  drop 1 (services w1) = drop 1 (services w) ∧
  cron_table w1 = cron_table w ∧
  ∃ evs, trace w1 = trace w ++ evs ∧ Forall (λ ev, ¬ is_exec ev) evs.
Proof.
  intros w w1.
  apply (deploy_link_failure_aborts (ext := Sample.all_succeed)
           w 1 (Sample.select Sample.web) (NameError "fullpath") w1 w1).
  - vm_compute. reflexivity.
  - reflexivity.
  - reflexivity.
  - reflexivity.
  - vm_compute. reflexivity.
Defined.

Lemma schedule_matches_deployed_services_witness :
  let w := Sample.world [Sample.select Sample.batch; Sample.deployed Sample.web]
             Sample.files in
  let w' := (deploy (ext := Sample.all_succeed) w).2 in
  cron_table w' = job_table (services w') ∧
  ∃ before tmp env after,
    trace w' = trace w ++ before
               ++ [Exec ["crontab"; "-n"; tmp] env true; Exec ["crontab"; tmp] env true]
               ++ after ∧
    Forall (λ ev, ¬ is_crontab_command ev) before ∧
    Forall (λ ev, ¬ is_crontab_command ev) after.
Proof.
  intros w w'.
  apply (schedule_matches_deployed_services (ext := Sample.all_succeed) w w').
  left. vm_compute. reflexivity.
Defined.

(** The table of that run, spelled out. *)
Lemma sample_deploy_table :
  let w := Sample.world [Sample.select Sample.batch; Sample.deployed Sample.web]
             Sample.files in
  cron_table (deploy (ext := Sample.all_succeed) w).2 =
  "30 4 * * * batch-run
0 3 * * * web-rotate
".
Proof. vm_compute. reflexivity. Qed.

(** Counterexample to C1 as the specification states it: the bucket is
    mounted, the sync of [web] fails, and [backup] raises with the bucket
    still mounted on the temporary directory; no [fusermount] was run and
    the directory is still there. *)
Lemma backup_failure_leaves_bucket_mounted :
  let w := Sample.world [Sample.deployed Sample.web] Sample.files in
  let '(r, w') := backup (ext := Sample.program_fails "rsync") w in
  r = Raise (CalledProcessError
               ["rsync"; "--recursive"; "--delete-during"; "--whole-file"; "--fsync";
                "/tmp/tmp1/"; "/tmp/tmp0/web"]) ∧
  mounts w' = {["/tmp/tmp0"]} ∧
  fs w' !! "/tmp/tmp0" = Some Dir ∧
  map (λ ev, match ev with Exec cmd _ ok => (head cmd, ok) | _ => (None, false) end)
      (trace w') = [(Some "s3fs", true); (Some "rsync", false)].
Proof. vm_compute. done. Qed.

Lemma unmount_only_on_normal_return_witness :
  let w := Sample.world [Sample.deployed Sample.web] Sample.files in
  let sync := ["rsync"; "--recursive"; "--delete-during"; "--whole-file"; "--fsync";
               "/tmp/tmp1/"; "/tmp/tmp0/web"] in
  let w1 := (backup (ext := Sample.all_succeed) w).2 in
  let w2 := (backup (ext := Sample.program_fails "rsync") w).2 in
  ((tmp_name 0 ∉ mounts w1) ∧ fs w1 !! tmp_name 0 = None) ∧
  (backup (ext := Sample.program_fails "rsync") w = (Raise (CalledProcessError sync), w2) ∧
   tmp_name 0 ∈ mounts w2 ∧
   ∃ evs, trace w2 = trace w ++ evs ∧ Forall (λ ev, ¬ is_unmount_command ev) evs).
Proof.
  intros w sync w1 w2. split.
  - apply (proj1 (unmount_only_on_normal_return (ext := Sample.all_succeed)
                    backup backup_work (or_introl (conj eq_refl eq_refl))) w w1).
    vm_compute. reflexivity.
  - apply (proj2 (unmount_only_on_normal_return (ext := Sample.program_fails "rsync")
                    backup backup_work (or_introl (conj eq_refl eq_refl)))
             w (YStr "arn:aws:kms:eu-west-1:1:key/k") (tmp_name 0)
             (mount_stage (ext := Sample.program_fails "rsync") w).2
             (CalledProcessError sync) w2);
      vm_compute; reflexivity.
Defined.

(** Counterexample to C7 as the specification states it: the requested
    object is not in the bucket, the decryption cannot open it, and [fetch]
    raises with both credentials still in [os.environ]. *)
Lemma fetch_failure_leaves_credentials :
  let w := set_arg_file "missing.txt"
             (Sample.world [Sample.select Sample.web] Sample.files) in
  let '(r, w') := fetch (ext := Sample.all_succeed) w in
  r = Raise (FileNotFoundError "/tmp/tmp0/web/missing.txt") ∧
  environ w' !! "AWS_ACCESS_KEY_ID" = Some "AKIAEXAMPLE" ∧
  environ w' !! "AWS_SECRET_ACCESS_KEY" = Some "hunter2".
Proof. vm_compute. done. Qed.

Lemma credentials_removed_only_on_normal_return_witness :
  let w := Sample.world [Sample.select Sample.web] Sample.files in
  let w1 := (fetch (ext := Sample.all_succeed) w).2 in
  let w2 := (fetch (ext := Sample.all_succeed) (set_arg_file "missing.txt" w)).2 in
  (environ w1 !! "AWS_ACCESS_KEY_ID" = None ∧
   environ w1 !! "AWS_SECRET_ACCESS_KEY" = None) ∧
  (environ w2 !! "AWS_ACCESS_KEY_ID" = Some "AKIAEXAMPLE" ∧
   environ w2 !! "AWS_SECRET_ACCESS_KEY" = Some "hunter2").
Proof.
  intros w w1 w2. split.
  - apply (proj1 (credentials_removed_only_on_normal_return
             (ext := Sample.all_succeed)
             fetch w (Ok tt) w1 Sample.secrets_tree "AKIAEXAMPLE" "hunter2"
             (or_intror eq_refl)
             ltac:(vm_compute; reflexivity) ltac:(vm_compute; reflexivity)
             ltac:(vm_compute; reflexivity) ltac:(vm_compute; reflexivity))
           eq_refl).
  - apply (proj1 (proj2 (credentials_removed_only_on_normal_return
             (ext := Sample.all_succeed)
             fetch (set_arg_file "missing.txt" w)
             (Raise (FileNotFoundError "/tmp/tmp0/web/missing.txt")) w2
             Sample.secrets_tree "AKIAEXAMPLE" "hunter2"
             (or_intror eq_refl)
             ltac:(vm_compute; reflexivity) ltac:(vm_compute; reflexivity)
             ltac:(vm_compute; reflexivity) ltac:(vm_compute; reflexivity)))
           (FileNotFoundError "/tmp/tmp0/web/missing.txt") eq_refl).
Defined.

Lemma secrets_missing_template_writes_nothing_witness :
  let w := Sample.world [Sample.batch; Sample.deployed Sample.web]
             Sample.files_without_template in
  ∃ e, secrets (ext := Sample.all_succeed) w = (Raise e, w) ∧
       (∀ tree, load_secrets (ext := Sample.all_succeed) w = (Ok tree, w) →
                load_templates (ext := Sample.all_succeed) w = (Raise e, w)).
Proof.
  intros w.
  apply (secrets_missing_template_writes_nothing (ext := Sample.all_succeed)
           w (Sample.deployed Sample.web) "web.env").
  - apply list_elem_of_further, list_elem_of_here.
  - reflexivity.
  - apply list_elem_of_here.
  - vm_compute. reflexivity.
Defined.

(** The exception of that run is the missing template. *)
Lemma sample_secrets_missing_template :
  let w := Sample.world [Sample.batch; Sample.deployed Sample.web]
             Sample.files_without_template in
  secrets (ext := Sample.all_succeed) w = (Raise (FileNotFoundError "web.env.jinja"), w).
Proof. vm_compute. reflexivity. Qed.

Lemma load_services_state_file_witness :
  let w := Sample.world [] Sample.files in
  let w0 := Sample.world [] (<[_STATE_CFG := File ""]> Sample.files) in
  (∃ ss, load_services (ext := Sample.all_succeed) w = (Ok ss, w) ∧
         map Service.name ss = ["web"; "batch"] ∧
         Forall (λ s, Service.deployed s = false) ss) ∧
  (∃ e, load_services (ext := Sample.all_succeed) w0 = (Raise e, w0) ∧
        main (ext := Sample.all_succeed) (mkCommandLine false CmdStatus [] "") w0
        = (Raise e, w0) ∧
        (∀ stext entries,
           read_file _SERVICE_CFG w0 = (Ok stext, w0) →
           yaml_safe_load (Externals := Sample.all_succeed) stext = Some (YMap entries) →
           e = AttributeError "get")).
Proof.
  intros w w0. split.
  - apply (proj1 (load_services_state_file (ext := Sample.all_succeed) w)
             "SERVICES" Sample.services_entries Sample.configured);
      try reflexivity.
    repeat constructor; by eexists.
  - apply (proj2 (load_services_state_file (ext := Sample.all_succeed) w0) "");
      reflexivity.
Defined.

(** * Further properties of the script *)

(** ** [start], [stop] and [restart], command by command *)

Section Batches.

Context {ext : Externals}.

(** A loop that runs one checked [systemctl] command for each chosen
    service: the commands run in order, each in the environment the loop
    started in, up to the first one that fails. *)
Lemma batch_loop (chosen : Service.t → bool) (args : Service.t → list string) ss w r w' :
  for_each ss (λ service,
    if chosen service then systemctl (args service) true ;; ret tt else ret tt) w
  = (r, w') →
  let event ok s := Exec (["systemctl"; "--user"] ++ args s) (environ w) ok in
  environ w' = environ w ∧ services w' = services w ∧ fs w' = fs w ∧
  cron_table w' = cron_table w ∧
  ((r = Ok tt ∧ trace w' = trace w ++ map (event true) (List.filter chosen ss)) ∨
   (∃ before s after,
      List.filter chosen ss = before ++ s :: after ∧
      r = Raise (CalledProcessError (["systemctl"; "--user"] ++ args s)) ∧
      trace w' = trace w ++ map (event true) before ++ [event false s])).
Proof.
  cbv zeta. revert w. induction ss as [|s ss IH]; intros w Hrun; simpl in Hrun.
  - injection Hrun as <- <-. do 4 (split; [done|]). left. by rewrite app_nil_r.
  - simpl. destruct (chosen s) eqn:Hs.
    + apply bind_inv in Hrun as [([] & w1 & Hcmd & Hrest)|(e & Hcmd & ->)].
      * apply bind_inv in Hcmd as [(ok & w2 & Hcmd & [= <-])|(e & _ & [=])].
        unfold systemctl, run, log_event in Hcmd. rewrite systemctl_effect in Hcmd.
        rewrite (left_id_L ∅ (∪)) in Hcmd.
        destruct (exit_ok w _) eqn:Hok; simpl in Hcmd; [|done].
        injection Hcmd as _ <-.
        destruct (IH _ Hrest) as (He & Hsv & Hfs & Hc & Ht). simpl in *.
        do 4 (split; [done|]).
        destruct Ht as [[-> Ht]|(before & s' & after & Hsplit & -> & Ht)].
        -- left. split; [done|]. by rewrite Ht, <- app_assoc.
        -- right. exists (s :: before), s', after.
           split; [by rewrite Hsplit|]. split; [done|].
           by rewrite Ht, <- !app_assoc.
      * apply bind_inv in Hcmd as [(ok & w2 & _ & [=])|(e' & Hcmd & [= <-])].
        unfold systemctl, run, log_event in Hcmd. rewrite systemctl_effect in Hcmd.
        rewrite (left_id_L ∅ (∪)) in Hcmd.
        destruct (exit_ok w _) eqn:Hok; simpl in Hcmd; [done|].
        injection Hcmd as <- <-. simpl.
        do 4 (split; [done|]). right. by exists [], s, (List.filter chosen ss).
    + apply bind_inv in Hrun as [([] & w1 & [= <-] & Hrest)|(e & [=] & _)].
      by apply IH.
Qed.

(** X1. [start] runs one checked [systemctl --user start] command for each
    selected service that has start targets, deployed or not, with all the
    targets of the service in that one command and in configuration order.
    It stops at the first command that fails, with that
    [CalledProcessError]; the services after it are not started.  It changes
    no flag, no file and not the installed table. *)
Theorem start_runs_one_command_per_service w r w' :
  start w = (r, w') →
  let event ok s := Exec (start_command s) (environ w) ok in
  services w' = services w ∧ fs w' = fs w ∧ cron_table w' = cron_table w ∧
  (r = Ok tt → trace w' = trace w ++ map (event true) (to_start (services w))) ∧
  (∀ e, r = Raise e →
     ∃ before s after,
       to_start (services w) = before ++ s :: after ∧
       e = CalledProcessError (start_command s) ∧
       trace w' = trace w ++ map (event true) before ++ [event false s]).
Proof.
  unfold start, for_services. intros Hrun. cbv zeta.
  erewrite bind_ok in Hrun; [|reflexivity].
  apply (batch_loop (λ s, Service.selected s && nonempty (Service.start s))%bool
           (λ s, "start" :: Service.start s)) in Hrun
    as (_ & Hsv & Hfs & Hc & Ht).
  do 3 (split; [done|]).
  destruct Ht as [[-> Ht]|(before & s & after & Hsplit & -> & Ht)].
  - split; [done | by intros e [=]].
  - split; [done|]. intros e [= <-]. by exists before, s, after.
Qed.

(** X2. [stop] is the mirror image: one checked [systemctl --user stop]
    command for each selected service that has stop targets, in
    configuration order, up to the first that fails. *)
Theorem stop_runs_one_command_per_service w r w' :
  stop w = (r, w') →
  let event ok s := Exec (stop_command s) (environ w) ok in
  services w' = services w ∧ fs w' = fs w ∧ cron_table w' = cron_table w ∧
  (r = Ok tt → trace w' = trace w ++ map (event true) (to_stop (services w))) ∧
  (∀ e, r = Raise e →
     ∃ before s after,
       to_stop (services w) = before ++ s :: after ∧
       e = CalledProcessError (stop_command s) ∧
       trace w' = trace w ++ map (event true) before ++ [event false s]).
Proof.
  unfold stop, for_services. intros Hrun. cbv zeta.
  erewrite bind_ok in Hrun; [|reflexivity].
  apply (batch_loop (λ s, Service.selected s && nonempty (Service.stop s))%bool
           (λ s, "stop" :: Service.stop s)) in Hrun
    as (_ & Hsv & Hfs & Hc & Ht).
  do 3 (split; [done|]).
  destruct Ht as [[-> Ht]|(before & s & after & Hsplit & -> & Ht)].
  - split; [done | by intros e [=]].
  - split; [done|]. intros e [= <-]. by exists before, s, after.
Qed.

Lemma start_keeps_environ w r w' : start w = (r, w') → environ w' = environ w.
Proof.
  unfold start, for_services. intros Hrun.
  erewrite bind_ok in Hrun; [|reflexivity].
  by apply (batch_loop _ (λ s, "start" :: Service.start s)) in Hrun as (? & _).
Qed.

Lemma stop_keeps_environ w r w' : stop w = (r, w') → environ w' = environ w.
Proof.
  unfold stop, for_services. intros Hrun.
  erewrite bind_ok in Hrun; [|reflexivity].
  by apply (batch_loop _ (λ s, "stop" :: Service.stop s)) in Hrun as (? & _).
Qed.

(** X3. When [restart] returns, its child processes are the stop commands
    of the selected services followed by their start commands, each list in
    configuration order and both taken from the same selection: every stop
    comes before the first start. *)
Theorem restart_stops_all_before_starting w w' :
  restart w = (Ok tt, w') →
  trace w' = trace w
             ++ map (λ s, Exec (stop_command s) (environ w) true) (to_stop (services w))
             ++ map (λ s, Exec (start_command s) (environ w) true) (to_start (services w)).
Proof.
  unfold restart. intros Hrun.
  apply bind_inv in Hrun as [([] & w1 & Hstop & Hstart)|(e & _ & [=])].
  pose proof (stop_keeps_environ _ _ _ Hstop) as He.
  apply stop_runs_one_command_per_service in Hstop as (Hsv & _ & _ & Ht1 & _).
  apply start_runs_one_command_per_service in Hstart as (_ & _ & _ & Ht2 & _).
  rewrite (Ht2 eq_refl), (Ht1 eq_refl), Hsv, He, <- app_assoc. done.
Qed.

End Batches.

Lemma start_runs_one_command_per_service_witness :
  let w := Sample.world [Sample.select Sample.web; Sample.select Sample.batch;
                         Sample.web] Sample.files in
  let w' := (start (ext := Sample.all_succeed) w).2 in
  trace w' = [Exec ["systemctl"; "--user"; "start"; "web.service"] (environ w) true].
Proof.
  intros w w'.
  apply (proj1 (proj2 (proj2 (proj2 (start_runs_one_command_per_service
           (ext := Sample.all_succeed) w (Ok tt) w' ltac:(vm_compute; reflexivity)))))
         eq_refl).
Defined.

Lemma stop_runs_one_command_per_service_witness :
  let w := Sample.world [Sample.select Sample.batch; Sample.select Sample.web]
             Sample.files in
  let w' := (stop (ext := Sample.stop_fails) w).2 in
  ∃ before s after,
    to_stop (services w) = before ++ s :: after ∧
    CalledProcessError ["systemctl"; "--user"; "stop"; "web.service"]
    = CalledProcessError (stop_command s) ∧
    trace w' = trace w
               ++ map (λ s, Exec (stop_command s) (environ w) true) before
               ++ [Exec (stop_command s) (environ w) false].
Proof.
  intros w w'.
  apply (proj2 (proj2 (proj2 (proj2 (stop_runs_one_command_per_service
           (ext := Sample.stop_fails) w
           (Raise (CalledProcessError ["systemctl"; "--user"; "stop"; "web.service"]))
           w' ltac:(vm_compute; reflexivity)))))
         _ eq_refl).
Defined.

Lemma restart_stops_all_before_starting_witness :
  let w := Sample.world [Sample.select Sample.web; Sample.select Sample.batch]
             Sample.files in
  let w' := (restart (ext := Sample.all_succeed) w).2 in
  trace w' = [Exec ["systemctl"; "--user"; "stop"; "web.service"] (environ w) true;
              Exec ["systemctl"; "--user"; "start"; "web.service"] (environ w) true].
Proof.
  intros w w'.
  apply (restart_stops_all_before_starting (ext := Sample.all_succeed) w w').
  vm_compute. reflexivity.
Defined.

(** ** What [status], [crontab] and [secrets] leave alone *)

#[global] Instance same_but_preorder p : PreOrder (same_but p).
Proof.
  split; unfold same_but; [by intros w | intros w1 w2 w3; congruence].
Qed.

Section Confinement.

Context {ext : Externals}.

Lemma status_keeps {X} (proj : World → X) :
  (∀ w x, proj (set_trace x w) = proj w) →
  (∀ w x, proj (set_stdout x w) = proj w) →
  steps (keeps proj) status.
Proof.
  intros Ht Ho. unfold status.
  assert (∀ line, steps (keeps proj) (print line)) as Hprint.
  { intros line w r w' [= <- <-]. apply Ho. }
  apply steps_bind; [tc_solve | | intros [statuses longest]].
  - unfold status_rows. apply steps_bind; [tc_solve | steps_go | intros w0].
    apply steps_fold_each; [tc_solve|]. intros [rows n] service.
    unfold status_row. steps_with ltac:(by apply systemctl_keeps).
  - steps_with ltac:(apply Hprint).
Qed.

(** X4. [status] only looks: whatever the activation queries answer, the
    service objects, the files, the installed table, the environment and the
    mounts are what they were; it adds lines to the output and queries to
    the trace, nothing else. *)
Theorem status_changes_nothing w :
  let w' := (status w).2 in
  services w' = services w ∧ fs w' = fs w ∧ cron_table w' = cron_table w ∧
  environ w' = environ w ∧ mounts w' = mounts w.
Proof.
  cbv zeta. destruct (status w) as [r w'] eqn:Hrun. simpl.
  repeat split;
    match goal with
    | |- ?proj w' = ?proj w => by apply (λ Ht Ho, status_keeps proj Ht Ho w r w' Hrun)
    end.
Qed.

Lemma node_at_free w p : node_at w p = None → fs w !! p = None.
Proof. unfold node_at. by destruct (fs w !! p). Qed.

Lemma crontab_body_same_but tmp :
  steps (same_but tmp)
    (for_services (λ service,
       if (Service.deployed service && nonempty_str (Service.crontab service))%bool then
         append_file tmp (Service.crontab service)
       else ret tt) ;;
     run ["crontab"; "-n"; tmp] true ∅ ;;
     run ["crontab"; tmp] true ∅ ;;
     ret tt).
Proof.
  assert (∀ text, steps (same_but tmp) (append_file tmp text)) as Happend.
  { intros text w r w' [= <- <-]. unfold same_but. simpl. apply delete_insert_eq. }
  assert (∀ cmd, steps (same_but tmp) (run cmd true ∅)) as Hrun.
  { intros cmd w r w' Hrun. apply (steps_run_keeps fs) in Hrun; [|done..].
    unfold keeps in Hrun. unfold same_but. by rewrite Hrun. }
  steps_with ltac:(first [apply Happend | apply Hrun
                         | intros ? ? ? [= <- <-]; reflexivity]).
Qed.

Lemma crontab_loop_returns tmp ss w e w' :
  for_each ss (λ service,
    if (Service.deployed service && nonempty_str (Service.crontab service))%bool then
      append_file tmp (Service.crontab service)
    else ret tt) w ≠ (Raise e, w').
Proof.
  revert w. induction ss as [|s ss IH]; intros w Hloop; simpl in Hloop; [done|].
  apply bind_inv in Hloop as [([] & w2 & _ & Hrest)|(e' & Hs & _)]; [by eapply IH|].
  destruct (_ && _)%bool; discriminate.
Qed.

Lemma crontab_body_keeps_table_on_failure tmp w e w' :
  (for_services (λ service,
     if (Service.deployed service && nonempty_str (Service.crontab service))%bool then
       append_file tmp (Service.crontab service)
     else ret tt) ;;
   run ["crontab"; "-n"; tmp] true ∅ ;;
   run ["crontab"; tmp] true ∅ ;;
   ret tt) w = (Raise e, w') →
  cron_table w' = cron_table w ∧
  (e = CalledProcessError ["crontab"; "-n"; tmp] ∨
   e = CalledProcessError ["crontab"; tmp]).
Proof.
  intros Hrun.
  apply bind_inv in Hrun as [([] & w1 & Hloop & Hrun)|(e' & Hloop & [= <-])].
  2:{ exfalso. unfold for_services in Hloop. erewrite bind_ok in Hloop; [|reflexivity].
      by apply crontab_loop_returns in Hloop. }
  assert (cron_table w1 = cron_table w) as Hc1.
  { assert (steps (keeps cron_table)
      (for_services (λ service,
         if (Service.deployed service && nonempty_str (Service.crontab service))%bool then
           append_file tmp (Service.crontab service)
         else ret tt))) as Hk by steps_go.
    by eapply Hk. }
  apply bind_inv in Hrun as [(ok1 & w2 & Hcheck & Hrun)|(e' & Hcheck & [= <-])].
  2:{ unfold run, log_event in Hcheck. simpl in Hcheck.
      destruct (exit_ok w1 _); simpl in Hcheck; [done|].
      injection Hcheck as <- <-. simpl. split; [done | by left]. }
  unfold run, log_event in Hcheck. simpl in Hcheck.
  destruct (exit_ok w1 _); simpl in Hcheck; [|done]. injection Hcheck as _ <-.
  apply bind_inv in Hrun as [(ok2 & w3 & _ & [=])|(e' & Hinstall & [= <-])].
  unfold run, log_event in Hinstall.
  destruct (exit_ok _ _); simpl in Hinstall; [done|].
  injection Hinstall as <- <-. simpl. split; [done | by right].
Qed.

(** X5. [crontab] is all or nothing.  However it ends, the files are
    exactly what they were (the temporary file is gone and nothing else was
    written) and no flag has changed.  When it raises, because no temporary
    name was free or because [crontab -n] or [crontab] failed, the installed
    table is the one it found. *)
Theorem crontab_all_or_nothing w r w' :
  crontab w = (r, w') →
  fs w' = fs w ∧ services w' = services w ∧
  (∀ e, r = Raise e →
     cron_table w' = cron_table w ∧
     (e = FileExistsError (tmp_name (tmp_next w)) ∨
      e = CalledProcessError ["crontab"; "-n"; tmp_name (tmp_next w)] ∨
      e = CalledProcessError ["crontab"; tmp_name (tmp_next w)])).
Proof.
  intros Hrun. split; [|split; [by eapply crontab_keeps_services|]].
  - unfold crontab in Hrun.
    apply bind_inv in Hrun as [(tmp & w1 & Htmp & Hrun)|(e & Htmp & ->)].
    2:{ unfold mktemp in Htmp. destruct (node_at w _); by simplify_eq. }
    unfold mktemp in Htmp. destruct (node_at w _) eqn:Hfree; [done|].
    injection Htmp as <- <-. apply node_at_free in Hfree.
    unfold with_release in Hrun.
    match type of Hrun with (let '(_, _) := ?body ?w1 in _) = _ =>
      destruct (body w1) as [r1 w2] eqn:Hbody end.
    injection Hrun as <- <-.
    apply crontab_body_same_but in Hbody. unfold same_but in Hbody. simpl in *.
    rewrite Hbody, delete_insert_eq. by apply delete_id.
  - intros e ->. unfold crontab in Hrun.
    apply bind_inv in Hrun as [(tmp & w1 & Htmp & Hrun)|(e' & Htmp & [= <-])].
    2:{ unfold mktemp in Htmp. destruct (node_at w _); simplify_eq. auto. }
    unfold mktemp in Htmp. destruct (node_at w _) eqn:Hfree; [done|].
    injection Htmp as <- <-.
    unfold with_release in Hrun.
    match type of Hrun with (let '(_, _) := ?body ?w1 in _) = _ =>
      destruct (body w1) as [r1 w2] eqn:Hbody end.
    injection Hrun as -> <-.
    apply crontab_body_keeps_table_on_failure in Hbody as [Hc He].
    simpl in *. split; [done | by right].
Qed.

Lemma secrets_keeps {X} (proj : World → X) :
  (∀ w x, proj (set_fs x w) = proj w) → steps (keeps proj) secrets.
Proof.
  intros Hfs. unfold secrets, load_secrets, load_templates, safe_load.
  assert (∀ p c, steps (keeps proj) (write_file p c)) as Hwrite.
  { intros p c w r w' Hrun. unfold write_file, keeps in *.
    repeat case_match; simplify_eq; rewrite ?Hfs; done. }
  assert (∀ p, steps (keeps proj) (read_file p)) as Hread.
  { intros p w r w' Hrun. apply read_file_world in Hrun. by subst. }
  steps_with ltac:(first [apply Hwrite | apply Hread]).
Qed.

(** X6. [secrets] works on files only: however it ends, it has run no
    child process, and the service objects, the installed table, the
    environment and the mounts are what they were. *)
Theorem secrets_touches_files_only w :
  let w' := (secrets w).2 in
  trace w' = trace w ∧ services w' = services w ∧ cron_table w' = cron_table w ∧
  environ w' = environ w ∧ mounts w' = mounts w.
Proof.
  cbv zeta. destruct (secrets w) as [r w'] eqn:Hrun. simpl.
  repeat split;
    match goal with
    | |- ?proj w' = ?proj w => by apply (λ Hfs, secrets_keeps proj Hfs w r w' Hrun)
    end.
Qed.

End Confinement.

Lemma crontab_all_or_nothing_witness :
  let w := Sample.world [Sample.deployed Sample.web] Sample.files in
  let w' := (crontab (ext := Sample.program_fails "crontab") w).2 in
  fs w' = fs w ∧ services w' = services w ∧
  cron_table w' = cron_table w ∧
  (CalledProcessError ["crontab"; "-n"; "/tmp/tmp0"] = FileExistsError (tmp_name 0) ∨
   CalledProcessError ["crontab"; "-n"; "/tmp/tmp0"]
   = CalledProcessError ["crontab"; "-n"; tmp_name 0] ∨
   CalledProcessError ["crontab"; "-n"; "/tmp/tmp0"]
   = CalledProcessError ["crontab"; tmp_name 0]).
Proof.
  intros w w'.
  pose proof (crontab_all_or_nothing (ext := Sample.program_fails "crontab") w
                (Raise (CalledProcessError ["crontab"; "-n"; "/tmp/tmp0"])) w'
                ltac:(vm_compute; reflexivity)) as (Hfs & Hsv & Hfail).
  split; [exact Hfs|]. split; [exact Hsv|]. exact (Hfail _ eq_refl).
Defined.

(** ** Files, encryption and the mount *)

Section Files.

Context {ext : Externals}.

Lemma node_at_insert w q n p :
  node_at (set_fs (<[q := n]> (fs w)) w) p =
  if decide (q = p) then Some n else node_at w p.
Proof.
  unfold node_at, mounted_object. simpl. rewrite lookup_insert.
  by destruct (decide (q = p)).
Qed.

Lemma realpath_not_link n w p q :
  realpath n w p = Ok q → ∀ t, node_at w q ≠ Some (Link t).
Proof.
  revert p. induction n as [|n IH]; intros p Hp t; simpl in Hp.
  - destruct (node_at w p) as [[| |]|] eqn:Hn; simplify_eq; congruence.
  - destruct (node_at w p) as [[|t'|]|] eqn:Hn; simplify_eq; try congruence.
    by eapply IH.
Qed.

Lemma realpath_after_write n w p q c :
  realpath n w p = Ok q →
  realpath n (set_fs (<[q := File c]> (fs w)) w) p = Ok q.
Proof.
  revert p. induction n as [|n IH]; intros p Hp.
  - simpl in *. rewrite node_at_insert.
    destruct (node_at w p) as [[| |]|] eqn:Hn; simplify_eq;
      by destruct (decide (q = q)).
  - pose proof (realpath_not_link _ _ _ _ Hp) as Hq.
    simpl in *. rewrite node_at_insert.
    destruct (node_at w p) as [[|t|]|] eqn:Hn; simplify_eq;
      try by destruct (decide (q = q)).
    destruct (decide (q = p)) as [->|Hne]; [by destruct (Hq t)|].
    by apply IH.
Qed.

(** What [open(p, "w")] wrote, [open(p, "r")] reads, also through links. *)
Lemma read_after_write p c w w' :
  write_file p c w = (Ok tt, w') → read_file p w' = (Ok c, w').
Proof.
  unfold write_file, read_file. intros Hw.
  destruct (realpath max_links w p) as [q|e] eqn:Hq; [|done].
  assert (w' = set_fs (<[q := File c]> (fs w)) w) as ->.
  { repeat case_match; by simplify_eq. }
  rewrite (realpath_after_write _ _ _ _ c Hq), node_at_insert.
  by destruct (decide (q = q)).
Qed.

Lemma read_file_plain p c w :
  node_at w p = Some (File c) → read_file p w = (Ok c, w).
Proof. intros Hn. unfold read_file, max_links. simpl. by rewrite !Hn. Qed.

Lemma write_file_plain p c w :
  plain w p → write_file p c w = (Ok tt, set_fs (<[p := File c]> (fs w)) w).
Proof.
  intros [Hn|[c0 Hn]]; unfold write_file, max_links; simpl; by rewrite !Hn.
Qed.

Lemma plain_insert w q c p :
  plain w p → plain (set_fs (<[q := File c]> (fs w)) w) p.
Proof.
  intros Hp. unfold plain. rewrite node_at_insert.
  destruct (decide (q = p)); [right; by eexists | done].
Qed.

(** X7. Encrypt-then-decrypt through [xcrypt] gives the bytes back.  When
    the key decrypts what it encrypted, encrypting a readable file [source]
    into [middle] and decrypting [middle] into [dest] returns, and [dest]
    then reads as the content of [source] ([middle] differs from both and
    neither is a link or a directory; [dest] may be [source] itself). *)
Theorem xcrypt_round_trip key source middle dest data cipher w :
  node_at w source = Some (File data) →
  plain w middle → plain w dest →
  middle ≠ source → middle ≠ dest →
  kms_encrypt key data = Some cipher →
  kms_decrypt key cipher = Some data →
  ∃ w', (xcrypt key true source middle ;; xcrypt key false middle dest) w = (Ok tt, w') ∧
        read_file dest w' = (Ok data, w') ∧
        read_file middle w' = (Ok cipher, w').
Proof.
  intros Hsrc Hmid Hdst Hms Hmd Henc Hdec.
  set (w1 := set_fs (<[middle := File ""]> (fs w)) w).
  set (w2 := set_fs (<[middle := File cipher]> (fs w1)) w1).
  set (w3 := set_fs (<[dest := File ""]> (fs w2)) w2).
  set (w4 := set_fs (<[dest := File data]> (fs w3)) w3).
  assert (node_at w1 source = Some (File data)) as Hsrc1.
  { unfold w1. rewrite node_at_insert. by destruct (decide (middle = source)). }
  assert (node_at w2 middle = Some (File cipher)) as Hmid2.
  { unfold w2. rewrite node_at_insert. by destruct (decide (middle = middle)). }
  assert (node_at w3 middle = Some (File cipher)) as Hmid3.
  { unfold w3. rewrite node_at_insert. by destruct (decide (dest = middle)). }
  assert (xcrypt key true source middle w = (Ok tt, w2)) as Hfirst.
  { unfold xcrypt.
    erewrite bind_ok; [|by apply read_file_plain].
    erewrite bind_ok; [|by apply write_file_plain].
    erewrite bind_ok; [|by apply read_file_plain].
    rewrite Henc. apply write_file_plain. by apply plain_insert. }
  assert (xcrypt key false middle dest w2 = (Ok tt, w4)) as Hsecond.
  { unfold xcrypt.
    erewrite bind_ok; [|by apply read_file_plain].
    erewrite bind_ok; [|by apply write_file_plain; do 2 apply plain_insert].
    erewrite bind_ok; [|by apply read_file_plain].
    rewrite Hdec. apply write_file_plain. by do 3 apply plain_insert. }
  exists w4. split; [by erewrite bind_ok|]. split.
  - apply read_file_plain. unfold w4. rewrite node_at_insert.
    by destruct (decide (dest = dest)).
  - apply read_file_plain. unfold w4. rewrite node_at_insert.
    by destruct (decide (dest = middle)).
Qed.

(** X8. How [xcrypt] fails.  The source is opened first: when it does not
    exist, [xcrypt] raises [FileNotFoundError] and the destination has not
    been touched.  The destination is opened, and so emptied, before the
    cipher runs, and the chunks are written as they come: when the stream
    raises, [xcrypt] raises and the destination holds the chunks the stream
    had yielded until then and nothing of what was there before; the source
    is as it was. *)
Theorem xcrypt_failures key encrypt source dest w :
  (node_at w source = None →
   xcrypt key encrypt source dest w = (Raise (FileNotFoundError source), w)) ∧
  (∀ data,
     node_at w source = Some (File data) → plain w dest → dest ≠ source →
     (if encrypt then kms_encrypt key data else kms_decrypt key data) = None →
     ∃ w', xcrypt key encrypt source dest w = (Raise (CryptoError source), w') ∧
           read_file dest w' = (Ok (kms_partial encrypt key data), w') ∧
           read_file source w' = (Ok data, w')).
Proof.
  split.
  - intros Hnone. unfold xcrypt. apply bind_raise. by apply read_file_missing.
  - intros data Hsrc Hdst Hne Hfail.
    set (w1 := set_fs (<[dest := File ""]> (fs w)) w).
    set (w2 := set_fs (<[dest := File (kms_partial encrypt key data)]> (fs w1)) w1).
    assert (node_at w1 source = Some (File data)) as Hsrc1.
    { unfold w1. rewrite node_at_insert. by destruct (decide (dest = source)). }
    exists w2. split; [|split].
    + unfold xcrypt.
      erewrite bind_ok; [|by apply read_file_plain].
      erewrite bind_ok; [|by apply write_file_plain].
      erewrite bind_ok; [|by apply read_file_plain].
      rewrite Hfail.
      erewrite bind_ok; [reflexivity|].
      apply write_file_plain. by apply plain_insert.
    + apply read_file_plain. unfold w2. rewrite node_at_insert.
      by destruct (decide (dest = dest)).
    + apply read_file_plain. unfold w2. rewrite node_at_insert.
      by destruct (decide (dest = source)).
Qed.

(** X9. [mount_bucket] makes a new directory and mounts the bucket on it.
    When it returns, the directory exists and the bucket is mounted there.
    When the mount command fails, it raises and the new, empty directory
    stays behind with nothing mounted on it; it is not removed. *)
Theorem mount_bucket_outcomes bucket region w r w' :
  mount_bucket (YStr bucket) region w = (r, w') →
  let mountpoint := tmp_name (tmp_next w) in
  (r = Ok mountpoint ∧ fs w' = <[mountpoint := Dir]> (fs w) ∧
   mounts w' = {[mountpoint]} ∪ mounts w) ∨
  (r = Raise (FileExistsError mountpoint) ∧ w' = w) ∨
  (∃ cmd, r = Raise (CalledProcessError cmd) ∧ last cmd = Some mountpoint ∧
          fs w' = <[mountpoint := Dir]> (fs w) ∧ mounts w' = mounts w).
Proof.
  unfold mount_bucket, mkdtemp, mktemp. intros Hrun. cbv zeta.
  apply bind_inv in Hrun as [(mp & w0 & Hmk & Hrun)|(e & Hmk & ->)].
  2:{ destruct (node_at w _); simplify_eq. right. left. done. }
  destruct (node_at w _); simplify_eq.
  apply bind_inv in Hrun as [(w0 & ? & [= <- <-] & Hrun)|(e & [=] & _)].
  erewrite bind_ok in Hrun; [|reflexivity].
  apply bind_inv in Hrun as [(ok & w2 & Hcmd & [= <- <-])|(e & Hcmd & ->)].
  - left. unfold run, log_event in Hcmd. simpl in Hcmd.
    destruct (verbose w); simpl in Hcmd;
      (destruct (exit_ok _ _); simpl in Hcmd; [|done]);
      injection Hcmd as _ <-; simpl; done.
  - right. right. unfold run, log_event in Hcmd. simpl in Hcmd.
    destruct (verbose w); simpl in Hcmd;
      (destruct (exit_ok _ _); simpl in Hcmd; [done|]);
      injection Hcmd as <- <-; simpl; eexists; (split; [done|]); done.
Qed.

(** X10. [unmount_bucket] removes the directory only after a successful
    [fusermount -u].  When it returns, the directory was there, is gone and
    is no longer a mount point.  When [fusermount] fails, it raises, the
    bucket stays mounted and the directory stays in place. *)
Theorem unmount_bucket_outcomes mountpoint w r w' :
  unmount_bucket mountpoint w = (r, w') →
  (r = Ok tt →
     fs w !! mountpoint = Some Dir ∧ fs w' = delete mountpoint (fs w) ∧
     mounts w' = mounts w ∖ {[mountpoint]}) ∧
  (∀ e, r = Raise e →
     fs w' = fs w ∧
     (e = CalledProcessError ["fusermount"; "-u"; mountpoint] → mounts w' = mounts w)).
Proof.
  unfold unmount_bucket. intros Hrun.
  apply bind_inv in Hrun as [(ok & w0 & Hcmd & Hrm)|(e & Hcmd & ->)].
  - unfold run, log_event in Hcmd.
    destruct (exit_ok _ _) eqn:Hok; simpl in Hcmd; [|done]. injection Hcmd as _ <-.
    unfold os_rmdir in Hrm. simpl in Hrm.
    destruct (fs w !! mountpoint) as [[| |]|] eqn:Hn;
      try (injection Hrm as <- <-; split; [done|]; intros e [= <-]; simpl;
           split; [done|]; done).
    destruct (bool_decide _);
      [injection Hrm as <- <-; split; [done|]; intros e [= <-]; simpl;
       split; [done|]; done|].
    destruct (dir_is_empty _ _); injection Hrm as <- <-; simpl.
    + split; [done | by intros e [=]].
    + split; [done|]. intros e [= <-]. split; [done|]. done.
  - unfold run, log_event in Hcmd.
    destruct (exit_ok _ _) eqn:Hok; simpl in Hcmd; [done|].
    injection Hcmd as <- <-. simpl. split; [done|]. intros e [= <-]. done.
Qed.

End Files.

Lemma xcrypt_round_trip_witness :
  let w := Sample.world [] Sample.files in
  ∃ w', (xcrypt (ext := Sample.all_succeed) (YStr "k") true
           "/srv/web/data.db" "/tmp/data.enc" ;;
         xcrypt (ext := Sample.all_succeed) (YStr "k") false
           "/tmp/data.enc" "/srv/web/restored.db") w = (Ok tt, w') ∧
        read_file "/srv/web/restored.db" w' = (Ok "rows", w') ∧
        read_file "/tmp/data.enc" w' = (Ok "enc:rows", w').
Proof.
  intros w.
  apply (xcrypt_round_trip (ext := Sample.all_succeed) (YStr "k")
           "/srv/web/data.db" "/tmp/data.enc" "/srv/web/restored.db"
           "rows" "enc:rows" w);
    try reflexivity; try discriminate; by left.
Defined.

Lemma xcrypt_failures_witness :
  let w := Sample.world [] (<["report.txt" := File "old"]> Sample.files) in
  xcrypt (ext := stream_breaks "ro") (YStr "k") false "missing" "report.txt" w
  = (Raise (FileNotFoundError "missing"), w) ∧
  ∃ w', xcrypt (ext := stream_breaks "ro") (YStr "k") false
          "/srv/web/data.db" "report.txt" w = (Raise (CryptoError "/srv/web/data.db"), w') ∧
        read_file "report.txt" w' = (Ok "ro", w') ∧
        read_file "/srv/web/data.db" w' = (Ok "rows", w').
Proof.
  intros w. split.
  - apply (proj1 (xcrypt_failures (ext := stream_breaks "ro") (YStr "k") false
             "missing" "report.txt" w)). reflexivity.
  - apply (proj2 (xcrypt_failures (ext := stream_breaks "ro") (YStr "k") false
             "/srv/web/data.db" "report.txt" w) "rows");
      try reflexivity; try discriminate. right. by eexists.
Defined.

Lemma mount_bucket_outcomes_witness :
  let w := Sample.world [] Sample.files in
  let w' := (mount_bucket (ext := Sample.program_fails "s3fs")
               (YStr "vault") (YStr "eu-west-1") w).2 in
  let r := (mount_bucket (ext := Sample.program_fails "s3fs")
              (YStr "vault") (YStr "eu-west-1") w).1 in
  (r = Ok (tmp_name 0) ∧ fs w' = <[tmp_name 0 := Dir]> (fs w) ∧
   mounts w' = {[tmp_name 0]} ∪ mounts w) ∨
  (r = Raise (FileExistsError (tmp_name 0)) ∧ w' = w) ∨
  (∃ cmd, r = Raise (CalledProcessError cmd) ∧ last cmd = Some (tmp_name 0) ∧
          fs w' = <[tmp_name 0 := Dir]> (fs w) ∧ mounts w' = mounts w).
Proof.
  intros w w' r.
  apply (mount_bucket_outcomes (ext := Sample.program_fails "s3fs")
           "vault" (YStr "eu-west-1") w r w').
  vm_compute. reflexivity.
Defined.

Lemma unmount_bucket_outcomes_witness :
  let w := set_mounts {["/mnt/b"]}
             (Sample.world [] (<["/mnt/b" := Dir]> Sample.files)) in
  let w' := (unmount_bucket (ext := Sample.all_succeed) "/mnt/b" w).2 in
  fs w !! "/mnt/b" = Some Dir ∧ fs w' = delete "/mnt/b" (fs w) ∧
  mounts w' = mounts w ∖ {["/mnt/b"]}.
Proof.
  intros w w'.
  apply (proj1 (unmount_bucket_outcomes (ext := Sample.all_succeed) "/mnt/b" w
           (Ok tt) w' ltac:(vm_compute; reflexivity)) eq_refl).
Defined.

(** ** The flags and the links after [deploy] and [undeploy] *)

Section Flags.

Context {ext : Externals}.

(** A loop over the positions [k .. k+n-1] that, for the services chosen by
    [chosen], does something that leaves the objects alone and then sets the
    flag [deployed] to [b]. *)
Lemma mark_loop (chosen : Service.t → bool) (prelude : Service.t → Py unit) b n k w w' :
  (∀ s, steps (keeps services) (prelude s)) →
  for_each (seq k n)
    (at_service (λ i s, if chosen s then prelude s ;; mark_deployed i b else ret tt)) w
  = (Ok tt, w') →
  ∀ j, services w' !! j =
       if decide (k ≤ j < k + n)
       then (λ s, if chosen s then Service.set_deployed b s else s) <$> services w !! j
       else services w !! j.
Proof.
  intros Hpre. revert k w. induction n as [|n IH]; intros k w Hrun j; simpl in Hrun.
  - injection Hrun as <-. case_decide; [lia | done].
  - apply bind_inv in Hrun as [([] & w1 & Hat & Hrest)|(e & _ & [=])].
    rewrite at_service_run in Hat.
    rewrite (IH _ _ Hrest j). clear IH Hrest.
    assert (services w1 =
            match services w !! k with
            | Some s => if chosen s
                        then alter (Service.set_deployed b) k (services w)
                        else services w
            | None => services w
            end) as ->.
    { destruct (services w !! k) as [s|]; [|by injection Hat as <-].
      destruct (chosen s); [|by injection Hat as <-].
      apply bind_inv in Hat as [([] & w2 & Hp & Hmark)|(e & _ & [=])].
      apply Hpre in Hp. unfold keeps in Hp. injection Hmark as <-.
      simpl. by rewrite Hp. }
    destruct (decide (j = k)) as [->|Hne].
    + case_decide; [lia|]. case_decide; [|lia].
      destruct (services w !! k) as [s|] eqn:Hk; [|by rewrite Hk].
      destruct (chosen s) eqn:Hs.
      * rewrite list_lookup_alter_eq, Hk. simpl. by rewrite Hs.
      * rewrite Hk. simpl. by rewrite Hs.
    + assert (match services w !! k with
              | Some s => if chosen s
                          then alter (Service.set_deployed b) k (services w)
                          else services w
              | None => services w
              end !! j = services w !! j) as ->.
      { destruct (services w !! k) as [s|]; [|done].
        destruct (chosen s); [|done]. by rewrite list_lookup_alter_ne. }
      do 2 case_decide; try lia; done.
Qed.

Lemma mark_loop_all (chosen : Service.t → bool) (prelude : Service.t → Py unit) b w w' :
  (∀ s, steps (keeps services) (prelude s)) →
  for_services_at (λ i s, if chosen s then prelude s ;; mark_deployed i b else ret tt) w
  = (Ok tt, w') →
  services w' = map (λ s, if chosen s then Service.set_deployed b s else s) (services w).
Proof.
  intros Hpre Hrun. unfold for_services_at in Hrun.
  erewrite bind_ok in Hrun; [|reflexivity].
  apply list_eq. intros j. rewrite (mark_loop _ _ _ _ _ _ _ Hpre Hrun j).
  rewrite list_lookup_fmap.
  destruct (decide _) as [|Hout]; [done|].
  rewrite lookup_ge_None_2 by lia. done.
Qed.

(** X11. When [deploy] returns, the flags are these: every selected
    service is deployed, and the services that were not selected have the
    flag they had; nothing else in a service object has changed. *)
Theorem deploy_marks_selected w w' :
  deploy w = (Ok tt, w') →
  services w' = map after_deploy (services w) ∧
  Forall (λ s, Service.selected s = true → Service.deployed s = true) (services w').
Proof.
  intros Hrun. rewrite deploy_unfold in Hrun.
  apply bind_inv in Hrun as [([] & w1 & Hloop & Hrun)|(e & _ & [=])].
  apply bind_inv in Hrun as [([] & w2 & Hcron & Hrun)|(e & _ & [=])].
  apply bind_inv in Hrun as [([] & w3 & Hsec & Hrun)|(e & _ & [=])].
  apply bind_inv in Hrun as [([] & w4 & Hstate & Hreload)|(e & _ & [=])].
  apply (mark_loop_all (λ s, Service.selected s && negb (Service.deployed s))%bool
           (link_quadlets (link_dir w)) true) in Hloop;
    [|apply link_quadlets_keeps_services].
  apply crontab_keeps_services in Hcron. apply secrets_keeps_services in Hsec.
  apply write_state_keeps_services in Hstate.
  apply (reload_keeps services) in Hreload; [|done].
  unfold keeps in *.
  assert (services w' = map after_deploy (services w)) as ->
    by (rewrite Hreload, Hstate, Hsec, Hcron, Hloop; reflexivity).
  split; [done|]. apply Forall_forall. intros s' [s [-> _]]%list_elem_of_fmap.
  unfold after_deploy. destruct s as [? ? ? ? ? ? ? [] []]; simpl; done.
Qed.

Lemma undeploy_unfold w :
  undeploy w =
  (stop ;;
   linkdir <- expanduser _CONTAINER_LINK_DIR ;;
   for_services_at (undeploy_service linkdir) ;;
   crontab ;; write_state ;; reload) w.
Proof. reflexivity. Qed.

Lemma unlink_quadlets_keeps_services linkdir s :
  steps (keeps services) (unlink_quadlets linkdir s).
Proof.
  unfold unlink_quadlets. apply steps_for_each; [tc_solve|]. intros quadlet.
  by apply remove_if_present_keeps.
Qed.

(** X12. When [undeploy] returns, the flags are these: no selected service
    is deployed, and the services that were not selected have the flag they
    had; nothing else in a service object has changed. *)
Theorem undeploy_unmarks_selected w w' :
  undeploy w = (Ok tt, w') →
  services w' = map after_undeploy (services w) ∧
  Forall (λ s, Service.selected s = true → Service.deployed s = false) (services w').
Proof.
  intros Hrun. rewrite undeploy_unfold in Hrun.
  apply bind_inv in Hrun as [([] & w0 & Hstop & Hrun)|(e & _ & [=])].
  apply bind_inv in Hrun as [(linkdir & w0' & Hdir & Hrun)|(e & _ & [=])].
  rewrite expanduser_link_dir in Hdir. injection Hdir as <- <-.
  apply bind_inv in Hrun as [([] & w1 & Hloop & Hrun)|(e & _ & [=])].
  apply bind_inv in Hrun as [([] & w2 & Hcron & Hrun)|(e & _ & [=])].
  apply bind_inv in Hrun as [([] & w4 & Hstate & Hreload)|(e & _ & [=])].
  apply (mark_loop_all (λ s, Service.selected s && Service.deployed s)%bool
           (unlink_quadlets (link_dir w0)) false) in Hloop;
    [|apply unlink_quadlets_keeps_services].
  apply (stop_keeps services) in Hstop; [|done].
  apply crontab_keeps_services in Hcron.
  apply write_state_keeps_services in Hstate.
  apply (reload_keeps services) in Hreload; [|done].
  unfold keeps in *.
  assert (services w' = map after_undeploy (services w)) as ->
    by (rewrite Hreload, Hstate, Hcron, Hloop, Hstop; reflexivity).
  split; [done|]. apply Forall_forall. intros s' [s [-> _]]%list_elem_of_fmap.
  unfold after_undeploy. destruct s as [? ? ? ? ? ? ? [] []]; simpl; done.
Qed.

(** X13. The link loop of [undeploy] tolerates what is already undone.
    Unless a directory sits where a link should be, it returns, whether the
    links were there or not; afterwards there is nothing at the place of any
    link of the service, and every other path holds what it held. *)
Theorem unlink_quadlets_removes_links linkdir s w :
  (∀ q, q ∈ Service.quadlets s → fs w !! link_path linkdir q ≠ Some Dir) →
  ∃ w', unlink_quadlets linkdir s w = (Ok tt, w') ∧
        (∀ q, q ∈ Service.quadlets s → fs w' !! link_path linkdir q = None) ∧
        (∀ p, (∀ q, q ∈ Service.quadlets s → p ≠ link_path linkdir q) →
              fs w' !! p = fs w !! p) ∧
        services w' = services w ∧ cron_table w' = cron_table w.
Proof.
  unfold unlink_quadlets. revert w.
  induction (Service.quadlets s) as [|q qs IH]; intros w Hdirs.
  - exists w. split; [done|]. split; [by intros q Hq%elem_of_nil|]. done.
  - simpl. fold (link_path linkdir q).
    assert (∃ w1, remove_if_present (link_path linkdir q) w = (Ok tt, w1) ∧
                  fs w1 = delete (link_path linkdir q) (fs w) ∧
                  services w1 = services w ∧ cron_table w1 = cron_table w)
      as (w1 & Hrm & Hfs1 & Hs1 & Hc1).
    { unfold remove_if_present, os_remove.
      pose proof (Hdirs q ltac:(apply list_elem_of_here)) as Hq.
      destruct (fs w !! link_path linkdir q) as [[| |]|] eqn:Hn; try done;
        eexists; (split; [reflexivity|]); simpl; [done..|].
      split; [|done]. symmetry. by apply delete_id. }
    destruct (IH w1) as (w' & Hrun & Hgone & Hkept & Hs & Hc).
    { intros q' Hq'. rewrite Hfs1.
      destruct (decide (link_path linkdir q = link_path linkdir q')) as [<-|Hne].
      - by rewrite lookup_delete_eq.
      - rewrite lookup_delete_ne by done. apply Hdirs. by apply list_elem_of_further. }
    exists w'. split; [by erewrite bind_ok|].
    split; [|split; [|split; congruence]].
    + intros q' [->|Hq']%elem_of_cons; [|by apply Hgone].
      destruct (decide (link_path linkdir q ∈ map (link_path linkdir) qs))
        as [(q' & -> & Hq')%list_elem_of_fmap|Hnone]; [by apply Hgone|].
      rewrite Hkept, Hfs1; [apply lookup_delete_eq|].
      intros q' Hq' Heq. apply Hnone. apply list_elem_of_fmap. eauto.
    + intros p Hp. rewrite Hkept.
      * rewrite Hfs1. apply lookup_delete_ne. intros Heq.
        by apply (Hp q ltac:(apply list_elem_of_here)).
      * intros q' Hq'. apply Hp. by apply list_elem_of_further.
Qed.

End Flags.

Lemma deploy_marks_selected_witness :
  let w := Sample.world [Sample.select Sample.batch; Sample.deployed Sample.web;
                         Sample.batch] Sample.files in
  let w' := (deploy (ext := Sample.all_succeed) w).2 in
  services w' = [Sample.select (Sample.deployed Sample.batch);
                 Sample.deployed Sample.web; Sample.batch] ∧
  Forall (λ s, Service.selected s = true → Service.deployed s = true) (services w').
Proof.
  intros w w'.
  apply (deploy_marks_selected (ext := Sample.all_succeed) w w').
  vm_compute. reflexivity.
Defined.

Lemma undeploy_unmarks_selected_witness :
  let w := Sample.world [Sample.select (Sample.deployed Sample.web);
                         Sample.deployed Sample.batch] Sample.files in
  let w' := (undeploy (ext := Sample.all_succeed) w).2 in
  services w' = [Sample.select Sample.web; Sample.deployed Sample.batch] ∧
  Forall (λ s, Service.selected s = true → Service.deployed s = false) (services w').
Proof.
  intros w w'.
  apply (undeploy_unmarks_selected (ext := Sample.all_succeed) w w').
  vm_compute. reflexivity.
Defined.

Lemma unlink_quadlets_removes_links_witness :
  let w := Sample.world [] Sample.files in
  ∃ w', unlink_quadlets "/home/vaire/.config/containers/systemd" Sample.web w
        = (Ok tt, w') ∧
        (∀ q, q ∈ Service.quadlets Sample.web →
              fs w' !! link_path "/home/vaire/.config/containers/systemd" q = None) ∧
        (∀ p, (∀ q, q ∈ Service.quadlets Sample.web →
                    p ≠ link_path "/home/vaire/.config/containers/systemd" q) →
              fs w' !! p = fs w !! p) ∧
        services w' = services w ∧ cron_table w' = cron_table w.
Proof.
  intros w.
  apply (unlink_quadlets_removes_links "/home/vaire/.config/containers/systemd"
           Sample.web w).
  intros q [->|Hq%elem_of_nil]%elem_of_cons; [|done].
  vm_compute. discriminate.
Defined.

(** ** The state file and the configuration *)

Section Records.

Context {ext : Externals}.

Lemma assoc_dict_set {A} k k' (v : A) d :
  assoc k (dict_set k' v d) = if String.eqb k k' then Some v else assoc k d.
Proof.
  induction d as [|[k0 v0] d IH]; simpl; [done|].
  destruct (String.eqb_spec k' k0) as [->|Hne]; simpl.
  - by destruct (String.eqb k k0).
  - rewrite IH. destruct (String.eqb_spec k k0) as [->|]; [|done].
    by destruct (String.eqb_spec k0 k').
Qed.

Lemma assoc_state n ss acc :
  assoc n (foldl (λ d s, dict_set (Service.name s) (YBool (Service.deployed s)) d) acc ss)
  = match last_named n ss with
    | Some t => Some (YBool (Service.deployed t))
    | None => assoc n acc
    end.
Proof.
  revert acc. induction ss as [|s ss IH]; intros acc; [done|].
  simpl. rewrite IH. unfold last_named. simpl.
  destruct (String.eqb_spec (Service.name s) n) as [<-|Hne].
  - rewrite last_cons. destruct (last _); [done|].
    by rewrite assoc_dict_set, String.eqb_refl.
  - destruct (last _); [done|]. rewrite assoc_dict_set.
    by destruct (String.eqb_spec n (Service.name s)).
Qed.

Lemma Service_init_inv n props flag w s w' :
  Service_init n props flag w = (Ok s, w') →
  w' = w ∧ mapping props = true ∧ Service.name s = n ∧
  Service.deployed s = truthy flag ∧ Service.selected s = false.
Proof. destruct props; intros [= <- <-]; done. Qed.

Lemma Service_init_bare n props flag w :
  mapping props = false →
  Service_init n props flag w = (Raise (AttributeError "get"), w).
Proof. by destruct props. Qed.

Lemma getitem_world v k w r w' : getitem v k w = (r, w') → w' = w.
Proof. unfold getitem, ret, raise. intros Hrun. repeat case_match; by simplify_eq. Qed.

Lemma py_get_world v k d w r w' : py_get v k d w = (r, w') → w' = w.
Proof. unfold py_get, ret, raise. intros Hrun. repeat case_match; by simplify_eq. Qed.

Lemma load_loop_world (services deployed : yaml) names result w r w' :
  fold_each names result (λ result s,
    properties <- getitem services s ;;
    flag <- py_get deployed s (YBool false) ;;
    service <- Service_init s properties flag ;;
    ret (result ++ [service])) w = (r, w') →
  w' = w.
Proof.
  revert result w. induction names as [|n names IH]; intros result w Hrun;
    simpl in Hrun.
  - by injection Hrun as <- <-.
  - apply bind_inv in Hrun as [(out & w1 & Hbody & Hrest)|(e & Hbody & _)].
    + apply IH in Hrest as ->.
      apply bind_inv in Hbody as [(props & w2 & Hget & Hbody)|(e & _ & [=])].
      apply getitem_world in Hget as ->.
      apply bind_inv in Hbody as [(flag & w3 & Hflag & Hbody)|(e & _ & [=])].
      apply py_get_world in Hflag as ->.
      apply bind_inv in Hbody as [(s & w4 & Hinit & Hbody)|(e & _ & [=])].
      apply Service_init_inv in Hinit as [-> _]. by injection Hbody as <- <-.
    + apply bind_inv in Hbody as [(props & w2 & Hget & Hbody)|(e' & Hget & _)];
        [|by apply getitem_world in Hget].
      apply getitem_world in Hget as ->.
      apply bind_inv in Hbody as [(flag & w3 & Hflag & Hbody)|(e' & Hflag & _)];
        [|by apply py_get_world in Hflag].
      apply py_get_world in Hflag as ->.
      apply bind_inv in Hbody as [(s & w4 & Hinit & [=])|(e' & Hinit & _)].
      destruct props; first [discriminate Hinit | injection Hinit as _ Hw; by symmetry].
Qed.

Lemma load_loop_flags (services deployed : yaml) names result out w w' :
  fold_each names result (λ result s,
    properties <- getitem services s ;;
    flag <- py_get deployed s (YBool false) ;;
    service <- Service_init s properties flag ;;
    ret (result ++ [service])) w = (Ok out, w') →
  ∃ ss, out = result ++ ss ∧ map Service.name ss = names ∧
        Forall (λ s, Service.selected s = false ∧
                     ∃ d, deployed = YMap d ∧
                          Service.deployed s = recorded d (Service.name s)) ss.
Proof.
  revert result w. induction names as [|n names IH]; intros result w Hrun;
    simpl in Hrun.
  - injection Hrun as <- <-. exists []. by rewrite app_nil_r.
  - apply bind_inv in Hrun as [(out1 & w1 & Hbody & Hrest)|(e & _ & [=])].
    apply bind_inv in Hbody as [(props & w2 & Hget & Hbody)|(e & _ & [=])].
    apply bind_inv in Hbody as [(flag & w3 & Hflag & Hbody)|(e & _ & [=])].
    apply bind_inv in Hbody as [(s & w4 & Hinit & Hbody)|(e & _ & [=])].
    injection Hbody as <- <-.
    apply Service_init_inv in Hinit as (-> & _ & Hn & Hd & Hsel).
    apply IH in Hrest as (ss & -> & Hnames & Hall).
    exists (s :: ss). rewrite <- app_assoc. split; [done|].
    split; [simpl; by rewrite Hn, Hnames|].
    constructor; [|done]. split; [done|].
    unfold py_get in Hflag. destruct deployed as [| | | | |d]; try done.
    injection Hflag as <- <-. exists d. split; [done|]. by rewrite Hd, Hn.
Qed.

Lemma safe_load_world text w r w' : safe_load text w = (r, w') → w' = w.
Proof. unfold safe_load, ret, raise. intros Hrun. repeat case_match; by simplify_eq. Qed.

Lemma load_state_world w r w' : load_state w = (r, w') → w' = w.
Proof.
  unfold load_state. intros Hrun.
  destruct (read_file _STATE_CFG w) as [[text|e] w1] eqn:Hread;
    apply read_file_world in Hread as ->.
  - by apply safe_load_world in Hrun.
  - destruct e; by injection Hrun as <- <-.
Qed.

Lemma keys_world v w r w' : keys v w = (r, w') → w' = w.
Proof. unfold keys, ret, raise. intros Hrun. repeat case_match; by simplify_eq. Qed.

Lemma load_services_world w r w' : load_services w = (r, w') → w' = w.
Proof.
  unfold load_services. intros Hrun.
  apply bind_inv in Hrun as [(text & w1 & H1 & Hrun)|(e & H1 & _)];
    [|by apply read_file_world in H1].
  apply read_file_world in H1 as ->.
  apply bind_inv in Hrun as [(entries & w1 & H1 & Hrun)|(e & H1 & _)];
    [|by apply safe_load_world in H1].
  apply safe_load_world in H1 as ->.
  apply bind_inv in Hrun as [(services & w1 & H1 & Hrun)|(e & H1 & _)];
    [|by apply py_get_world in H1].
  apply py_get_world in H1 as ->.
  apply bind_inv in Hrun as [(state & w1 & H1 & Hrun)|(e & H1 & _)];
    [|by apply load_state_world in H1].
  apply load_state_world in H1 as ->.
  apply bind_inv in Hrun as [(deployed & w1 & H1 & Hrun)|(e & H1 & _)];
    [|by apply py_get_world in H1].
  apply py_get_world in H1 as ->.
  apply bind_inv in Hrun as [(names & w1 & H1 & Hrun)|(e & H1 & _)];
    [|by apply keys_world in H1].
  apply keys_world in H1 as ->.
  by apply load_loop_world in Hrun.
Qed.

(** What a successful [load_services] went through. *)
Lemma load_services_inv w ss w' :
  load_services w = (Ok ss, w') →
  ∃ text entries services state deployed names,
    read_file _SERVICE_CFG w = (Ok text, w) ∧
    yaml_safe_load text = Some entries ∧
    py_get entries "services" (YMap []) w = (Ok services, w) ∧
    load_state w = (Ok state, w) ∧
    py_get state "deployed" (YMap []) w = (Ok deployed, w) ∧
    keys services w = (Ok names, w) ∧
    map Service.name ss = names ∧
    Forall (λ s, Service.selected s = false ∧
                 ∃ d, deployed = YMap d ∧
                      Service.deployed s = recorded d (Service.name s)) ss.
Proof.
  unfold load_services. intros Hrun.
  apply bind_inv in Hrun as [(text & w1 & H1 & Hrun)|(e & _ & [=])].
  apply read_file_world in H1 as Hw. subst w1.
  apply bind_inv in Hrun as [(entries & w1 & H2 & Hrun)|(e & _ & [=])].
  apply safe_load_world in H2 as Hw. subst w1.
  apply bind_inv in Hrun as [(services & w1 & H3 & Hrun)|(e & _ & [=])].
  apply py_get_world in H3 as Hw. subst w1.
  apply bind_inv in Hrun as [(state & w1 & H4 & Hrun)|(e & _ & [=])].
  apply load_state_world in H4 as Hw. subst w1.
  apply bind_inv in Hrun as [(deployed & w1 & H5 & Hrun)|(e & _ & [=])].
  apply py_get_world in H5 as Hw. subst w1.
  apply bind_inv in Hrun as [(names & w1 & H6 & Hrun)|(e & _ & [=])].
  apply keys_world in H6 as Hw. subst w1.
  apply load_loop_flags in Hrun as (ss' & -> & Hnames & Hall).
  exists text, entries, services, state, deployed, names.
  repeat (split; [done|]). split; [|done].
  unfold safe_load, ret, raise in H2. destruct (yaml_safe_load text); by simplify_eq.
Qed.

(** X14. What [write_state] wrote, [load_services] reads: when the YAML
    library reads the state document back as it was dumped, the next
    [load_services] gives every configured service the flag that the
    service of its name had when the state was written (of the last one,
    were there several), and false when there was none. *)
Theorem state_round_trip w w1 ss w2 :
  yaml_safe_load (yaml_safe_dump (state_document (services w)))
    = Some (state_document (services w)) →
  write_state w = (Ok tt, w1) →
  load_services w1 = (Ok ss, w2) →
  Forall (λ s, Service.deployed s = flag_of (Service.name s) (services w)) ss.
Proof.
  intros Hback Hwrite Hload. unfold write_state in Hwrite.
  erewrite bind_ok in Hwrite; [|reflexivity].
  apply read_after_write in Hwrite as Hread.
  apply load_services_inv in Hload
    as (text & entries & svc & state & deployed & names & _ & _ & _ & Hstate & Hdep
        & _ & _ & Hall).
  unfold load_state in Hstate. rewrite Hread in Hstate.
  unfold safe_load in Hstate. rewrite Hback in Hstate. injection Hstate as <-.
  injection Hdep as <-.
  eapply Forall_impl; [exact Hall|]. intros s (_ & d & [= <-] & ->).
  unfold recorded, flag_of. rewrite assoc_state.
  by destruct (last_named _ _).
Qed.

(** X15. [load_services] only reads: whatever its outcome, the world is as
    it was; and the services it returns are all unselected. *)
Theorem load_services_only_reads w r w' :
  load_services w = (r, w') →
  w' = w ∧
  ∀ ss, r = Ok ss → Forall (λ s, Service.selected s = false) ss.
Proof.
  intros Hrun. apply load_services_world in Hrun as Hw. subst w'.
  split; [done|]. intros ss ->.
  apply load_services_inv in Hrun
    as (text & entries & svc & state & deployed & names & _ & _ & _ & _ & _
        & _ & _ & Hall).
  eapply Forall_impl; [exact Hall|]. by intros s [? _].
Qed.

Lemma load_loop_bare (doc : list (string * yaml)) deployed names result w k v :
  Forall (λ n, is_Some (assoc n doc)) names →
  k ∈ names → assoc k doc = Some v → mapping v = false →
  fold_each names result (λ result s,
    properties <- getitem (YMap doc) s ;;
    flag <- py_get (YMap deployed) s (YBool false) ;;
    service <- Service_init s properties flag ;;
    ret (result ++ [service])) w = (Raise (AttributeError "get"), w).
Proof.
  intros Hall Hk Hv Hbare. revert result.
  induction names as [|n names IH]; intros result; [by apply elem_of_nil in Hk|].
  apply Forall_cons in Hall as [[v' Hv'] Hall]. simpl.
  destruct (mapping v') eqn:Hm.
  - assert (k ∈ names) as Hin.
    { apply elem_of_cons in Hk as [->|]; [congruence | done]. }
    destruct v' as [| | | | |props]; try done.
    erewrite bind_ok; [exact (IH Hall Hin _)|].
    unfold getitem. rewrite Hv'. reflexivity.
  - erewrite bind_raise; [done|].
    unfold getitem. rewrite Hv'.
    erewrite bind_ok; [|reflexivity].
    erewrite bind_ok; [|reflexivity].
    erewrite bind_raise; [done|]. by apply Service_init_bare.
Qed.

Lemma assoc_keys_some {A} (doc : list (string * A)) :
  Forall (λ n, is_Some (assoc n doc)) (map fst doc).
Proof.
  induction doc as [|[k v] doc IH]; simpl; constructor.
  - rewrite String.eqb_refl. by eexists.
  - eapply Forall_impl; [exact IH|]. intros n Hn. simpl.
    destruct (String.eqb n k); [by eexists | done].
Qed.

Lemma assoc_elem_of {A} k (v : A) doc : assoc k doc = Some v → k ∈ map fst doc.
Proof.
  induction doc as [|[k0 v0] doc IH]; simpl; [done|].
  destruct (String.eqb_spec k k0) as [->|]; intros Hk.
  - apply list_elem_of_here.
  - apply list_elem_of_further. by apply IH.
Qed.

(** X16. A service configured without properties cannot be loaded. When a
    name under [services] has a value that is not a mapping (as the YAML
    entry [web:] with nothing after it), and the state file is absent or
    holds a mapping, [load_services] raises [AttributeError] (the [.get] of
    [Service.__init__]) and no service is returned, whatever the other
    entries are. *)
Theorem load_services_rejects_bare_service w text entries doc k v :
  read_file _SERVICE_CFG w = (Ok text, w) →
  yaml_safe_load text = Some (YMap entries) →
  assoc "services" entries = Some (YMap doc) →
  assoc k doc = Some v → mapping v = false →
  (node_at w _STATE_CFG = None ∨
   ∃ stext sentries d,
     read_file _STATE_CFG w = (Ok stext, w) ∧
     yaml_safe_load stext = Some (YMap sentries) ∧
     from_option id (YMap []) (assoc "deployed" sentries) = YMap d) →
  load_services w = (Raise (AttributeError "get"), w).
Proof.
  intros Hread Hparse Hdoc Hk Hbare Hstate. unfold load_services.
  erewrite bind_ok; [|exact Hread].
  unfold safe_load at 1. rewrite Hparse.
  erewrite bind_ok; [|reflexivity].
  erewrite bind_ok; [|unfold py_get; rewrite Hdoc; reflexivity].
  assert (∃ sentries d, load_state w = (Ok (YMap sentries), w) ∧
                        from_option id (YMap []) (assoc "deployed" sentries) = YMap d)
    as (sentries & d & Hload & Hd).
  { destruct Hstate as [Hmissing|(stext & sentries & d & Hs & Hp & Hd)].
    - exists [], []. split; [|done].
      unfold load_state. by rewrite (read_file_missing _ _ Hmissing).
    - exists sentries, d. split; [|done].
      unfold load_state. rewrite Hs. unfold safe_load. by rewrite Hp. }
  erewrite bind_ok; [|exact Hload].
  erewrite bind_ok; [|unfold py_get; rewrite Hd; reflexivity].
  erewrite bind_ok; [|reflexivity].
  eapply load_loop_bare; [apply assoc_keys_some | | exact Hk | exact Hbare].
  by eapply assoc_elem_of.
Qed.

(** X17. [secrets] needs a well-formed [secrets.yml] before anything else.
    Without the file it raises [FileNotFoundError]; with an empty document
    [TypeError] (the subscript of [None]); with a mapping that has no key
    [secrets], [KeyError]. In each case the world is as it was: nothing
    has been written. *)
Theorem secrets_needs_secrets_file w :
  (node_at w _SECRET_CFG = None →
   secrets w = (Raise (FileNotFoundError _SECRET_CFG), w)) ∧
  (∀ text, read_file _SECRET_CFG w = (Ok text, w) →
           yaml_safe_load text = Some YNull →
           secrets w = (Raise TypeError, w)) ∧
  (∀ text m, read_file _SECRET_CFG w = (Ok text, w) →
             yaml_safe_load text = Some (YMap m) →
             assoc "secrets" m = None →
             secrets w = (Raise (KeyError "secrets"), w)).
Proof.
  split; [|split].
  - intros Hmissing. unfold secrets, load_secrets.
    erewrite bind_raise; [done|].
    erewrite bind_raise; [done|]. by apply read_file_missing.
  - intros text Hread Hparse. unfold secrets, load_secrets.
    erewrite bind_raise; [done|].
    erewrite bind_ok; [|exact Hread].
    unfold safe_load. rewrite Hparse. reflexivity.
  - intros text m Hread Hparse Hkey. unfold secrets, load_secrets.
    erewrite bind_raise; [done|].
    erewrite bind_ok; [|exact Hread].
    unfold safe_load. rewrite Hparse.
    erewrite bind_ok; [|reflexivity].
    unfold getitem. by rewrite Hkey.
Qed.

Lemma load_templates_none w :
  Forall (λ s, Service.deployed s = false ∨ Service.secret_files s = [])
         (services w) →
  load_templates w = (Ok [], w).
Proof.
  intros Hall. unfold load_templates.
  erewrite bind_ok; [|reflexivity].
  assert (fold_each (services w) [] (λ templates service,
            if Service.deployed service then
              fold_each (Service.secret_files service) templates (λ templates path,
                let template_path := (path ++ ".jinja")%string in
                text <- read_file template_path ;;
                ret (dict_set path text templates))
            else ret templates) w = (Ok [], w)) as Hnone.
  { induction Hall as [|s ss Hs _ IH]; [done|]. simpl.
    erewrite bind_ok; [exact IH|].
    destruct Hs as [->| ->]; [done|]. by destruct (Service.deployed s). }
  erewrite bind_ok; [|exact Hnone]. reflexivity.
Qed.

(** X18. Services that are not deployed have no part in [secrets], and
    neither has a deployed service without secret files: when no deployed
    service lists a secret file, [secrets] returns as soon as [secrets.yml]
    has loaded and leaves the world as it was, reading no template and
    writing no file. *)
Theorem secrets_without_secret_files w tree :
  Forall (λ s, Service.deployed s = false ∨ Service.secret_files s = [])
         (services w) →
  load_secrets w = (Ok tree, w) →
  secrets w = (Ok tt, w).
Proof.
  intros Hall Hload. unfold secrets.
  erewrite bind_ok; [|exact Hload].
  erewrite bind_ok; [|by apply load_templates_none].
  reflexivity.
Qed.

End Records.

Lemma state_round_trip_witness :
  let ss := [Sample.deployed Sample.web; Sample.batch] in
  let w := Sample.world ss Sample.files in
  let w1 := (write_state (ext := reads_back (state_document ss)) w).2 in
  let loaded :=
    match (load_services (ext := reads_back (state_document ss)) w1).1 with
    | Ok l => l
    | Raise _ => []
    end in
  map Service.name loaded = ["web"; "batch"] ∧
  Forall (λ s, Service.deployed s = flag_of (Service.name s) ss) loaded.
Proof.
  intros ss w w1 loaded. split; [vm_compute; reflexivity|].
  apply (state_round_trip (ext := reads_back (state_document ss)) w w1 loaded w1);
    vm_compute; reflexivity.
Defined.

Lemma load_services_only_reads_witness :
  let w := Sample.world [] Sample.files in
  let run := load_services (ext := Sample.all_succeed) w in
  run.2 = w ∧ ∀ ss, run.1 = Ok ss → Forall (λ s, Service.selected s = false) ss.
Proof.
  intros w run.
  apply (load_services_only_reads (ext := Sample.all_succeed) w run.1 run.2).
  vm_compute. reflexivity.
Defined.

Lemma load_services_rejects_bare_service_witness :
  let doc := YMap [("services", YMap [("batch", YMap []); ("web", YNull)])] in
  let w := Sample.world [] (<[_SERVICE_CFG := File "STATE"]> ∅) in
  load_services (ext := reads_back doc) w = (Raise (AttributeError "get"), w).
Proof.
  intros doc w.
  apply (load_services_rejects_bare_service (ext := reads_back doc) w "STATE"
           [("services", YMap [("batch", YMap []); ("web", YNull)])]
           [("batch", YMap []); ("web", YNull)] "web" YNull);
    try reflexivity.
  left. vm_compute. reflexivity.
Defined.

Lemma secrets_needs_secrets_file_witness :
  let missing := Sample.world [] ∅ in
  let empty := Sample.world [] (<[_SECRET_CFG := File ""]> ∅) in
  let other := Sample.world [] (<[_SECRET_CFG := File "SERVICES"]> ∅) in
  secrets (ext := Sample.all_succeed) missing
    = (Raise (FileNotFoundError _SECRET_CFG), missing) ∧
  secrets (ext := Sample.all_succeed) empty = (Raise TypeError, empty) ∧
  secrets (ext := Sample.all_succeed) other = (Raise (KeyError "secrets"), other).
Proof.
  intros missing empty other. split; [|split].
  - apply (proj1 (secrets_needs_secrets_file (ext := Sample.all_succeed) missing)).
    vm_compute. reflexivity.
  - apply (proj1 (proj2 (secrets_needs_secrets_file (ext := Sample.all_succeed) empty))
             "");
      vm_compute; reflexivity.
  - apply (proj2 (proj2 (secrets_needs_secrets_file (ext := Sample.all_succeed) other))
             "SERVICES" Sample.services_entries);
      vm_compute; reflexivity.
Defined.

Lemma secrets_without_secret_files_witness :
  let w := Sample.world [Sample.web; Sample.deployed Sample.batch] Sample.files in
  secrets (ext := Sample.all_succeed) w = (Ok tt, w).
Proof.
  intros w.
  apply (secrets_without_secret_files (ext := Sample.all_succeed) w
           Sample.secrets_tree).
  - apply Forall_cons. split; [by left|].
    apply Forall_cons. split; [by right|]. apply Forall_nil_2.
  - vm_compute. reflexivity.
Defined.
